(** * holy_tunnel: the connection-handling engine of [holytunnel.c]

    A shallow embedding of the worker / client / server code of
    [src/holytunnel.c] and the properties of it that the specification
    states.  The C functions are written in a small state-and-abort monad
    over the worker (or server) structure and a model of the kernel objects
    the code talks to (descriptor table, epoll interest lists, socket byte
    streams).  Every memory access to a client record and every system call
    is appended to a trace, so that ordering properties ("first ..., only
    afterwards ...") and accesses to released slots can be stated. *)

From Stdlib Require Import ZArith Lia String Ascii List.
From stdpp Require Import base decidable option list gmap sets strings.

Local Open Scope Z_scope.

(** ** Constants of the C code and of the Linux headers it uses *)

Definition _CLIENT_STATE_HEADER : Z := 0.
Definition _CLIENT_STATE_RESOLVER : Z := 1.
Definition _CLIENT_STATE_CONNECT : Z := 2.
Definition _CLIENT_STATE_RESPONSE : Z := 3.
Definition _CLIENT_STATE_FORWARD_HEADER : Z := 4.
Definition _CLIENT_STATE_FORWARD_ALL : Z := 5.
Definition _CLIENT_STATE_STOP : Z := 6.

Definition _CLIENT_TYPE_HTTP : Z := 0.
Definition _CLIENT_TYPE_HTTPS : Z := 1.

Definition EPOLLIN : Z := 1.
Definition EPOLLOUT : Z := 4.
Definition EPOLL_CTL_ADD : Z := 1.
Definition EPOLL_CTL_DEL : Z := 2.
Definition EPOLL_CTL_MOD : Z := 3.

(** [unsigned] arithmetic of the C code: 32 bits, wrapping. *)
Definition UINT_MODULUS : Z := 2 ^ 32.
Definition wrap_unsigned (z : Z) : Z := z mod UINT_MODULUS.

(** ** Data model *)

(** A [Client *]: the address of a slot of the worker's mempool; [None] is
    [NULL]. *)
Definition Addr := positive.

(** [struct epoll_event]: the interest mask and the [data.ptr] cookie. *)
Module Event.
Record t := mk { events : Z; data_ptr : option Addr }.
End Event.

(** Modelled from the spec: [HttpRequest] is declared in [util.h], which is
    not part of the sources; the parser interface of the specification
    yields a method, a target authority and a header block. *)
Module HttpRequest.
Record t := mk { method : string; target : string; header_block : string }.
End HttpRequest.

(** Modelled from the spec: [Url] is declared in [util.h]; the code only
    uses its two heap pointers [host] and [port]. *)
Module Url.
Record t := mk { host : option string; port : option string }.
End Url.

(** [struct client]. *)
Module Client.
Record t := mk {
  type : Z;
  state : Z;
  src_fd : Z;
  trg_fd : Z;
  event : Event.t;
  peer : option Addr;
  request : HttpRequest.t;
  url : Url.t;
  sent : Z;
  recvd : Z;
  buffer : string
}.

Definition set_type (v : Z) (c : t) : t :=
  mk v (state c) (src_fd c) (trg_fd c) (event c) (peer c) (request c)
     (url c) (sent c) (recvd c) (buffer c).

Definition set_state (v : Z) (c : t) : t :=
  mk (type c) v (src_fd c) (trg_fd c) (event c) (peer c) (request c)
     (url c) (sent c) (recvd c) (buffer c).

Definition set_src_fd (v : Z) (c : t) : t :=
  mk (type c) (state c) v (trg_fd c) (event c) (peer c) (request c)
     (url c) (sent c) (recvd c) (buffer c).

Definition set_trg_fd (v : Z) (c : t) : t :=
  mk (type c) (state c) (src_fd c) v (event c) (peer c) (request c)
     (url c) (sent c) (recvd c) (buffer c).

Definition set_event (v : Event.t) (c : t) : t :=
  mk (type c) (state c) (src_fd c) (trg_fd c) v (peer c) (request c)
     (url c) (sent c) (recvd c) (buffer c).

Definition set_events (v : Z) (c : t) : t :=
  set_event (Event.mk v (Event.data_ptr (event c))) c.

Definition set_data_ptr (v : option Addr) (c : t) : t :=
  set_event (Event.mk (Event.events (event c)) v) c.

Definition set_peer (v : option Addr) (c : t) : t :=
  mk (type c) (state c) (src_fd c) (trg_fd c) (event c) v (request c)
     (url c) (sent c) (recvd c) (buffer c).

Definition set_url_host (v : option string) (c : t) : t :=
  mk (type c) (state c) (src_fd c) (trg_fd c) (event c) (peer c) (request c)
     (Url.mk v (Url.port (url c))) (sent c) (recvd c) (buffer c).

Definition set_url_port (v : option string) (c : t) : t :=
  mk (type c) (state c) (src_fd c) (trg_fd c) (event c) (peer c) (request c)
     (Url.mk (Url.host (url c)) v) (sent c) (recvd c) (buffer c).

Definition set_sent (v : Z) (c : t) : t :=
  mk (type c) (state c) (src_fd c) (trg_fd c) (event c) (peer c) (request c)
     (url c) v (recvd c) (buffer c).

Definition set_recvd (v : Z) (c : t) : t :=
  mk (type c) (state c) (src_fd c) (trg_fd c) (event c) (peer c) (request c)
     (url c) (sent c) v (buffer c).

(** The contents of a slot that was never written: the mempool hands out
  raw memory, the model fixes it to zeroes. *)
Definition blank : t :=
  mk 0 0 0 0 (Event.mk 0 None) None
     (HttpRequest.mk EmptyString EmptyString EmptyString)
     (Url.mk None None) 0 0 EmptyString.
End Client.

(** The members of [struct client] an access can name. *)
Inductive Field :=
| F_type | F_state | F_src_fd | F_trg_fd | F_event | F_peer
| F_url | F_sent | F_recvd | F_buffer.

(** Modelled from the spec: [Mempool] with [mempool_alloc] and
    [mempool_free] is implemented in [util.c], which is not part of the
    sources.  The specification describes it as a fixed-record allocator
    with stable addresses whose [allocate] yields a record handle or reports
    exhaustion.  [slots] is the memory of every slot the pool ever handed
    out (a released slot keeps its bytes), [live] the slots currently
    allocated, [max_slots] the number of slots memory allows. *)
Module Mempool.
Record t := mk {
  slots : gmap positive Client.t;
  live : gset positive;
  max_slots : nat
}.
End Mempool.

(** [struct worker].  The resolver pointer and the thread handle are not
    used by the functions modelled here. *)
Module Worker.
Record t := mk {
  index : Z;
  is_alive : Z;
  event_fd : Z;
  clients : Mempool.t
}.

Definition set_clients (m : Mempool.t) (w : t) : t :=
  mk (index w) (is_alive w) (event_fd w) m.
End Worker.

(** [struct server]; [workers] is the heap array of [workers_len]
    elements. *)
Module Server.
Record t := mk {
  is_alive : Z;
  listen_fd : Z;
  signal_fd : Z;
  workers_curr : Z;
  workers_len : Z;
  workers : list Worker.t
}.

Definition set_workers_curr (v : Z) (s : t) : t :=
  mk (is_alive s) (listen_fd s) (signal_fd s) v (workers_len s) (workers s).

Definition set_workers (v : list Worker.t) (s : t) : t :=
  mk (is_alive s) (listen_fd s) (signal_fd s) (workers_curr s)
     (workers_len s) v.
End Server.

(** ** Observable effects *)

Inductive Effect :=
| ELoad (a : Addr) (f : Field)
| EStore (a : Addr) (f : Field)
| EMempoolAlloc (r : option Addr)
| EMempoolFree (a : Addr)
| EUrlFree (a : Addr)
| EEpollCtl (efd op fd : Z) (ev : Event.t) (ret : Z)
| EClose (fd : Z)
| EAccept (ret : Z)
| ESend (fd : Z) (bytes : string)
| ERecv (fd : Z) (bytes : string)
| EAbort.

(** ** The kernel objects the engine talks to

    [open_fds] is the descriptor table of the process; [epolls] maps an
    epoll descriptor to its interest list (descriptor to registered
    event); [tx] holds, per socket, the bytes the process has written to it
    so far and [rx] the bytes that are waiting to be read; [accept_queue] is
    what the next calls of [accept] on the listening socket will return;
    [max_user_watches] bounds the size of an interest list ([ENOSPC]). *)
Module World.
Record t := mk {
  open_fds : gset Z;
  epolls : gmap Z (gmap Z Event.t);
  tx : gmap Z string;
  rx : gmap Z string;
  accept_queue : list Z;
  max_user_watches : nat;
  trace : list Effect
}.

Definition set_open_fds (v : gset Z) (k : t) : t :=
  mk v (epolls k) (tx k) (rx k) (accept_queue k) (max_user_watches k)
     (trace k).

Definition set_epolls (v : gmap Z (gmap Z Event.t)) (k : t) : t :=
  mk (open_fds k) v (tx k) (rx k) (accept_queue k) (max_user_watches k)
     (trace k).

Definition set_rx (v : gmap Z string) (k : t) : t :=
  mk (open_fds k) (epolls k) (tx k) v (accept_queue k) (max_user_watches k)
     (trace k).

Definition set_accept_queue (v : list Z) (k : t) : t :=
  mk (open_fds k) (epolls k) (tx k) (rx k) v (max_user_watches k)
     (trace k).

Definition log (e : Effect) (k : t) : t :=
  mk (open_fds k) (epolls k) (tx k) (rx k) (accept_queue k)
     (max_user_watches k) (trace k ++ [e]).
End World.

(** ** The monad: state passing over a structure [X] and the world, with
    [abort()] and wild-pointer faults as the two ways not to return. *)

Inductive Outcome (X A : Type) :=
| Ok (a : A) (s : X * World.t)
| Aborted (s : X * World.t)
| Fault (s : X * World.t).
Arguments Ok {X A} a s.
Arguments Aborted {X A} s.
Arguments Fault {X A} s.

Definition M (X A : Type) : Type := X * World.t → Outcome X A.

Definition ret {X A} (a : A) : M X A := fun s => Ok a s.

Definition bind {X A B} (m : M X A) (f : A → M X B) : M X B :=
  fun s =>
    match m s with
    | Ok a s' => f a s'
    | Aborted s' => Aborted s'
    | Fault s' => Fault s'
    end.

Declare Scope engine_scope.
Delimit Scope engine_scope with engine.
Notation "x <- m ;; k" := (bind m (fun x => k))
  (at level 100, m at next level, right associativity) : engine_scope.
Notation "m ;;; k" := (bind m (fun _ => k))
  (at level 100, right associativity) : engine_scope.
Local Open Scope engine_scope.

(** [abort()]: the process is terminated. *)
Definition abort {X A} : M X A :=
  fun '(x, k) => Aborted (x, World.log EAbort k).

(** ** System calls *)

(** [epoll_ctl(efd, op, fd, &ev)] with the error cases of epoll_ctl(2):
    [EBADF]/[EINVAL] when [efd] is no epoll instance or [fd] is not open,
    [EEXIST] and [ENOSPC] for [ADD], [ENOENT] for [MOD] and [DEL]. *)
Definition epoll_ctl_table (k : World.t) (efd op fd : Z) (ev : Event.t)
  : option (gmap Z Event.t) :=
  match World.epolls k !! efd with
  | None => None
  | Some tbl =>
      if negb (bool_decide (fd ∈ World.open_fds k)) then None
      else if op =? EPOLL_CTL_ADD then
        match tbl !! fd with
        | Some _ => None
        | None =>
            if (World.max_user_watches k <=? size tbl)%nat then None
            else Some (<[fd := ev]> tbl)
        end
      else if op =? EPOLL_CTL_MOD then
        match tbl !! fd with
        | Some _ => Some (<[fd := ev]> tbl)
        | None => None
        end
      else if op =? EPOLL_CTL_DEL then
        match tbl !! fd with
        | Some _ => Some (delete fd tbl)
        | None => None
        end
      else None
  end.

Definition epoll_ctl {X} (efd op fd : Z) (ev : Event.t) : M X Z :=
  fun '(x, k) =>
    match epoll_ctl_table k efd op fd ev with
    | Some tbl =>
        Ok 0 (x, World.log (EEpollCtl efd op fd ev 0)
                   (World.set_epolls (<[efd := tbl]> (World.epolls k)) k))
    | None => Ok (-1) (x, World.log (EEpollCtl efd op fd ev (-1)) k)
    end.

(** [close(fd)]: the descriptor leaves the table and every interest
    list, and the bytes that were waiting on it are discarded. *)
Definition sys_close {X} (fd : Z) : M X unit :=
  fun '(x, k) =>
    Ok tt (x, World.log (EClose fd)
                (World.set_rx (delete fd (World.rx k))
                   (World.set_epolls (delete fd <$> World.epolls k)
                      (World.set_open_fds (World.open_fds k ∖ {[fd]}) k)))).

(** [accept(listen_fd, NULL, NULL)]: the next entry of the queue, [-1]
    when nothing is pending; a descriptor that is returned is open. *)
Definition sys_accept {X} (listen_fd : Z) : M X Z :=
  fun '(x, k) =>
    match World.accept_queue k with
    | [] => Ok (-1) (x, World.log (EAccept (-1)) k)
    | fd :: q =>
        let k1 := World.set_accept_queue q k in
        let k2 := if fd <? 0 then k1
                  else World.set_open_fds ({[fd]} ∪ World.open_fds k1) k1 in
        Ok fd (x, World.log (EAccept fd) k2)
    end.

(** ** Access to client records and to the mempool *)

(** [client->f] as an rvalue. *)
Definition load {T} (a : Addr) (f : Field) (proj : Client.t → T)
  : M Worker.t T :=
  fun '(w, k) =>
    match Mempool.slots (Worker.clients w) !! a with
    | Some c => Ok (proj c) (w, World.log (ELoad a f) k)
    | None => Fault (w, k)
    end.

(** [client->f = v]. *)
Definition store (a : Addr) (f : Field) (upd : Client.t → Client.t)
  : M Worker.t unit :=
  fun '(w, k) =>
    let mp := Worker.clients w in
    match Mempool.slots mp !! a with
    | Some c =>
        Ok tt (Worker.set_clients
                 (Mempool.mk (<[a := upd c]> (Mempool.slots mp))
                    (Mempool.live mp) (Mempool.max_slots mp)) w,
               World.log (EStore a f) k)
    | None => Fault (w, k)
    end.

(** [mempool_alloc(&w->clients)]. *)
Definition mempool_alloc : M Worker.t (option Addr) :=
  fun '(w, k) =>
    let mp := Worker.clients w in
    if (Mempool.max_slots mp <=? size (Mempool.live mp))%nat then
      Ok None (w, World.log (EMempoolAlloc None) k)
    else
      let a := fresh (Mempool.live mp) in
      let mem := match Mempool.slots mp !! a with
                 | Some _ => Mempool.slots mp
                 | None => <[a := Client.blank]> (Mempool.slots mp)
                 end in
      Ok (Some a)
         (Worker.set_clients
            (Mempool.mk mem ({[a]} ∪ Mempool.live mp) (Mempool.max_slots mp))
            w,
          World.log (EMempoolAlloc (Some a)) k).

(** [mempool_free(&w->clients, client)]. *)
Definition mempool_free (a : Addr) : M Worker.t unit :=
  fun '(w, k) =>
    let mp := Worker.clients w in
    Ok tt (Worker.set_clients
             (Mempool.mk (Mempool.slots mp) (Mempool.live mp ∖ {[a]})
                (Mempool.max_slots mp)) w,
           World.log (EMempoolFree a) k).

(** Modelled from the spec: [url_free] is implemented in [util.c]; it
    releases the parsed-request resources of the record. *)
Definition url_free (a : Addr) : M Worker.t unit :=
  fun '(w, k) => Ok tt (w, World.log (EUrlFree a) k).

(** [w->event_fd]. *)
Definition worker_event_fd : M Worker.t Z :=
  fun '(w, k) => Ok (Worker.event_fd w) (w, k).

(** ** Worker: the client state handlers (lines 375-421)

    Each handler returns the next state of the record. *)

Definition _worker_client_state_header (client : Addr) : M Worker.t Z :=
  ret _CLIENT_STATE_STOP.

Definition _worker_client_state_header_parse (client : Addr) : M Worker.t Z :=
  ret _CLIENT_STATE_STOP.

Definition _worker_client_state_resolver (client : Addr) : M Worker.t Z :=
  ret _CLIENT_STATE_STOP.

Definition _worker_client_state_connect (client : Addr) : M Worker.t Z :=
  ret _CLIENT_STATE_STOP.

Definition _worker_client_state_response (client : Addr) : M Worker.t Z :=
  ret _CLIENT_STATE_STOP.

Definition _worker_client_state_forward_header (client : Addr)
  : M Worker.t Z :=
  ret _CLIENT_STATE_STOP.

Definition _worker_client_state_forward_all (client : Addr) : M Worker.t Z :=
  ret _CLIENT_STATE_STOP.

(** ** Worker: adding and deleting a client (lines 309-372) *)

Definition _worker_client_add (src_fd trg_fd state : Z) (peer : option Addr)
  : M Worker.t Z :=
  client <- mempool_alloc ;;
  match client with
  | None => ret (-1)
  | Some c =>
      store c F_event (Client.set_events EPOLLIN) ;;;
      store c F_event (Client.set_data_ptr (Some c)) ;;;
      efd <- worker_event_fd ;;
      ev <- load c F_event Client.event ;;
      r <- epoll_ctl efd EPOLL_CTL_ADD src_fd ev ;;
      if r <? 0 then
        mempool_free c ;;;
        ret (-1)
      else
        store c F_type (Client.set_type _CLIENT_TYPE_HTTP) ;;;
        store c F_state (Client.set_state state) ;;;
        store c F_src_fd (Client.set_src_fd src_fd) ;;;
        store c F_trg_fd (Client.set_trg_fd trg_fd) ;;;
        store c F_url (Client.set_url_host None) ;;;
        store c F_url (Client.set_url_port None) ;;;
        store c F_sent (Client.set_sent 0) ;;;
        store c F_recvd (Client.set_recvd 0) ;;;
        store c F_peer (Client.set_peer peer) ;;;
        ret 0
  end.

(** The block of [_worker_client_del] guarded by [peer != NULL]
    (lines 350-359). *)
Definition _worker_client_del_peer (p : Addr) : M Worker.t unit :=
  store p F_event (Client.set_events (Z.lor EPOLLIN EPOLLOUT)) ;;;
  efd <- worker_event_fd ;;
  fd <- load p F_src_fd Client.src_fd ;;
  ev <- load p F_event Client.event ;;
  r <- epoll_ctl efd EPOLL_CTL_MOD fd ev ;;
  (if r <? 0 then abort else ret tt) ;;;
  store p F_state (Client.set_state _CLIENT_STATE_STOP) ;;;
  store p F_peer (Client.set_peer None).

(** The rest of [_worker_client_del] (lines 362-371). *)
Definition _worker_client_del_self (client : Addr) : M Worker.t unit :=
  efd <- worker_event_fd ;;
  fd <- load client F_src_fd Client.src_fd ;;
  ev <- load client F_event Client.event ;;
  r <- epoll_ctl efd EPOLL_CTL_DEL fd ev ;;
  (if r <? 0 then abort else ret tt) ;;;
  fd <- load client F_src_fd Client.src_fd ;;
  sys_close fd ;;;
  url_free client ;;;
  mempool_free client.

Definition _worker_client_del (client : Addr) : M Worker.t unit :=
  peer <- load client F_peer Client.peer ;;
  match peer with
  | Some p => _worker_client_del_peer p
  | None => ret tt
  end ;;;
  _worker_client_del_self client.

(** ** Worker: dispatch of one readiness event (lines 274-306) *)

(** The [switch (state)]: a value that is none of the six cases leaves
    [state] as it is. *)
Definition client_state_switch (state : Z) (client : Addr) : M Worker.t Z :=
  if state =? _CLIENT_STATE_HEADER then
    _worker_client_state_header client
  else if state =? _CLIENT_STATE_RESOLVER then
    _worker_client_state_resolver client
  else if state =? _CLIENT_STATE_CONNECT then
    _worker_client_state_connect client
  else if state =? _CLIENT_STATE_RESPONSE then
    _worker_client_state_response client
  else if state =? _CLIENT_STATE_FORWARD_HEADER then
    _worker_client_state_forward_header client
  else if state =? _CLIENT_STATE_FORWARD_ALL then
    _worker_client_state_forward_all client
  else ret state.

(** The function itself.  The [log_debug] calls of the source are not part
    of the model.  The store of line 305 is not guarded: it is executed
    whether or not [_worker_client_del] was called. *)
Definition _worker_handle_client_state (client : Addr) : M Worker.t unit :=
  state <- load client F_state Client.state ;;
  state <- client_state_switch state client ;;
  (if state =? _CLIENT_STATE_STOP then _worker_client_del client
   else ret tt) ;;;
  store client F_state (Client.set_state state).

(** The cleanup callback of [mempool_deinit] (lines 424-434). *)
Definition _worker_on_destroy_active_client (c : Addr) : M Worker.t unit :=
  fd <- load c F_src_fd Client.src_fd ;;
  sys_close fd ;;;
  url_free c.

(** ** Server: the accept handler (lines 615-633) *)

(** [&s->workers[i]] followed by a call on that worker; an index outside
    the array is a wild pointer. *)
Definition on_worker {A} (i : Z) (m : M Worker.t A) : M Server.t A :=
  fun '(s, k) =>
    if i <? 0 then Fault (s, k) else
    match Server.workers s !! Z.to_nat i with
    | None => Fault (s, k)
    | Some w =>
        let put w' := Server.set_workers
                        (<[Z.to_nat i := w']> (Server.workers s)) s in
        match m (w, k) with
        | Ok a (w', k') => Ok a (put w', k')
        | Aborted (w', k') => Aborted (put w', k')
        | Fault (w', k') => Fault (put w', k')
        end
    end.

Definition server_get {T} (proj : Server.t → T) : M Server.t T :=
  fun '(s, k) => Ok (proj s) (s, k).

Definition server_set_workers_curr (v : Z) : M Server.t unit :=
  fun '(s, k) => Ok tt (Server.set_workers_curr v s, k).

(** The handler.  [workers_curr] and [workers_len] are [unsigned]; the
    remainder by 0 is undefined in C and a fault here. *)
Definition _server_event_handle_listener : M Server.t unit :=
  lfd <- server_get Server.listen_fd ;;
  fd <- sys_accept lfd ;;
  if fd <? 0 then ret tt
  else
    curr <- server_get Server.workers_curr ;;
    r <- on_worker curr
           (_worker_client_add fd (-1) _CLIENT_STATE_HEADER None) ;;
    if r <? 0 then sys_close fd
    else
      len <- server_get Server.workers_len ;;
      if len =? 0 then (fun s => Fault s)
      else server_set_workers_curr (wrap_unsigned (curr + 1) mod len).

(** ** Server start-up: [_worker_create] and [_server_create_workers]
    (lines 196-227 and 505-551)

    The calls into the C library, the kernel and the worker threads are
    answered by an environment: the return values of [get_nprocs],
    [malloc], [epoll_create1], [mempool_init] and [thrd_create]; the
    value that the [t]-th [atomic_load] of the wait loop reads from the
    [is_alive] flag of worker [j] (the flag is written by the worker
    thread: 1 when its loop starts, 0 when it leaves it); and whether the
    [thrd_join] of [_worker_destroy] on worker [i] returns.  It does not
    when the thread, created a moment ago, stores 1 into its flag (line
    251) after [_worker_destroy] has stored 0 (line 234): the thread then
    stays in its loop.  What the failure paths close and release is not
    part of this model. *)
Module Env.
Record t := mk {
  get_nprocs : Z;
  malloc_ok : bool;
  epoll_create1 : Z → Z;
  mempool_init : Z → Z;
  thrd_create_ok : Z → bool;
  max_slots : nat;
  atomic_load_is_alive : nat → Z → Z;
  thrd_join_returns : Z → bool
}.
End Env.

Inductive StartupEvent :=
| SWorkerCreate (index : Z) (ret : Z)
| SWorkerDestroy (index : Z)
| SPoll (index : Z) (is_alive : Z)
| SSleep (usec : Z).

(** [Blocked]: the function is inside a [thrd_join] that does not
    return. *)
Inductive StartupResult :=
| Returned (ret : Z) (s : Server.t) (tr : list StartupEvent)
| AssertFailed
| StillWaiting
| Blocked (tr : list StartupEvent).

(** [_worker_create]: the return value and the worker structure. *)
Definition _worker_create (env : Env.t) (index : Z) : Z * Worker.t :=
  let efd := Env.epoll_create1 env index in
  let w := Worker.mk index 0 efd (Mempool.mk ∅ ∅ (Env.max_slots env)) in
  if efd <? 0 then (-1, w)
  else if Env.mempool_init env index <? 0 then (-1, w)
  else if negb (Env.thrd_create_ok env index) then (-1, w)
  else (0, w).

(** The creation loop, lines 518-522: [n] is the number of iterations
    left; the result is the exit value of [i], whether the loop ran to its
    end, and the workers and events so far. *)
Fixpoint create_workers (env : Env.t) (n : nat) (i : Z)
    (ws : list Worker.t) (tr : list StartupEvent)
  : bool * Z * list Worker.t * list StartupEvent :=
  match n with
  | O => (true, i, ws, tr)
  | S n' =>
      let '(r, w) := _worker_create env i in
      if r <? 0 then (false, i, ws, tr ++ [SWorkerCreate i r])
      else create_workers env n' (wrap_unsigned (i + 1)) (ws ++ [w])
             (tr ++ [SWorkerCreate i r])
  end.

(** The flag of a worker as its thread has written it. *)
Definition worker_flag (v : Z) (w : Worker.t) : Worker.t :=
  Worker.mk (Worker.index w) v (Worker.event_fd w) (Worker.clients w).

(** The wait loop, lines 533-540; [t] counts the polls made so far and
    [ws] is the array.  A poll reads the flag of worker [j], which holds
    what the thread of that worker has stored; every poll is followed by
    [usleep(10000)].  [None]: the loop is still running when the fuel is
    used up. *)
Fixpoint wait_workers (fuel : nat) (env : Env.t) (i j : Z) (t : nat)
    (ws : list Worker.t)
  : option (list Worker.t * list StartupEvent) :=
  if j <? i then
    match fuel with
    | O => None
    | S fuel' =>
        let v := Env.atomic_load_is_alive env t j in
        let ws' := alter (worker_flag v) (Z.to_nat j) ws in
        let j' := if v =? 0 then j else wrap_unsigned (j + 1) in
        match wait_workers fuel' env i j' (S t) ws' with
        | Some (ws'', tr) => Some (ws'', SPoll j v :: SSleep 10000 :: tr)
        | None => None
        end
    end
  else Some (ws, []).

(** The [err0] path, lines 546-547: the workers created so far are
    destroyed, last first.  The result says whether every [thrd_join]
    returned; the events end with the destroy that did not. *)
Fixpoint destroy_workers (env : Env.t) (n : nat)
  : bool * list StartupEvent :=
  match n with
  | O => (true, [])
  | S n' =>
      if Env.thrd_join_returns env (Z.of_nat n') then
        let '(ok, tr) := destroy_workers env n' in
        (ok, SWorkerDestroy (Z.of_nat n') :: tr)
      else (false, [SWorkerDestroy (Z.of_nat n')])
  end.

Definition _server_create_workers (fuel : nat) (env : Env.t) (s : Server.t)
  : StartupResult :=
  let nprocs := Env.get_nprocs env in
  if nprocs <=? 0 then AssertFailed
  else if negb (Env.malloc_ok env) then Returned (-1) s []
  else
    match create_workers env (Z.to_nat nprocs) 0 [] [] with
    | (false, i, ws, tr) =>
        match destroy_workers env (Z.to_nat i) with
        | (true, tr') => Returned (-1) s (tr ++ tr')
        | (false, tr') => Blocked (tr ++ tr')
        end
    | (true, i, ws, tr) =>
        match wait_workers fuel env i 0 0 ws with
        | Some (ws', polls) =>
            Returned 0
              (Server.mk (Server.is_alive s) (Server.listen_fd s)
                 (Server.signal_fd s) 0 nprocs ws')
              (tr ++ polls)
        | None => StillWaiting
        end
    end.

(** ** The request parser

    Modelled from the spec: the request parser lives in [util.c], which is
    not part of the sources, and no function of [holytunnel.c] calls it.
    The specification gives its interface: on the accumulated buffer it
    yields a parsed request (method, target authority, header block),
    "incomplete" or "malformed".  The model takes a buffer to be complete
    when it contains the empty line that ends the header block, and valid
    when its request line is [method SP target SP HTTP/1.x]. *)
Inductive ParseResult :=
| Parsed (r : HttpRequest.t)
| Incomplete
| Malformed.

Definition CRLF : string := String "013" (String "010" EmptyString).

Definition http_request_parse (buf : string) : ParseResult :=
  match String.index 0 (CRLF ++ CRLF) buf with
  | None => Incomplete
  | Some stop =>
      match String.index 0 CRLF buf with
      | None => Malformed
      | Some eol =>
          let line := String.substring 0 eol buf in
          match String.index 0 " " line with
          | None => Malformed
          | Some i =>
              let method := String.substring 0 i line in
              let rest :=
                String.substring (i + 1) (String.length line - i - 1) line in
              match String.index 0 " " rest with
              | None => Malformed
              | Some j =>
                  let target := String.substring 0 j rest in
                  let version :=
                    String.substring (j + 1) (String.length rest - j - 1)
                      rest in
                  if (0 <? String.length method)%nat
                     && (0 <? String.length target)%nat
                     && String.prefix "HTTP/1." version
                  then Parsed
                         (HttpRequest.mk method target
                            (String.substring (eol + 2) (stop - eol) buf))
                  else Malformed
              end
          end
      end
  end.

(** * Vocabulary of the properties *)

(** ** Slots of the mempool *)

(** [slot w a] is the memory of slot [a], allocated or not; [is_live w a]
    says that [a] is allocated. *)
Definition slot (w : Worker.t) (a : Addr) : option Client.t :=
  Mempool.slots (Worker.clients w) !! a.

Definition is_live (w : Worker.t) (a : Addr) : Prop :=
  a ∈ Mempool.live (Worker.clients w).

(** The worker after a store into slot [a], after the release of slot [a]
    and after the allocation of slot [a] with contents [c]. *)
Definition set_slot (a : Addr) (c : Client.t) (w : Worker.t) : Worker.t :=
  Worker.set_clients
    (Mempool.mk (<[a := c]> (Mempool.slots (Worker.clients w)))
       (Mempool.live (Worker.clients w))
       (Mempool.max_slots (Worker.clients w))) w.

Definition free_slot (a : Addr) (w : Worker.t) : Worker.t :=
  Worker.set_clients
    (Mempool.mk (Mempool.slots (Worker.clients w))
       (Mempool.live (Worker.clients w) ∖ {[a]})
       (Mempool.max_slots (Worker.clients w))) w.

Definition alloc_slot (a : Addr) (c : Client.t) (w : Worker.t) : Worker.t :=
  Worker.set_clients
    (Mempool.mk (<[a := c]> (Mempool.slots (Worker.clients w)))
       ({[a]} ∪ Mempool.live (Worker.clients w))
       (Mempool.max_slots (Worker.clients w))) w.

(** The slot [mempool_alloc] hands out next, and the bytes it holds. *)
Definition next_slot (w : Worker.t) : Addr :=
  fresh (Mempool.live (Worker.clients w)).

Definition raw_slot (w : Worker.t) (a : Addr) : Client.t :=
  default Client.blank (slot w a).

(** ** Outcomes and traces *)

Definition outcome_state {X A} (o : Outcome X A) : X * World.t :=
  match o with Ok _ s | Aborted s | Fault s => s end.

(** The world with the effects [es] appended to its trace. *)
Definition world_append (es : list Effect) (k : World.t) : World.t :=
  World.mk (World.open_fds k) (World.epolls k) (World.tx k) (World.rx k)
    (World.accept_queue k) (World.max_user_watches k) (World.trace k ++ es).

Definition is_send (e : Effect) : bool :=
  match e with ESend _ _ => true | _ => false end.

(** ** Well-formed worker states

    The invariants of the data model: every allocated record has memory,
    carries its own address as the [data.ptr] cookie, owns an open
    descriptor that is registered in the worker's epoll instance with that
    cookie; peer links are mutual, between two different allocated
    records. *)
Record worker_wf (w : Worker.t) (k : World.t) : Prop := {
  wf_slot : ∀ a, is_live w a → is_Some (slot w a);
  wf_cookie : ∀ a c,
    is_live w a → slot w a = Some c →
    Event.data_ptr (Client.event c) = Some a;
  wf_open : ∀ a c,
    is_live w a → slot w a = Some c → Client.src_fd c ∈ World.open_fds k;
  wf_registered : ∀ a c,
    is_live w a → slot w a = Some c →
    ∃ tbl ev, World.epolls k !! Worker.event_fd w = Some tbl
              ∧ tbl !! Client.src_fd c = Some ev
              ∧ Event.data_ptr ev = Some a;
  wf_peer : ∀ a c b,
    is_live w a → slot w a = Some c → Client.peer c = Some b →
    b ≠ a ∧ is_live w b
    ∧ ∃ cb, slot w b = Some cb ∧ Client.peer cb = Some a
}.

(** No allocated record points to a slot that is not allocated. *)
Definition no_dangling_peer (w : Worker.t) : Prop :=
  ∀ a c b, is_live w a → slot w a = Some c → Client.peer c = Some b →
           is_live w b.

(** ** Deleting a client *)

(** The partner record after the peer block of [_worker_client_del]. *)
Definition unlinked (pl : Client.t) : Client.t :=
  Client.set_peer None
    (Client.set_state _CLIENT_STATE_STOP
       (Client.set_events (Z.lor EPOLLIN EPOLLOUT) pl)).

(** The effects of the peer block and of the rest of
    [_worker_client_del], in the order in which they happen. *)
Definition del_peer_trace (efd : Z) (p : Addr) (pl : Client.t)
  : list Effect :=
  [EStore p F_event; ELoad p F_src_fd; ELoad p F_event;
   EEpollCtl efd EPOLL_CTL_MOD (Client.src_fd pl)
     (Event.mk (Z.lor EPOLLIN EPOLLOUT) (Event.data_ptr (Client.event pl))) 0;
   EStore p F_state; EStore p F_peer].

Definition del_self_trace (efd : Z) (a : Addr) (cl : Client.t)
  : list Effect :=
  [ELoad a F_src_fd; ELoad a F_event;
   EEpollCtl efd EPOLL_CTL_DEL (Client.src_fd cl) (Client.event cl) 0;
   ELoad a F_src_fd; EClose (Client.src_fd cl); EUrlFree a; EMempoolFree a].

Definition del_paired_trace (efd : Z) (a : Addr) (cl : Client.t)
    (p : Addr) (pl : Client.t) : list Effect :=
  ELoad a F_peer :: del_peer_trace efd p pl ++ del_self_trace efd a cl.

Definition del_single_trace (efd : Z) (a : Addr) (cl : Client.t)
  : list Effect :=
  ELoad a F_peer :: del_self_trace efd a cl.

(** The interest list of the worker and the world after
    [_worker_client_del] of the record [cl], whose partner, if it has one,
    is [po]. *)
Definition del_table (tbl : gmap Z Event.t) (cl : Client.t)
    (po : option Client.t) : gmap Z Event.t :=
  delete (Client.src_fd cl)
    match po with
    | Some pl =>
        <[Client.src_fd pl :=
            Event.mk (Z.lor EPOLLIN EPOLLOUT)
              (Event.data_ptr (Client.event pl))]> tbl
    | None => tbl
    end.

Definition del_world (efd : Z) (tbl : gmap Z Event.t) (cl : Client.t)
    (po : option Client.t) (es : list Effect) (k : World.t) : World.t :=
  world_append es
    (World.set_rx (delete (Client.src_fd cl) (World.rx k))
       (World.set_epolls
          (delete (Client.src_fd cl) <$>
             <[efd := del_table tbl cl po]> (World.epolls k))
          (World.set_open_fds (World.open_fds k ∖ {[Client.src_fd cl]})
             k))).

(** The two calls of [_worker_client_del] that can fail: the modification
    of the peer's registration and the deregistration of the departing
    record. *)
Definition peer_mod_fails (w : Worker.t) (k : World.t) (cl : Client.t)
  : Prop :=
  ∃ p pl,
    Client.peer cl = Some p ∧ slot w p = Some pl
    ∧ epoll_ctl_table k (Worker.event_fd w) EPOLL_CTL_MOD (Client.src_fd pl)
        (Event.mk (Z.lor EPOLLIN EPOLLOUT)
           (Event.data_ptr (Client.event pl)))
      = None.

Definition self_del_fails (w : Worker.t) (k : World.t) (cl : Client.t)
  : Prop :=
  epoll_ctl_table k (Worker.event_fd w) EPOLL_CTL_DEL (Client.src_fd cl)
    (Client.event cl)
  = None.

(** ** Adding a client *)

(** The record as [_worker_client_add] leaves it when the descriptor was
    registered; [raw] is what the slot held before. *)
Definition added_client (a : Addr) (src_fd trg_fd state : Z)
    (peer : option Addr) (raw : Client.t) : Client.t :=
  Client.mk _CLIENT_TYPE_HTTP state src_fd trg_fd
    (Event.mk EPOLLIN (Some a)) peer (Client.request raw)
    (Url.mk None None) 0 0 (Client.buffer raw).

(** The effects of [_worker_client_add] when [EPOLL_CTL_ADD] fails and
    when it succeeds. *)
Definition add_failed_trace (efd : Z) (a : Addr) (src_fd : Z)
  : list Effect :=
  [EMempoolAlloc (Some a); EStore a F_event; EStore a F_event;
   ELoad a F_event;
   EEpollCtl efd EPOLL_CTL_ADD src_fd (Event.mk EPOLLIN (Some a)) (-1);
   EMempoolFree a].

Definition add_ok_trace (efd : Z) (a : Addr) (src_fd : Z) : list Effect :=
  [EMempoolAlloc (Some a); EStore a F_event; EStore a F_event;
   ELoad a F_event;
   EEpollCtl efd EPOLL_CTL_ADD src_fd (Event.mk EPOLLIN (Some a)) 0;
   EStore a F_type; EStore a F_state; EStore a F_src_fd; EStore a F_trg_fd;
   EStore a F_url; EStore a F_url; EStore a F_sent; EStore a F_recvd;
   EStore a F_peer].

(** ** The accept handler and round-robin assignment *)

(** The world after [accept] returned the descriptor [fd]. *)
Definition accepted_world (fd : Z) (q : list Z) (k : World.t) : World.t :=
  World.log (EAccept fd)
    (World.set_open_fds ({[fd]} ∪ World.open_fds k)
       (World.set_accept_queue q k)).

(** The part of [_server_event_handle_listener] that follows a successful
    [accept] (lines 624-632), with [curr] the value read from
    [s->workers_curr]. *)
Definition listener_assign (fd curr : Z) : M Server.t unit :=
  r <- on_worker curr
         (_worker_client_add fd (-1) _CLIENT_STATE_HEADER None) ;;
  if r <? 0 then sys_close fd
  else
    len <- server_get Server.workers_len ;;
    if len =? 0 then (fun s => Fault s)
    else server_set_workers_curr (wrap_unsigned (curr + 1) mod len).

(** [s->workers[i]], read and replaced. *)
Definition worker_at (s : Server.t) (i : Z) : option Worker.t :=
  Server.workers s !! Z.to_nat i.

Definition put_worker (i : Z) (w : Worker.t) (s : Server.t) : Server.t :=
  Server.set_workers (<[Z.to_nat i := w]> (Server.workers s)) s.

(** The number of allocated client records of worker [j]. *)
Definition connections (s : Server.t) (j : Z) : Z :=
  match worker_at s j with
  | Some w => Z.of_nat (size (Mempool.live (Worker.clients w)))
  | None => 0
  end.

(** The server as [_server_create_workers] leaves it and as the accept
    handler keeps it: [workers_len] workers, the counter in range. *)
Record server_healthy (s : Server.t) : Prop := {
  healthy_len : 0 < Server.workers_len s < UINT_MODULUS;
  healthy_curr : 0 ≤ Server.workers_curr s < Server.workers_len s;
  healthy_workers :
    Z.of_nat (length (Server.workers s)) = Server.workers_len s
}.

(** [n] consecutive calls of the accept handler in each of which [accept]
    returned a connection and the add-client call returned 0. *)
Inductive accepted_run
  : nat → Server.t * World.t → Server.t * World.t → Prop :=
| accepted_run_nil st : accepted_run 0 st st
| accepted_run_cons n s k fd q st1 st2 st3 :
    World.accept_queue k = fd :: q → 0 ≤ fd →
    on_worker (Server.workers_curr s)
      (_worker_client_add fd (-1) _CLIENT_STATE_HEADER None)
      (s, accepted_world fd q k) = Ok 0 st1 →
    _server_event_handle_listener (s, k) = Ok tt st2 →
    accepted_run n st2 st3 →
    accepted_run (S n) (s, k) st3.

(** The number of connections worker [j] receives out of [n] consecutive
    assignments that start with the counter at [c]: the counter advances
    by one modulo [W] after each. *)
Fixpoint round_robin_hits (W c : Z) (n : nat) (j : Z) : Z :=
  match n with
  | O => 0
  | S n' =>
      (if c =? j then 1 else 0) + round_robin_hits W ((c + 1) mod W) n' j
  end.

Definition floor_div (n w : Z) : Z := n / w.

Definition ceil_div (n w : Z) : Z := (n + w - 1) / w.

(** ** Start-up *)



(** [i; i + 1; ...], [n] of them. *)
Fixpoint indices (i : Z) (n : nat) : list Z :=
  match n with
  | O => []
  | S n' => i :: indices (i + 1) n'
  end.

(** * Example states *)

(** Example: a worker with one established tunnel pair.  Record 1 owns
    descriptor 10, record 2 owns descriptor 11; the worker's epoll
    descriptor is 3. *)
Definition ex_client (fd : Z) (self peer : Addr) (st : Z) (buf : string)
  : Client.t :=
  Client.mk _CLIENT_TYPE_HTTPS st fd (-1) (Event.mk EPOLLIN (Some self))
    (Some peer) (HttpRequest.mk "CONNECT" "example.com:443" EmptyString)
    (Url.mk (Some "example.com"%string) (Some "443"%string)) 0 0 buf.

Arguments ex_client fd%_Z (self peer)%_positive st%_Z buf%_string.

Definition ex_pair_worker : Worker.t :=
  Worker.mk 0 1 3
    (Mempool.mk
       (<[1%positive := ex_client 10 1 2 _CLIENT_STATE_FORWARD_ALL "ping"]>
          (<[2%positive := ex_client 11 2 1 _CLIENT_STATE_FORWARD_ALL "pong"]>
             ∅))
       {[1%positive; 2%positive]} 8).

Definition ex_pair_world : World.t :=
  World.mk {[3; 10; 11]}
    {[3 := <[10 := Event.mk EPOLLIN (Some 1%positive)]>
             (<[11 := Event.mk EPOLLIN (Some 2%positive)]> ∅)]}
    (<[10 := EmptyString]> (<[11 := EmptyString]> ∅))
    (<[10 := "hello"%string]> (<[11 := EmptyString]> ∅))
    [] 16 [].

Definition ex_unregistered_world : World.t :=
  World.mk {[3; 10; 11]}
    {[3 := <[11 := Event.mk EPOLLIN (Some 2%positive)]> ∅]}
    ∅ ∅ [] 16 [].

(** Example: a server with two idle workers (epoll descriptors 6 and 7),
    listening on descriptor 4. *)
Definition ex_worker (i efd : Z) (max : nat) : Worker.t :=
  Worker.mk i 1 efd (Mempool.mk ∅ ∅ max).

Definition ex_server (max : nat) : Server.t :=
  Server.mk 1 4 5 0 2 [ex_worker 0 6 max; ex_worker 1 7 max].

Definition ex_server_world (q : list Z) (watches : nat) : World.t :=
  World.mk {[4; 5; 6; 7]} (<[6 := ∅]> (<[7 := ∅]> ∅)) ∅ ∅ q watches [].

Definition ex_run_final : Server.t * World.t :=
  outcome_state
    (_server_event_handle_listener
       (outcome_state
          (_server_event_handle_listener
             (outcome_state
                (_server_event_handle_listener
                   (ex_server 8, ex_server_world [20; 21; 22] 16)))))).

(** Example environments: [n] processors, every call succeeds; the flag of
    a worker reads as [alive]. *)
Definition ex_env (n : Z) (alive : nat → Z → Z) : Env.t :=
  Env.mk n true (fun i => 6 + i) (fun _ => 0) (fun _ => true) 8 alive
    (fun _ => true).

Definition ex_idle_server : Server.t := Server.mk 0 4 5 0 0 [].

(** The request of the first scenario of the specification. *)
Definition ex_connect_request : string :=
  "CONNECT example.com:443 HTTP/1.1" ++ CRLF
  ++ "Host: example.com" ++ CRLF ++ CRLF.

(** Example: a worker with one fresh inbound record in state HEADER whose
    buffer holds that request. *)
Definition ex_header_client : Client.t :=
  Client.mk _CLIENT_TYPE_HTTP _CLIENT_STATE_HEADER 10 (-1)
    (Event.mk EPOLLIN (Some 1%positive)) None
    (HttpRequest.mk EmptyString EmptyString EmptyString)
    (Url.mk None None) 0 0 ex_connect_request.

Definition ex_header_worker : Worker.t :=
  Worker.mk 0 1 3
    (Mempool.mk (<[1%positive := ex_header_client]> ∅) {[1%positive]} 8).

Definition ex_header_world : World.t :=
  World.mk {[3; 10]}
    {[3 := <[10 := Event.mk EPOLLIN (Some 1%positive)]> ∅]}
    (<[10 := EmptyString]> ∅) (<[10 := EmptyString]> ∅) [] 16 [].

(** * Further parts of the engine *)

(** ** Ownership of the interest list *)

(** Every entry of the worker's interest list belongs to an allocated
    record: its cookie is the address of an allocated record whose
    descriptor is the registered one.  Together with [worker_wf] this says
    that a record is reachable from the multiplexer exactly when it is
    allocated. *)
Definition table_owned (w : Worker.t) (k : World.t) : Prop :=
  ∀ tbl fd ev,
    World.epolls k !! Worker.event_fd w = Some tbl → tbl !! fd = Some ev →
    ∃ a c, Event.data_ptr ev = Some a ∧ is_live w a
           ∧ slot w a = Some c ∧ Client.src_fd c = fd.

Definition worker_inv (w : Worker.t) (k : World.t) : Prop :=
  worker_wf w k ∧ table_owned w k.

(** The descriptor [fd] belongs to an allocated record of the worker. *)
Definition owns_fd (w : Worker.t) (fd : Z) : Prop :=
  ∃ a c, is_live w a ∧ slot w a = Some c ∧ Client.src_fd c = fd.

(** [_worker_client_add] can register its descriptor: the slab has room and
    [EPOLL_CTL_ADD] with the cookie of the next slot succeeds. *)
Definition add_possible (w : Worker.t) (k : World.t) (src_fd : Z) : Prop :=
  (size (Mempool.live (Worker.clients w))
   < Mempool.max_slots (Worker.clients w))%nat
  ∧ is_Some (epoll_ctl_table k (Worker.event_fd w) EPOLL_CTL_ADD src_fd
               (Event.mk EPOLLIN (Some (next_slot w)))).

(** Example: an idle worker (epoll descriptor 6) and a world in which
    descriptor 20 was just accepted. *)
Definition ex_idle_world : World.t :=
  World.mk {[4; 5; 6; 20]} (<[6 := ∅]> ∅) ∅ ∅ [] 16 [].

(** Example: a worker whose only record carries a state value that is no
    enumerator. *)
Definition ex_unknown_worker : Worker.t :=
  Worker.mk 0 1 3
    (Mempool.mk (<[1%positive := ex_client 10 1 2 9 EmptyString]> ∅)
       {[1%positive]} 8).

(** Every allocated record is in one of the seven states. *)
Definition states_known (w : Worker.t) : Prop :=
  ∀ a c, is_live w a → slot w a = Some c → 0 ≤ Client.state c ≤ 6.

(** ** The worker thread: [_worker_event_loop_thrd] (lines 242-271) *)

(** What one call of [epoll_wait] returns: the descriptors it found ready
    (at most [CFG_EVENT_SIZE] of them, no descriptor twice), [EINTR], or
    another error. *)
Inductive WaitResult :=
| WaitReady (fds : list Z)
| WaitEINTR
| WaitError.

(** One pass of the loop as its environment answers it: whether another
    thread has cleared [is_alive] (as [_worker_destroy] does) before the
    loop condition is evaluated, and the result of the [epoll_wait] that
    follows. *)
Module ThreadStep.
Record t := mk { stop_requested : bool; wait : WaitResult }.
End ThreadStep.

(** [events[i].data.ptr] for the ready descriptors: the cookies that are
    registered with them in the interest list of [efd]. *)
Definition epoll_wait_events (k : World.t) (efd : Z) (fds : list Z)
  : list (option Addr) :=
  match World.epolls k !! efd with
  | Some tbl => omap (λ fd, Event.data_ptr <$> tbl !! fd) fds
  | None => []
  end.

Definition sys_epoll_wait (efd : Z) (fds : list Z)
  : M Worker.t (list (option Addr)) :=
  fun '(w, k) => Ok (epoll_wait_events k efd fds) (w, k).

(** [w->is_alive], stored and loaded. *)
Definition worker_store_is_alive (v : Z) : M Worker.t unit :=
  fun '(w, k) =>
    Ok tt (Worker.mk (Worker.index w) v (Worker.event_fd w)
             (Worker.clients w), k).

Definition worker_load_is_alive : M Worker.t Z :=
  fun '(w, k) => Ok (Worker.is_alive w) (w, k).

(** The [for] loop of line 262; a null cookie is a null pointer handed to
    [_worker_handle_client_state]. *)
Fixpoint dispatch_events (evs : list (option Addr)) : M Worker.t unit :=
  match evs with
  | [] => ret tt
  | Some client :: rest =>
      _worker_handle_client_state client ;;;
      dispatch_events rest
  | None :: rest => fun s => Fault s
  end.

(** The [while] loop of lines 252-264, one pass per entry of the script;
    the result is the value of [ret] when the loop is left, [None] when
    the script ends with the loop still running. *)
Fixpoint worker_event_loop (efd : Z) (script : list ThreadStep.t)
  : M Worker.t (option Z) :=
  match script with
  | [] => ret None
  | st :: rest =>
      (if ThreadStep.stop_requested st then worker_store_is_alive 0
       else ret tt) ;;;
      alive <- worker_load_is_alive ;;
      if alive =? 0 then ret (Some 0)
      else
        match ThreadStep.wait st with
        | WaitEINTR => ret (Some 0)
        | WaitError => ret (Some (-1))
        | WaitReady fds =>
            evs <- sys_epoll_wait efd fds ;;
            dispatch_events evs ;;;
            worker_event_loop efd rest
        end
  end.

Definition _worker_event_loop_thrd (script : list ThreadStep.t)
  : M Worker.t (option Z) :=
  efd <- worker_event_fd ;;
  worker_store_is_alive 1 ;;;
  r <- worker_event_loop efd script ;;
  match r with
  | Some v => worker_store_is_alive 0 ;;; ret (Some v)
  | None => ret None
  end.

(** The descriptors owned by the records [l], as the worker has them. *)
Definition owned_fds (w : Worker.t) (l : list Addr) : list Z :=
  omap (λ a, Client.src_fd <$> slot w a) l.

(** The records behind the ready descriptors. *)
Definition ready_clients (k : World.t) (efd : Z) (fds : list Z)
  : list Addr :=
  match World.epolls k !! efd with
  | Some tbl => omap (λ fd, tbl !! fd ≫= Event.data_ptr) fds
  | None => []
  end.

(** The script of a thread whose [epoll_wait] calls report no descriptor
    twice. *)
Definition script_ok (script : list ThreadStep.t) : Prop :=
  ∀ st fds, st ∈ script → ThreadStep.wait st = WaitReady fds → NoDup fds.

(** The pass serves a batch: the flag is found set and [epoll_wait]
    returns, with events or without. *)
Definition pass_serves (st : ThreadStep.t) : bool :=
  negb (ThreadStep.stop_requested st)
  && match ThreadStep.wait st with WaitReady _ => true | _ => false end.

(** ** The server together with its workers *)

(** The kernel hands out descriptors that are not open: no pending
    connection of the accept queue carries a descriptor that is open or
    that a later entry carries too.  A negative entry is a failing
    [accept]. *)
Fixpoint accept_fresh (open : gset Z) (q : list Z) : Prop :=
  match q with
  | [] => True
  | fd :: q' => (0 ≤ fd → (fd ∉ open) ∧ (fd ∉ q')) ∧ accept_fresh open q'
  end.

(** The server between two events: the counter and the array are as
    [server_healthy] says; every worker satisfies the worker invariants;
    the multiplexers are open and no two workers share one; no descriptor
    belongs to records of two workers, and no record owns a multiplexer. *)
Record server_inv (s : Server.t) (k : World.t) : Prop := {
  sinv_healthy : server_healthy s;
  sinv_workers : ∀ i w, Server.workers s !! i = Some w → worker_inv w k;
  sinv_event_fd : ∀ i j wi wj,
    Server.workers s !! i = Some wi → Server.workers s !! j = Some wj →
    i ≠ j → Worker.event_fd wi ≠ Worker.event_fd wj;
  sinv_event_open : ∀ i w,
    Server.workers s !! i = Some w → Worker.event_fd w ∈ World.open_fds k;
  sinv_owned : ∀ i j wi wj fd,
    Server.workers s !! i = Some wi → Server.workers s !! j = Some wj →
    i ≠ j → owns_fd wi fd → ¬ owns_fd wj fd;
  sinv_event_owned : ∀ i j wi wj,
    Server.workers s !! i = Some wi → Server.workers s !! j = Some wj →
    ¬ owns_fd wi (Worker.event_fd wj)
}.

(** ** The server loop: [_server_event_loop] and
    [_server_event_handle_signal] (lines 566-612 and 636-658) *)

Definition SIGHUP : Z := 1.
Definition SIGINT : Z := 2.
Definition SIGQUIT : Z := 3.

Definition POLLIN : Z := 1.
Definition POLLERR : Z := 8.
Definition POLLHUP : Z := 16.

(** [s->is_alive = v]. *)
Definition server_set_is_alive (v : Z) : M Server.t unit :=
  fun '(s, k) =>
    Ok tt (Server.mk v (Server.listen_fd s) (Server.signal_fd s)
             (Server.workers_curr s) (Server.workers_len s)
             (Server.workers s), k).

(** The signal handler.  [rd] is what the [read] of the signal descriptor
    delivered: nothing when it returned 0 or less, else the [ssi_signo] of
    the record it filled in. *)
Definition _server_event_handle_signal (rd : option Z) : M Server.t unit :=
  match rd with
  | None => ret tt
  | Some signo =>
      if signo =? SIGHUP then ret tt
      else if (signo =? SIGINT) || (signo =? SIGQUIT) then
        server_set_is_alive 0
      else abort
  end.

(** What one call of [poll] on the two descriptors returns: the [revents]
    of the listening and of the signal descriptor, [EINTR], or another
    error. *)
Inductive PollResult :=
| PollReady (rv_listen rv_signal : Z)
| PollEINTR
| PollError.

(** One pass of the server loop as its environment answers it: the result
    of [poll] and what a [read] of the signal descriptor delivers. *)
Module PollStep.
Record t := mk { poll : PollResult; signal_read : option Z }.
End PollStep.

(** [rv & (POLLERR | POLLHUP)] and [rv & POLLIN] as conditions. *)
Definition revents_failed (rv : Z) : bool :=
  negb (Z.land rv (Z.lor POLLERR POLLHUP) =? 0).

Definition revents_in (rv : Z) : bool :=
  negb (Z.land rv POLLIN =? 0).

(** The [while] loop: [Some ret] when the loop was left, through its
    condition or [break] with 0, through [goto out0] with -1; [None] when
    the script is used up and the loop still runs. *)
Fixpoint server_event_loop (script : list PollStep.t)
  : M Server.t (option Z) :=
  alive <- server_get Server.is_alive ;;
  if alive =? 0 then ret (Some 0)
  else
    match script with
    | [] => ret None
    | st :: rest =>
        match PollStep.poll st with
        | PollEINTR => ret (Some 0)
        | PollError => ret (Some (-1))
        | PollReady rvl rvs =>
            if revents_failed rvl then ret (Some (-1))
            else
              (if revents_in rvl then _server_event_handle_listener
               else ret tt) ;;;
              if revents_failed rvs then ret (Some (-1))
              else
                (if revents_in rvs
                 then _server_event_handle_signal (PollStep.signal_read st)
                 else ret tt) ;;;
                server_event_loop rest
        end
    end.

Definition _server_event_loop (script : list PollStep.t)
  : M Server.t (option Z) :=
  server_set_is_alive 1 ;;;
  r <- server_event_loop script ;;
  match r with
  | Some v => server_set_is_alive 0 ;;; ret (Some v)
  | None => ret None
  end.

(** The pass ends the loop through [goto out0]. *)
Definition pass_failed (st : PollStep.t) : bool :=
  match PollStep.poll st with
  | PollError => true
  | PollEINTR => false
  | PollReady rvl rvs => revents_failed rvl || revents_failed rvs
  end.

(** Only the three signals of the mask of [_server_open_signal_fd] are
    delivered through the signal descriptor. *)
Definition signals_masked (script : list PollStep.t) : Prop :=
  ∀ st signo, st ∈ script → PollStep.signal_read st = Some signo →
              signo = SIGHUP ∨ signo = SIGINT ∨ signo = SIGQUIT.

(** ** Shutdown of a worker: [_worker_destroy] (lines 230-239) *)

(** [thrd_join]: the caller waits for the worker thread.  The thread
    finishes the pass it is in, [pending] being the ready descriptors it
    still has to serve, then finds [is_alive] cleared and leaves its loop,
    clearing [is_alive] once more on its way out (line 269). *)
Definition thrd_join (pending : list Z) : M Worker.t unit :=
  efd <- worker_event_fd ;;
  evs <- sys_epoll_wait efd pending ;;
  dispatch_events evs ;;;
  worker_store_is_alive 0.

(** [close] of an epoll descriptor: as [close], and the interest list goes
    with its descriptor. *)
Definition sys_close_epoll {X} (efd : Z) : M X unit :=
  sys_close efd ;;;
  fun '(x, k) => Ok tt (x, World.set_epolls (delete efd (World.epolls k)) k).

(** The callback of [mempool_deinit], called on the records [l] one after
    the other. *)
Fixpoint mempool_drain (cb : Addr → M Worker.t unit) (l : list Addr)
  : M Worker.t unit :=
  match l with
  | [] => ret tt
  | a :: rest => cb a ;;; mempool_drain cb rest
  end.

(** Modelled from the spec: [mempool_deinit] is implemented in
    [mempool.c], which is not part of the sources.  The specification
    gives its interface: it invokes the callback for every still-allocated
    record at teardown, and the slab is gone afterwards.  The order of the
    records is that of [elements]; a null callback is [None]. *)
Definition mempool_deinit (cb : option (Addr → M Worker.t unit))
  : M Worker.t unit :=
  fun '(w, k) =>
    ((match cb with
      | Some f => mempool_drain f (elements (Mempool.live (Worker.clients w)))
      | None => ret tt
      end) ;;;
     fun '(w', k') =>
       Ok tt (Worker.set_clients
                (Mempool.mk ∅ ∅ (Mempool.max_slots (Worker.clients w'))) w',
              k')) (w, k).

Definition _worker_destroy (pending : list Z) : M Worker.t unit :=
  worker_store_is_alive 0 ;;;
  thrd_join pending ;;;
  efd <- worker_event_fd ;;
  sys_close_epoll efd ;;;
  mempool_deinit (Some _worker_on_destroy_active_client).

(** ** Shutdown of the server: [_server_destroy_workers] (lines 555-563) *)

(** The [for] loop of lines 557-558: [n] is the number of iterations left,
    [pending i] what the thread of worker [i] still has to serve when it is
    joined. *)
Fixpoint server_destroy_loop (n : nat) (i : Z) (pending : Z → list Z)
  : M Server.t unit :=
  match n with
  | O => ret tt
  | S n' =>
      on_worker i (_worker_destroy (pending i)) ;;;
      server_destroy_loop n' (wrap_unsigned (i + 1)) pending
  end.

(** [free(s->workers); s->workers = NULL]. *)
Definition server_free_workers : M Server.t unit :=
  fun '(s, k) => Ok tt (Server.set_workers [] s, k).

Definition _server_destroy_workers (pending : Z → list Z)
  : M Server.t unit :=
  len <- server_get Server.workers_len ;;
  server_destroy_loop (Z.to_nat len) 0 pending ;;;
  server_free_workers.

(** What the work of the worker with multiplexer [efd] leaves of the world
    of the others: no descriptor is opened, no other multiplexer appears or
    disappears, and an entry of another interest list is kept unless its
    descriptor has been closed. *)
Record world_frame (efd : Z) (k k' : World.t) : Prop := {
  frame_open : ∀ fd, fd ∈ World.open_fds k' → fd ∈ World.open_fds k;
  frame_none : ∀ e,
    e ≠ efd → World.epolls k !! e = None → World.epolls k' !! e = None;
  frame_some : ∀ e tbl,
    e ≠ efd → World.epolls k !! e = Some tbl →
    ∃ tbl', World.epolls k' !! e = Some tbl'
            ∧ ∀ fd, tbl' !! fd = tbl !! fd
                    ∨ (tbl' !! fd = None ∧ fd ∉ World.open_fds k')
}.

(** ** Names for the log: [_client_state_str] and [_client_type_str]
    (lines 165-190) *)

Definition _client_state_str (state : Z) : string :=
  if state =? _CLIENT_STATE_HEADER then "header"
  else if state =? _CLIENT_STATE_RESOLVER then "resolver"
  else if state =? _CLIENT_STATE_CONNECT then "connect"
  else if state =? _CLIENT_STATE_RESPONSE then "response"
  else if state =? _CLIENT_STATE_FORWARD_HEADER then "forward header"
  else if state =? _CLIENT_STATE_FORWARD_ALL then "forward all"
  else "unknown".

Definition _client_type_str (type : Z) : string :=
  if type =? _CLIENT_TYPE_HTTP then "http"
  else if type =? _CLIENT_TYPE_HTTPS then "https"
  else "unknown".

(** ** Opening the descriptors of the server: [_server_open_signal_fd] and
    [_server_open_listen_fd] (lines 440-502) *)

(** The answers of the kernel to the calls of the two functions: the
    return values of [sigprocmask], [signalfd] and [socket], and whether
    [setsockopt], [bind] and [listen] succeed. *)
Module OpenEnv.
Record t := mk {
  sigprocmask : Z;
  signalfd : Z;
  socket : Z;
  setsockopt_ok : bool;
  bind_ok : bool;
  listen_ok : bool
}.
End OpenEnv.

(** [socket] and [signalfd]: a descriptor that is returned is open. *)
Definition sys_open_fd {X} (fd : Z) : M X Z :=
  fun '(x, k) =>
    if fd <? 0 then Ok fd (x, k)
    else Ok fd (x, World.set_open_fds ({[fd]} ∪ World.open_fds k) k).

Definition server_set_signal_fd (v : Z) : M Server.t unit :=
  fun '(s, k) =>
    Ok tt (Server.mk (Server.is_alive s) (Server.listen_fd s) v
             (Server.workers_curr s) (Server.workers_len s)
             (Server.workers s), k).

Definition server_set_listen_fd (v : Z) : M Server.t unit :=
  fun '(s, k) =>
    Ok tt (Server.mk (Server.is_alive s) v (Server.signal_fd s)
             (Server.workers_curr s) (Server.workers_len s)
             (Server.workers s), k).

Definition _server_open_signal_fd (env : OpenEnv.t) : M Server.t Z :=
  if OpenEnv.sigprocmask env <? 0 then ret (-1)
  else
    fd <- sys_open_fd (OpenEnv.signalfd env) ;;
    if fd <? 0 then ret (-1)
    else server_set_signal_fd fd ;;; ret 0.

Definition _server_open_listen_fd (env : OpenEnv.t) : M Server.t Z :=
  fd <- sys_open_fd (OpenEnv.socket env) ;;
  if fd <? 0 then ret (-1)
  else if negb (OpenEnv.setsockopt_ok env) then sys_close fd ;;; ret (-1)
  else if negb (OpenEnv.bind_ok env) then sys_close fd ;;; ret (-1)
  else if negb (OpenEnv.listen_ok env) then sys_close fd ;;; ret (-1)
  else server_set_listen_fd fd ;;; ret 0.

(** * Tactics *)

Ltac proj_simpl :=
  cbn [World.open_fds World.epolls World.tx World.rx World.accept_queue
       World.max_user_watches World.trace
       Worker.index Worker.is_alive Worker.event_fd Worker.clients
       Mempool.slots Mempool.live Mempool.max_slots
       Server.is_alive Server.listen_fd Server.signal_fd
       Server.workers_curr Server.workers_len Server.workers].

(** Call-by-value unfolding of the setters, so that a chain of updates of
    one world collapses to a single record. *)
Ltac world_norm :=
  cbv [world_append World.log World.set_epolls World.set_open_fds
       World.set_rx World.set_accept_queue
       World.open_fds World.epolls World.tx World.rx World.accept_queue
       World.max_user_watches World.trace].

Ltac world_eq := world_norm; rewrite <- ?app_assoc; reflexivity.

(** One layer of setters of the world, unfolded. *)
Ltac world_step :=
  cbn [World.log World.set_epolls World.set_open_fds World.set_rx
       World.set_accept_queue
       World.open_fds World.epolls World.tx World.rx World.accept_queue].

(** The goals of a server loop that is left, or whose script is used up,
    in the state at hand. *)
Ltac loop_exit Hinv Hfresh :=
  split; [reflexivity|]; split; [exact Hinv|]; split; [exact Hfresh|];
  split; [reflexivity|]; split; [reflexivity|]; split; [reflexivity|];
  split; [reflexivity|]; split; [auto|]; split.

(** * Lemmas and theorems *)

(** ** Stepping through the monad and its primitives *)

Lemma bind_Ok {X A B} (m : M X A) (f : A → M X B) s a s' :
  m s = Ok a s' → bind m f s = f a s'.
Proof. unfold bind. intros ->. reflexivity. Qed.

Lemma Ok_eq {X A} (a : A) (x x' : X) (k k' : World.t) :
  x = x' → k = k' → Ok a (x, k) = Ok a (x', k').
Proof. by intros -> ->. Qed.

Lemma bind_Aborted {X A B} (m : M X A) (f : A → M X B) s s' :
  m s = Aborted s' → bind m f s = Aborted s'.
Proof. unfold bind. intros ->. reflexivity. Qed.

Lemma load_Ok {T} a f (proj : Client.t → T) w k c :
  slot w a = Some c →
  load a f proj (w, k) = Ok (proj c) (w, World.log (ELoad a f) k).
Proof. unfold load, slot. intros ->. reflexivity. Qed.

Lemma store_Ok a f upd w k c :
  slot w a = Some c →
  store a f upd (w, k)
  = Ok tt (set_slot a (upd c) w, World.log (EStore a f) k).
Proof. unfold store, slot. intros ->. reflexivity. Qed.

Lemma slot_set_slot_eq a c w : slot (set_slot a c w) a = Some c.
Proof. unfold slot, set_slot. simpl. apply lookup_insert_eq. Qed.

Lemma slot_set_slot_ne a b c w : a ≠ b → slot (set_slot a c w) b = slot w b.
Proof. unfold slot, set_slot. simpl. apply lookup_insert_ne. Qed.

Lemma set_slot_set_slot a c c' w :
  set_slot a c' (set_slot a c w) = set_slot a c' w.
Proof. unfold set_slot. simpl. by rewrite insert_insert_eq. Qed.

Lemma slot_free_slot a b w : slot (free_slot a w) b = slot w b.
Proof. reflexivity. Qed.

Lemma epoll_ctl_Ok {X} (x : X) k efd op fd ev tbl :
  epoll_ctl_table k efd op fd ev = Some tbl →
  epoll_ctl efd op fd ev (x, k)
  = Ok 0 (x, World.log (EEpollCtl efd op fd ev 0)
               (World.set_epolls (<[efd := tbl]> (World.epolls k)) k)).
Proof. unfold epoll_ctl. intros ->. reflexivity. Qed.

Lemma epoll_ctl_fail {X} (x : X) k efd op fd ev :
  epoll_ctl_table k efd op fd ev = None →
  epoll_ctl efd op fd ev (x, k)
  = Ok (-1) (x, World.log (EEpollCtl efd op fd ev (-1)) k).
Proof. unfold epoll_ctl. intros ->. reflexivity. Qed.

Lemma epoll_ctl_table_log e k efd op fd ev :
  epoll_ctl_table (World.log e k) efd op fd ev
  = epoll_ctl_table k efd op fd ev.
Proof. reflexivity. Qed.

Lemma epoll_ctl_table_mod k efd fd ev tbl ev0 :
  World.epolls k !! efd = Some tbl →
  fd ∈ World.open_fds k →
  tbl !! fd = Some ev0 →
  epoll_ctl_table k efd EPOLL_CTL_MOD fd ev = Some (<[fd := ev]> tbl).
Proof.
  intros He Ho Ht. unfold epoll_ctl_table. rewrite He.
  rewrite bool_decide_eq_true_2 by done. simpl. by rewrite Ht.
Qed.

Lemma epoll_ctl_table_del k efd fd ev tbl ev0 :
  World.epolls k !! efd = Some tbl →
  fd ∈ World.open_fds k →
  tbl !! fd = Some ev0 →
  epoll_ctl_table k efd EPOLL_CTL_DEL fd ev = Some (delete fd tbl).
Proof.
  intros He Ho Ht. unfold epoll_ctl_table. rewrite He.
  rewrite bool_decide_eq_true_2 by done. simpl. by rewrite Ht.
Qed.

(** ** [_worker_client_del] in a well-formed worker *)

Lemma _worker_client_del_peer_Ok w k p pl tbl ev0 :
  slot w p = Some pl →
  World.epolls k !! Worker.event_fd w = Some tbl →
  Client.src_fd pl ∈ World.open_fds k →
  tbl !! Client.src_fd pl = Some ev0 →
  _worker_client_del_peer p (w, k)
  = Ok tt
      (set_slot p (unlinked pl) w,
       world_append (del_peer_trace (Worker.event_fd w) p pl)
         (World.set_epolls
            (<[Worker.event_fd w :=
                 <[Client.src_fd pl :=
                     Event.mk (Z.lor EPOLLIN EPOLLOUT)
                       (Event.data_ptr (Client.event pl))]> tbl]>
               (World.epolls k)) k)).
Proof.
  intros Hp He Ho Ht. unfold _worker_client_del_peer.
  erewrite bind_Ok by (apply store_Ok; eassumption).
  erewrite bind_Ok by reflexivity.
  erewrite bind_Ok by (apply load_Ok, slot_set_slot_eq).
  erewrite bind_Ok by (apply load_Ok, slot_set_slot_eq).
  erewrite bind_Ok.
  2:{ apply epoll_ctl_Ok. rewrite !epoll_ctl_table_log.
      eapply epoll_ctl_table_mod; eassumption. }
  erewrite bind_Ok by reflexivity.
  erewrite bind_Ok by (apply store_Ok, slot_set_slot_eq).
  erewrite store_Ok by apply slot_set_slot_eq.
  rewrite !set_slot_set_slot. unfold world_append, del_peer_trace.
  unfold unlinked, del_peer_trace. apply Ok_eq; [reflexivity | world_eq].
Qed.

Lemma sys_close_Ok {X} (x : X) k fd :
  sys_close fd (x, k)
  = Ok tt (x, World.log (EClose fd)
                (World.set_rx (delete fd (World.rx k))
                   (World.set_epolls (delete fd <$> World.epolls k)
                      (World.set_open_fds (World.open_fds k ∖ {[fd]})
                         k)))).
Proof. reflexivity. Qed.

Lemma _worker_client_del_self_Ok w k a cl tbl ev0 :
  slot w a = Some cl →
  World.epolls k !! Worker.event_fd w = Some tbl →
  Client.src_fd cl ∈ World.open_fds k →
  tbl !! Client.src_fd cl = Some ev0 →
  _worker_client_del_self a (w, k)
  = Ok tt
      (free_slot a w,
       world_append (del_self_trace (Worker.event_fd w) a cl)
         (World.set_rx (delete (Client.src_fd cl) (World.rx k))
            (World.set_epolls
               (delete (Client.src_fd cl) <$>
                  <[Worker.event_fd w := delete (Client.src_fd cl) tbl]>
                    (World.epolls k))
               (World.set_open_fds
                  (World.open_fds k ∖ {[Client.src_fd cl]}) k)))).
Proof.
  intros Ha He Ho Ht. unfold _worker_client_del_self.
  erewrite bind_Ok by reflexivity.
  erewrite bind_Ok by (apply load_Ok; eassumption).
  erewrite bind_Ok by (apply load_Ok; eassumption).
  erewrite bind_Ok.
  2:{ apply epoll_ctl_Ok. rewrite !epoll_ctl_table_log.
      eapply epoll_ctl_table_del; eassumption. }
  erewrite bind_Ok by reflexivity.
  erewrite bind_Ok by (apply load_Ok; eassumption).
  erewrite bind_Ok by apply sys_close_Ok.
  erewrite bind_Ok by reflexivity.
  unfold mempool_free, free_slot, del_self_trace. cbv beta iota zeta.
  apply Ok_eq; [reflexivity | world_eq].
Qed.

Lemma worker_wf_no_dangling w k : worker_wf w k → no_dangling_peer w.
Proof.
  intros Hwf a c b Ha Hc Hb.
  by destruct (wf_peer _ _ Hwf a c b Ha Hc Hb) as (_ & H & _).
Qed.

Lemma wf_fd_inj w k a b ca cb :
  worker_wf w k → is_live w a → is_live w b →
  slot w a = Some ca → slot w b = Some cb →
  Client.src_fd ca = Client.src_fd cb → a = b.
Proof.
  intros Hwf Ha Hb Hca Hcb Hfd.
  destruct (wf_registered _ _ Hwf a ca Ha Hca) as (t1 & e1 & Ht1 & He1 & Hp1).
  destruct (wf_registered _ _ Hwf b cb Hb Hcb) as (t2 & e2 & Ht2 & He2 & Hp2).
  rewrite Hfd in He1. congruence.
Qed.

Lemma _worker_client_del_paired w k a cl p pl tbl :
  worker_wf w k → is_live w a → slot w a = Some cl →
  Client.peer cl = Some p → slot w p = Some pl →
  World.epolls k !! Worker.event_fd w = Some tbl →
  _worker_client_del a (w, k)
  = Ok tt (free_slot a (set_slot p (unlinked pl) w),
           del_world (Worker.event_fd w) tbl cl (Some pl)
             (del_paired_trace (Worker.event_fd w) a cl p pl) k).
Proof.
  intros Hwf Ha Hcl Hpeer Hpl Htbl.
  destruct (wf_peer _ _ Hwf a cl p Ha Hcl Hpeer) as (Hne & Hp & _).
  destruct (wf_registered _ _ Hwf a cl Ha Hcl) as (t1 & e1 & Ht1 & He1 & _).
  destruct (wf_registered _ _ Hwf p pl Hp Hpl) as (t2 & e2 & Ht2 & He2 & _).
  assert (t1 = tbl) as -> by congruence.
  assert (t2 = tbl) as -> by congruence.
  assert (Client.src_fd pl ≠ Client.src_fd cl) as Hfd.
  { intros E. apply Hne. eapply (wf_fd_inj w k p a); eauto. }
  unfold _worker_client_del.
  erewrite bind_Ok by (apply load_Ok; eassumption).
  rewrite Hpeer.
  erewrite bind_Ok.
  2:{ eapply _worker_client_del_peer_Ok; eauto.
      exact (wf_open _ _ Hwf _ _ Hp Hpl). }
  erewrite _worker_client_del_self_Ok.
  - unfold del_world, del_table, del_paired_trace.
    apply Ok_eq; [reflexivity|].
    world_norm. rewrite insert_insert_eq, <- !app_assoc. reflexivity.
  - rewrite slot_set_slot_ne by done. eassumption.
  - apply lookup_insert_eq.
  - exact (wf_open _ _ Hwf _ _ Ha Hcl).
  - rewrite lookup_insert_ne by done. eassumption.
Qed.

Lemma _worker_client_del_single w k a cl tbl :
  worker_wf w k → is_live w a → slot w a = Some cl →
  Client.peer cl = None →
  World.epolls k !! Worker.event_fd w = Some tbl →
  _worker_client_del a (w, k)
  = Ok tt (free_slot a w,
           del_world (Worker.event_fd w) tbl cl None
             (del_single_trace (Worker.event_fd w) a cl) k).
Proof.
  intros Hwf Ha Hcl Hpeer Htbl.
  destruct (wf_registered _ _ Hwf a cl Ha Hcl) as (t1 & e1 & Ht1 & He1 & _).
  assert (t1 = tbl) as -> by congruence.
  unfold _worker_client_del.
  erewrite bind_Ok by (apply load_Ok; eassumption).
  rewrite Hpeer.
  erewrite bind_Ok by reflexivity.
  erewrite _worker_client_del_self_Ok; eauto.
  2: exact (wf_open _ _ Hwf _ _ Ha Hcl).
  - unfold del_world, del_table, del_single_trace.
    apply Ok_eq; [reflexivity|].
    world_norm. rewrite <- !app_assoc. reflexivity.
Qed.

(** Well-formedness survives the deletion. *)

Lemma is_live_free_slot a w b :
  is_live (free_slot a w) b ↔ is_live w b ∧ b ≠ a.
Proof. unfold is_live, free_slot. simpl. set_solver. Qed.

Lemma is_live_set_slot a c w b : is_live (set_slot a c w) b ↔ is_live w b.
Proof. reflexivity. Qed.

Lemma del_world_table efd tbl cl po es k :
  World.epolls (del_world efd tbl cl po es k) !! efd
  = Some (del_table tbl cl po).
Proof.
  unfold del_world. simpl. rewrite lookup_fmap, lookup_insert_eq. simpl.
  unfold del_table. by rewrite delete_delete_eq.
Qed.

Lemma del_world_open efd tbl cl po es k :
  World.open_fds (del_world efd tbl cl po es k)
  = World.open_fds k ∖ {[Client.src_fd cl]}.
Proof. reflexivity. Qed.

Lemma del_world_tx efd tbl cl po es k :
  World.tx (del_world efd tbl cl po es k) = World.tx k.
Proof. reflexivity. Qed.

Lemma del_world_trace efd tbl cl po es k :
  World.trace (del_world efd tbl cl po es k) = World.trace k ++ es.
Proof. reflexivity. Qed.

Lemma worker_wf_del_paired w k a cl p pl tbl es :
  worker_wf w k → is_live w a → slot w a = Some cl →
  Client.peer cl = Some p → slot w p = Some pl →
  World.epolls k !! Worker.event_fd w = Some tbl →
  worker_wf (free_slot a (set_slot p (unlinked pl) w))
    (del_world (Worker.event_fd w) tbl cl (Some pl) es k).
Proof.
  intros Hwf Ha Hcl Hpeer Hpl Htbl.
  destruct (wf_peer _ _ Hwf a cl p Ha Hcl Hpeer) as (Hne & Hp & cp & Hcp & Hpa).
  assert (cp = pl) as -> by (rewrite Hpl in Hcp; congruence).
  assert (∀ b c, is_live w b → slot w b = Some c → b ≠ a →
                 Client.src_fd c ≠ Client.src_fd cl) as Hfda.
  { intros b c Hb Hc Hba E. apply Hba. eapply (wf_fd_inj w k b a); eauto. }
  assert (∀ b c, is_live w b → slot w b = Some c → b ≠ p →
                 Client.src_fd c ≠ Client.src_fd pl) as Hfdp.
  { intros b c Hb Hc Hbp E. apply Hbp. eapply (wf_fd_inj w k b p); eauto. }
  split.
  - intros b [Hb Hba]%is_live_free_slot. rewrite slot_free_slot.
    destruct (decide (p = b)) as [<-|Hpb].
    + rewrite slot_set_slot_eq. eauto.
    + rewrite slot_set_slot_ne by done. by apply (wf_slot _ _ Hwf).
  - intros b c [Hb Hba]%is_live_free_slot. rewrite slot_free_slot.
    destruct (decide (p = b)) as [<-|Hpb].
    + rewrite slot_set_slot_eq. intros [= <-]. simpl.
      by apply (wf_cookie _ _ Hwf p pl).
    + rewrite slot_set_slot_ne by done. by apply (wf_cookie _ _ Hwf).
  - intros b c [Hb Hba]%is_live_free_slot. rewrite slot_free_slot.
    rewrite del_world_open.
    destruct (decide (p = b)) as [<-|Hpb].
    + rewrite slot_set_slot_eq. intros [= <-]. simpl.
      apply elem_of_difference. split.
      * by apply (wf_open _ _ Hwf p pl).
      * rewrite elem_of_singleton. by apply (Hfda p pl).
    + rewrite slot_set_slot_ne by done. intros Hc.
      apply elem_of_difference. split.
      * by apply (wf_open _ _ Hwf b c).
      * rewrite elem_of_singleton. by apply (Hfda b c).
  - intros b c [Hb Hba]%is_live_free_slot. rewrite slot_free_slot.
    simpl Worker.event_fd. rewrite del_world_table. unfold del_table.
    destruct (decide (p = b)) as [<-|Hpb].
    + rewrite slot_set_slot_eq. intros [= <-]. simpl.
      eexists _, _. split; [reflexivity|].
      rewrite lookup_delete_ne by (apply not_eq_sym; by apply (Hfda p pl)).
      rewrite lookup_insert_eq. split; [reflexivity|]. simpl.
      by apply (wf_cookie _ _ Hwf p pl).
    + rewrite slot_set_slot_ne by done. intros Hc.
      destruct (wf_registered _ _ Hwf b c Hb Hc) as (t & e & Ht & He & Hd).
      assert (t = tbl) as -> by congruence.
      eexists _, e. split; [reflexivity|].
      rewrite lookup_delete_ne by (apply not_eq_sym; by apply (Hfda b c)).
      rewrite lookup_insert_ne
        by (apply not_eq_sym; apply (Hfdp b c); auto).
      done.
  - intros b c d [Hb Hba]%is_live_free_slot. rewrite slot_free_slot.
    destruct (decide (p = b)) as [<-|Hpb].
    + rewrite slot_set_slot_eq. intros [= <-]. simpl. done.
    + rewrite slot_set_slot_ne by done. intros Hc Hd.
      destruct (wf_peer _ _ Hwf b c d Hb Hc Hd) as (Hdb & Hdl & cd & Hcd & Hdp).
      assert (d ≠ a) as Hda.
      { intros ->. rewrite Hcl in Hcd. congruence. }
      assert (d ≠ p) as Hdp'.
      { intros ->. rewrite Hpl in Hcd. congruence. }
      split; [done|]. split; [by apply is_live_free_slot|].
      exists cd. rewrite slot_free_slot, slot_set_slot_ne by done. done.
Qed.

Lemma worker_wf_del_single w k a cl tbl es :
  worker_wf w k → is_live w a → slot w a = Some cl →
  Client.peer cl = None →
  World.epolls k !! Worker.event_fd w = Some tbl →
  worker_wf (free_slot a w)
    (del_world (Worker.event_fd w) tbl cl None es k).
Proof.
  intros Hwf Ha Hcl Hpeer Htbl.
  assert (∀ b c, is_live w b → slot w b = Some c → b ≠ a →
                 Client.src_fd c ≠ Client.src_fd cl) as Hfda.
  { intros b c Hb Hc Hba E. apply Hba. eapply (wf_fd_inj w k b a); eauto. }
  split.
  - intros b [Hb Hba]%is_live_free_slot. rewrite slot_free_slot.
    by apply (wf_slot _ _ Hwf).
  - intros b c [Hb Hba]%is_live_free_slot. rewrite slot_free_slot.
    by apply (wf_cookie _ _ Hwf).
  - intros b c [Hb Hba]%is_live_free_slot. rewrite slot_free_slot.
    rewrite del_world_open. intros Hc.
    apply elem_of_difference. split.
    + by apply (wf_open _ _ Hwf b c).
    + rewrite elem_of_singleton. by apply (Hfda b c).
  - intros b c [Hb Hba]%is_live_free_slot. rewrite slot_free_slot.
    simpl Worker.event_fd. rewrite del_world_table. unfold del_table.
    intros Hc.
    destruct (wf_registered _ _ Hwf b c Hb Hc) as (t & e & Ht & He & Hd).
    assert (t = tbl) as -> by congruence.
    eexists _, e. split; [reflexivity|].
    rewrite lookup_delete_ne by (apply not_eq_sym; by apply (Hfda b c)).
    done.
  - intros b c d [Hb Hba]%is_live_free_slot. rewrite slot_free_slot.
    intros Hc Hd.
    destruct (wf_peer _ _ Hwf b c d Hb Hc Hd) as (Hdb & Hdl & cd & Hcd & Hdp).
    assert (d ≠ a) as Hda.
    { intros ->. rewrite Hcl in Hcd. congruence. }
    split; [done|]. split; [by apply is_live_free_slot|].
    exists cd. rewrite slot_free_slot. done.
Qed.

(** The example pair is well formed. *)
Lemma ex_pair_wf : worker_wf ex_pair_worker ex_pair_world.
Proof.
  assert (∀ a, is_live ex_pair_worker a → a = 1%positive ∨ a = 2%positive)
    as Hlive.
  { intros a. unfold is_live, ex_pair_worker. proj_simpl.
    rewrite elem_of_union, !elem_of_singleton. auto. }
  split.
  - intros a [->| ->]%Hlive; vm_compute; eauto.
  - intros a c [->| ->]%Hlive; vm_compute; intros [= <-]; reflexivity.
  - intros a c [->| ->]%Hlive; vm_compute slot; intros [= <-];
      unfold ex_pair_world; proj_simpl;
      rewrite !elem_of_union, !elem_of_singleton; auto.
  - intros a c [->| ->]%Hlive; vm_compute slot; intros [= <-]; simpl;
      eexists _, _; (split; [apply lookup_singleton_eq|]);
      (split; [vm_compute; reflexivity | reflexivity]).
  - intros a c b [->| ->]%Hlive; vm_compute slot; intros [= <-]; simpl;
      intros [= <-]; (split; [done|]);
      (split; [unfold is_live, ex_pair_worker; proj_simpl;
               rewrite elem_of_union, !elem_of_singleton; auto|]);
      eexists; (split; [vm_compute; reflexivity | reflexivity]).
Qed.

(** The full effect of [_worker_client_del] on a record with a peer. *)
Lemma _worker_client_del_unlinks w k a cl p :
  worker_wf w k → is_live w a → slot w a = Some cl →
  Client.peer cl = Some p →
  ∃ pl w' k',
    slot w p = Some pl
    ∧ _worker_client_del a (w, k) = Ok tt (w', k')
    ∧ World.trace k'
      = World.trace k ++
        [ELoad a F_peer;
         EStore p F_event; ELoad p F_src_fd; ELoad p F_event;
         EEpollCtl (Worker.event_fd w) EPOLL_CTL_MOD (Client.src_fd pl)
           (Event.mk (Z.lor EPOLLIN EPOLLOUT) (Some p)) 0;
         EStore p F_state; EStore p F_peer;
         ELoad a F_src_fd; ELoad a F_event;
         EEpollCtl (Worker.event_fd w) EPOLL_CTL_DEL (Client.src_fd cl)
           (Client.event cl) 0;
         ELoad a F_src_fd; EClose (Client.src_fd cl); EUrlFree a;
         EMempoolFree a]
    ∧ slot w' p = Some (unlinked pl)
    ∧ Client.peer (unlinked pl) = None
    ∧ (∃ tbl, World.epolls k' !! Worker.event_fd w' = Some tbl
              ∧ tbl !! Client.src_fd pl
                = Some (Event.mk (Z.lor EPOLLIN EPOLLOUT) (Some p))
              ∧ tbl !! Client.src_fd cl = None)
    ∧ (Client.src_fd cl ∉ World.open_fds k')
    ∧ is_live w' p ∧ ¬ is_live w' a
    ∧ worker_wf w' k' ∧ no_dangling_peer w'
    ∧ World.tx k' = World.tx k.
Proof.
  intros Hwf Ha Hcl Hpeer.
  destruct (wf_peer _ _ Hwf a cl p Ha Hcl Hpeer) as (Hne & Hp & pl & Hpl & Hpa).
  destruct (wf_registered _ _ Hwf a cl Ha Hcl) as (tbl & e1 & Ht & He1 & _).
  assert (Client.src_fd pl ≠ Client.src_fd cl) as Hfd.
  { intros E. apply Hne. eapply (wf_fd_inj w k p a); eauto. }
  pose proof (wf_cookie _ _ Hwf p pl Hp Hpl) as Hck.
  pose proof (worker_wf_del_paired w k a cl p pl tbl
                (del_paired_trace (Worker.event_fd w) a cl p pl)
                Hwf Ha Hcl Hpeer Hpl Ht) as Hwf'.
  eexists pl, _, _. split; [done|].
  split; [by apply _worker_client_del_paired|].
  split.
  { rewrite del_world_trace. unfold del_paired_trace, del_peer_trace,
      del_self_trace. rewrite Hck. reflexivity. }
  split.
  { rewrite slot_free_slot. apply slot_set_slot_eq. }
  split; [reflexivity|].
  split.
  { eexists. simpl Worker.event_fd. rewrite del_world_table.
    split; [reflexivity|]. unfold del_table.
    rewrite lookup_delete_ne, lookup_insert_eq, lookup_delete_eq, Hck by done.
    done. }
  split.
  { rewrite del_world_open, elem_of_difference, elem_of_singleton. tauto. }
  split.
  { by apply is_live_free_slot. }
  split.
  { rewrite is_live_free_slot. tauto. }
  split; [done|]. split; [by eapply worker_wf_no_dangling|]. reflexivity.
Qed.

(** C3.  Deleting a record that has a peer, in a well-formed worker: the
    call returns; its effects are, in this order, the update of the
    partner's event mask and of its registration (EPOLL_CTL_MOD), the
    stores of STOP and of NULL into the partner's [state] and [peer], and
    only then the deregistration (EPOLL_CTL_DEL), the close, [url_free] and
    [mempool_free] of the departing record.  Afterwards the partner is
    allocated with [peer = NULL], registered for EPOLLIN | EPOLLOUT, the
    departing record is released, and no allocated record holds a peer
    pointer to a released slot (the worker is again well formed). *)
Theorem C3_client_del_unlinks_peer_before_free w k a cl p :
  worker_wf w k → is_live w a → slot w a = Some cl →
  Client.peer cl = Some p →
  ∃ pl w' k',
    slot w p = Some pl
    ∧ _worker_client_del a (w, k) = Ok tt (w', k')
    ∧ World.trace k'
      = World.trace k ++
        [ELoad a F_peer;
         EStore p F_event; ELoad p F_src_fd; ELoad p F_event;
         EEpollCtl (Worker.event_fd w) EPOLL_CTL_MOD (Client.src_fd pl)
           (Event.mk (Z.lor EPOLLIN EPOLLOUT) (Some p)) 0;
         EStore p F_state; EStore p F_peer;
         ELoad a F_src_fd; ELoad a F_event;
         EEpollCtl (Worker.event_fd w) EPOLL_CTL_DEL (Client.src_fd cl)
           (Client.event cl) 0;
         ELoad a F_src_fd; EClose (Client.src_fd cl); EUrlFree a;
         EMempoolFree a]
    ∧ slot w' p = Some (unlinked pl)
    ∧ Client.peer (unlinked pl) = None
    ∧ (∃ tbl, World.epolls k' !! Worker.event_fd w' = Some tbl
              ∧ tbl !! Client.src_fd pl
                = Some (Event.mk (Z.lor EPOLLIN EPOLLOUT) (Some p))
              ∧ tbl !! Client.src_fd cl = None)
    ∧ (Client.src_fd cl ∉ World.open_fds k')
    ∧ is_live w' p ∧ ¬ is_live w' a
    ∧ worker_wf w' k' ∧ no_dangling_peer w'.
Proof.
  intros Hwf Ha Hcl Hpeer.
  destruct (_worker_client_del_unlinks w k a cl p Hwf Ha Hcl Hpeer)
    as (pl & w' & k' & H1 & H2 & H3 & H4 & H5 & H6 & H7 & H8 & H9 & H10
        & H11 & _).
  exists pl, w', k'. repeat (split; [assumption|]). assumption.
Qed.

(** The hypotheses hold on the example pair, for its first record. *)
Lemma C3_witness :
  (worker_wf ex_pair_worker ex_pair_world
   ∧ is_live ex_pair_worker 1%positive
   ∧ Client.peer (ex_client 10 1 2 _CLIENT_STATE_FORWARD_ALL "ping")
     = Some 2%positive)
  ∧ ∃ w' k',
      _worker_client_del 1%positive (ex_pair_worker, ex_pair_world)
      = Ok tt (w', k')
      ∧ no_dangling_peer w'.
Proof.
  assert (is_live ex_pair_worker 1%positive) as Hl.
  { unfold is_live, ex_pair_worker. proj_simpl.
    rewrite elem_of_union, !elem_of_singleton. auto. }
  split; [split; [apply ex_pair_wf | split; [exact Hl | reflexivity]]|].
  destruct (C3_client_del_unlinks_peer_before_free
              ex_pair_worker ex_pair_world 1%positive
              (ex_client 10 1 2 _CLIENT_STATE_FORWARD_ALL "ping") 2%positive
              ex_pair_wf Hl eq_refl eq_refl)
    as (pl & w' & k' & _ & Hrun & _ & _ & _ & _ & _ & _ & _ & _ & Hnd).
  exists w', k'. split; [exact Hrun | exact Hnd].
Defined.

(** The example worker with one record in state HEADER is well formed. *)
Lemma ex_header_wf : worker_wf ex_header_worker ex_header_world.
Proof.
  assert (∀ a, is_live ex_header_worker a → a = 1%positive) as Hlive.
  { intros a. unfold is_live, ex_header_worker. proj_simpl.
    by rewrite elem_of_singleton. }
  split.
  - intros a ->%Hlive. vm_compute. eauto.
  - intros a c ->%Hlive. vm_compute slot. intros [= <-]. reflexivity.
  - intros a c ->%Hlive. vm_compute slot. intros [= <-].
    unfold ex_header_world. proj_simpl.
    rewrite !elem_of_union, !elem_of_singleton. auto.
  - intros a c ->%Hlive. vm_compute slot. intros [= <-]. simpl.
    eexists _, _. split; [apply lookup_singleton_eq|].
    split; [vm_compute; reflexivity | reflexivity].
  - intros a c b ->%Hlive. vm_compute slot. intros [= <-]. discriminate.
Qed.

Lemma ex_header_live : is_live ex_header_worker 1%positive.
Proof.
  unfold is_live, ex_header_worker. proj_simpl. by apply elem_of_singleton.
Qed.

(** ** Dispatch *)

Lemma worker_wf_log w k e : worker_wf w k → worker_wf w (World.log e k).
Proof. intros [H1 H2 H3 H4 H5]. split; assumption. Qed.

Lemma client_state_switch_stop st a s :
  0 ≤ st ≤ 6 → client_state_switch st a s = Ok _CLIENT_STATE_STOP s.
Proof.
  intros H.
  assert (st = 0 ∨ st = 1 ∨ st = 2 ∨ st = 3 ∨ st = 4 ∨ st = 5 ∨ st = 6)
    as Hc by lia.
  destruct Hc as [->|[->|[->|[->|[->|[->| ->]]]]]]; reflexivity.
Qed.

Lemma _worker_client_del_live w k a cl :
  worker_wf w k → is_live w a → slot w a = Some cl →
  ∃ w' k' es,
    _worker_client_del a (w, k) = Ok tt (w', k')
    ∧ worker_wf w' k'
    ∧ (∀ b, is_live w' b ↔ is_live w b ∧ b ≠ a)
    ∧ slot w' a = Some cl
    ∧ Worker.event_fd w' = Worker.event_fd w
    ∧ World.tx k' = World.tx k
    ∧ World.open_fds k' = World.open_fds k ∖ {[Client.src_fd cl]}
    ∧ World.trace k' = World.trace k ++ es ++ [EMempoolFree a]
    ∧ forallb (λ e, negb (is_send e)) es = true.
Proof.
  intros Hwf Ha Hcl.
  destruct (wf_registered _ _ Hwf a cl Ha Hcl) as (tbl & e1 & Ht & He1 & _).
  destruct (Client.peer cl) as [p|] eqn:Hpeer.
  - destruct (wf_peer _ _ Hwf a cl p Ha Hcl Hpeer)
      as (Hne & Hp & pl & Hpl & Hpa).
    eexists _, _, _. split; [by eapply _worker_client_del_paired|].
    split; [by eapply worker_wf_del_paired|].
    split; [intros b; rewrite is_live_free_slot; reflexivity|].
    split; [rewrite slot_free_slot, slot_set_slot_ne by done; done|].
    split; [reflexivity|]. split; [reflexivity|]. split; [reflexivity|].
    split.
    + rewrite del_world_trace. f_equal.
      unfold del_paired_trace, del_peer_trace, del_self_trace.
      instantiate (1 := [_; _; _; _; _; _; _; _; _; _; _; _; _]).
      reflexivity.
    + reflexivity.
  - eexists _, _, _. split; [by eapply _worker_client_del_single|].
    split; [by eapply worker_wf_del_single|].
    split; [intros b; apply is_live_free_slot|].
    split; [by rewrite slot_free_slot|].
    split; [reflexivity|]. split; [reflexivity|]. split; [reflexivity|].
    split.
    + rewrite del_world_trace. f_equal.
      unfold del_single_trace, del_self_trace.
      instantiate (1 := [_; _; _; _; _; _; _]).
      reflexivity.
    + reflexivity.
Qed.

(** Dispatch of a readiness event for an allocated record whose state is
    one of the seven enumerators: the record is deleted and then its
    [state] member is stored into. *)
Lemma _worker_handle_client_state_live w k a cl :
  worker_wf w k → is_live w a → slot w a = Some cl →
  0 ≤ Client.state cl ≤ 6 →
  ∃ w' k' es,
    _worker_handle_client_state a (w, k) = Ok tt (w', k')
    ∧ (∀ b, is_live w' b ↔ is_live w b ∧ b ≠ a)
    ∧ World.tx k' = World.tx k
    ∧ World.open_fds k' = World.open_fds k ∖ {[Client.src_fd cl]}
    ∧ World.trace k'
      = World.trace k ++ es ++ [EMempoolFree a; EStore a F_state]
    ∧ forallb (λ e, negb (is_send e)) es = true.
Proof.
  intros Hwf Ha Hcl Hst.
  destruct (_worker_client_del_live w (World.log (ELoad a F_state) k) a cl)
    as (w' & k' & es & Hdel & Hwf' & Hlive & Hslot & Hefd & Htx & Hopen
        & Htr & Hns); auto using worker_wf_log.
  eexists _, _, (ELoad a F_state :: es).
  split.
  { unfold _worker_handle_client_state.
    erewrite bind_Ok by (apply load_Ok; eassumption).
    erewrite bind_Ok by (apply client_state_switch_stop; assumption).
    simpl (_ =? _). cbv iota.
    erewrite bind_Ok by exact Hdel.
    apply store_Ok. exact Hslot. }
  split; [exact Hlive|].
  split; [exact Htx|].
  split; [exact Hopen|].
  split.
  { simpl. rewrite Htr. simpl. rewrite <- !app_assoc. reflexivity. }
  simpl. exact Hns.
Qed.

(** C4.  What the dispatch routine does after the record was released: in
    a well-formed worker, for an allocated record whose state is one of the
    seven enumerators, [_worker_handle_client_state] returns with the
    record released, and the last two effects of the call are the
    [mempool_free] of the record followed by a store into its [state]
    member: the record is written to after its slot went back to the
    mempool. *)
Theorem C4_dispatch_stores_state_after_free w k a cl :
  worker_wf w k → is_live w a → slot w a = Some cl →
  0 ≤ Client.state cl ≤ 6 →
  ∃ w' k' es,
    _worker_handle_client_state a (w, k) = Ok tt (w', k')
    ∧ ¬ is_live w' a
    ∧ World.trace k'
      = World.trace k ++ es ++ [EMempoolFree a; EStore a F_state].
Proof.
  intros Hwf Ha Hcl Hst.
  destruct (_worker_handle_client_state_live w k a cl Hwf Ha Hcl Hst)
    as (w' & k' & es & Hrun & Hlive & _ & _ & Htr & _).
  exists w', k', es. split; [exact Hrun|]. split; [|exact Htr].
  rewrite Hlive. tauto.
Qed.

(** A record as the accept handler creates it, state HEADER, at its first
    readiness event. *)
Lemma C4_witness :
  (worker_wf ex_header_worker ex_header_world
   ∧ is_live ex_header_worker 1%positive
   ∧ slot ex_header_worker 1%positive = Some ex_header_client
   ∧ 0 ≤ Client.state ex_header_client ≤ 6)
  ∧ ∃ w' k' es,
      _worker_handle_client_state 1%positive
        (ex_header_worker, ex_header_world) = Ok tt (w', k')
      ∧ ¬ is_live w' 1%positive
      ∧ World.trace k'
        = World.trace ex_header_world
          ++ es ++ [EMempoolFree 1%positive; EStore 1%positive F_state].
Proof.
  assert (0 ≤ Client.state ex_header_client ≤ 6) as Hs
    by (vm_compute; split; discriminate).
  split.
  { split; [apply ex_header_wf|]. split; [apply ex_header_live|].
    split; [reflexivity | exact Hs]. }
  exact (C4_dispatch_stores_state_after_free
           ex_header_worker ex_header_world 1%positive ex_header_client
           ex_header_wf ex_header_live eq_refl Hs).
Defined.

(** C5 as the code has it.  When one half of a pair is deleted, the
    surviving half stays allocated with state STOP, no peer, and its
    descriptor registered for EPOLLIN | EPOLLOUT; the next readiness event
    dispatched for it releases it and closes its descriptor.  From the
    deletion of the first half to the release of the second nothing is
    sent on any socket: the bytes written to every socket are what they
    were before. *)
Theorem C5_survivor_rescheduled_then_released w k a cl p :
  worker_wf w k → is_live w a → slot w a = Some cl →
  Client.peer cl = Some p →
  ∃ pl w1 k1 w2 k2 es,
    slot w p = Some pl
    ∧ _worker_client_del a (w, k) = Ok tt (w1, k1)
    ∧ is_live w1 p
    ∧ (∃ pl1, slot w1 p = Some pl1
              ∧ Client.state pl1 = _CLIENT_STATE_STOP
              ∧ Client.peer pl1 = None
              ∧ Client.src_fd pl1 = Client.src_fd pl)
    ∧ (∃ tbl, World.epolls k1 !! Worker.event_fd w1 = Some tbl
              ∧ tbl !! Client.src_fd pl
                = Some (Event.mk (Z.lor EPOLLIN EPOLLOUT) (Some p)))
    ∧ _worker_handle_client_state p (w1, k1) = Ok tt (w2, k2)
    ∧ ¬ is_live w2 p
    ∧ (Client.src_fd pl ∉ World.open_fds k2)
    ∧ World.tx k2 = World.tx k
    ∧ World.trace k2 = World.trace k ++ es
    ∧ existsb is_send es = false.
Proof.
  intros Hwf Ha Hcl Hpeer.
  destruct (_worker_client_del_unlinks w k a cl p Hwf Ha Hcl Hpeer)
    as (pl & w1 & k1 & Hpl & Hdel & Htr1 & Hpl1 & _ & Htbl & _ & Hlp & _
        & Hwf1 & _ & Htx1).
  assert (0 ≤ Client.state (unlinked pl) ≤ 6) as Hst
    by (vm_compute; split; discriminate).
  destruct (_worker_handle_client_state_live w1 k1 p (unlinked pl)
              Hwf1 Hlp Hpl1 Hst)
    as (w2 & k2 & es & Hrun & Hlive & Htx & Hopen & Htr2 & Hns).
  eexists pl, w1, k1, w2, k2, _.
  split; [exact Hpl|]. split; [exact Hdel|]. split; [exact Hlp|].
  split; [exists (unlinked pl); auto|].
  split; [destruct Htbl as (tbl & Ht1 & Ht2 & _); by exists tbl|].
  split; [exact Hrun|].
  split; [rewrite Hlive; tauto|].
  split.
  { rewrite Hopen, elem_of_difference, elem_of_singleton. simpl. tauto. }
  split; [congruence|].
  split.
  { rewrite Htr2, Htr1, <- !app_assoc. reflexivity. }
  rewrite !existsb_app. simpl.
  rewrite !orb_false_r.
  clear -Hns. induction es as [|e es IH]; [reflexivity|].
  simpl in *. apply andb_true_iff in Hns as [He Hes].
  rewrite IH by exact Hes. destruct (is_send e); [discriminate | reflexivity].
Qed.

(** The hypotheses hold on the example pair, for its first record. *)
Lemma C5_witness :
  (worker_wf ex_pair_worker ex_pair_world
   ∧ is_live ex_pair_worker 1%positive
   ∧ Client.peer (ex_client 10 1 2 _CLIENT_STATE_FORWARD_ALL "ping")
     = Some 2%positive)
  ∧ ∃ w1 k1 w2 k2,
      _worker_client_del 1%positive (ex_pair_worker, ex_pair_world)
      = Ok tt (w1, k1)
      ∧ _worker_handle_client_state 2%positive (w1, k1) = Ok tt (w2, k2)
      ∧ World.tx k2 = World.tx ex_pair_world.
Proof.
  assert (is_live ex_pair_worker 1%positive) as Hl.
  { unfold is_live, ex_pair_worker. proj_simpl.
    rewrite elem_of_union, !elem_of_singleton. auto. }
  split; [split; [apply ex_pair_wf | split; [exact Hl | reflexivity]]|].
  destruct (C5_survivor_rescheduled_then_released
              ex_pair_worker ex_pair_world 1%positive
              (ex_client 10 1 2 _CLIENT_STATE_FORWARD_ALL "ping") 2%positive
              ex_pair_wf Hl eq_refl eq_refl)
    as (pl & w1 & k1 & w2 & k2 & es & _ & Hdel & _ & _ & _ & Hrun & _ & _
        & Htx & _).
  exists w1, k1, w2, k2. auto.
Defined.

(** C5, counterexample.  On the example pair whose second half holds
    pending bytes in its buffer, the first half is deleted and the second
    is dispatched and released: no send on its descriptor (11) occurs. *)
Lemma C5_no_flush_before_teardown :
  ¬ (∀ w k a cl p pl s1 s2,
       worker_wf w k → is_live w a → slot w a = Some cl →
       Client.peer cl = Some p → slot w p = Some pl →
       Client.buffer pl ≠ EmptyString →
       _worker_client_del a (w, k) = Ok tt s1 →
       _worker_handle_client_state p s1 = Ok tt s2 →
       ∃ bytes, In (ESend (Client.src_fd pl) bytes) (World.trace (snd s2))).
Proof.
  intros H.
  assert (is_live ex_pair_worker 1%positive) as Hl.
  { unfold is_live, ex_pair_worker. proj_simpl.
    rewrite elem_of_union, !elem_of_singleton. auto. }
  pose (s1 := outcome_state
                (_worker_client_del 1%positive
                   (ex_pair_worker, ex_pair_world))).
  pose (s2 := outcome_state (_worker_handle_client_state 2%positive s1)).
  destruct (H ex_pair_worker ex_pair_world 1%positive
              (ex_client 10 1 2 _CLIENT_STATE_FORWARD_ALL "ping") 2%positive
              (ex_client 11 2 1 _CLIENT_STATE_FORWARD_ALL "pong") s1 s2
              ex_pair_wf Hl eq_refl eq_refl eq_refl)
    as (bytes & Hin).
  - discriminate.
  - vm_compute. reflexivity.
  - vm_compute. reflexivity.
  - vm_compute in Hin.
    repeat (destruct Hin as [Hin|Hin]; [discriminate Hin|]).
    exact Hin.
Qed.

(** ** Failure of the multiplexer calls of [_worker_client_del] *)

Lemma epoll_ctl_table_mod_inv k efd fd ev t' :
  epoll_ctl_table k efd EPOLL_CTL_MOD fd ev = Some t' →
  ∃ tbl ev0, World.epolls k !! efd = Some tbl ∧ fd ∈ World.open_fds k
             ∧ tbl !! fd = Some ev0 ∧ t' = <[fd := ev]> tbl.
Proof.
  unfold epoll_ctl_table. destruct (World.epolls k !! efd) as [tbl|]; [|done].
  case_bool_decide; [|done]. cbn [negb].
  change (EPOLL_CTL_MOD =? EPOLL_CTL_ADD) with false.
  change (EPOLL_CTL_MOD =? EPOLL_CTL_MOD) with true. cbv iota.
  destruct (tbl !! fd) as [ev0|] eqn:E; [|done].
  intros [= <-]. eauto 10.
Qed.

Lemma epoll_ctl_table_del_ev k efd fd ev ev' :
  epoll_ctl_table k efd EPOLL_CTL_DEL fd ev
  = epoll_ctl_table k efd EPOLL_CTL_DEL fd ev'.
Proof. reflexivity. Qed.

(** A successful [EPOLL_CTL_MOD] does not change whether a following
    [EPOLL_CTL_DEL] fails. *)
Lemma epoll_ctl_table_del_after_mod k efd fd1 ev1 t1 fd ev :
  epoll_ctl_table k efd EPOLL_CTL_MOD fd1 ev1 = Some t1 →
  epoll_ctl_table k efd EPOLL_CTL_DEL fd ev = None →
  epoll_ctl_table
    (World.set_epolls (<[efd := t1]> (World.epolls k)) k)
    efd EPOLL_CTL_DEL fd ev = None.
Proof.
  intros (tbl & ev0 & He & Ho & Ht & ->)%epoll_ctl_table_mod_inv.
  unfold epoll_ctl_table. rewrite He.
  cbv [World.set_epolls World.epolls World.open_fds].
  rewrite lookup_insert_eq.
  case_bool_decide; [|done]. cbn [negb].
  change (EPOLL_CTL_DEL =? EPOLL_CTL_ADD) with false.
  change (EPOLL_CTL_DEL =? EPOLL_CTL_MOD) with false.
  change (EPOLL_CTL_DEL =? EPOLL_CTL_DEL) with true. cbv iota.
  destruct (tbl !! fd) as [e|] eqn:E; [done|]. intros _.
  rewrite lookup_insert_ne; [by rewrite E|]. congruence.
Qed.

Lemma abort_Aborted {X A} (x : X) k :
  @abort X A (x, k) = Aborted (x, World.log EAbort k).
Proof. reflexivity. Qed.

Lemma last_world_log e k : last (World.trace (World.log e k)) = Some e.
Proof. unfold World.log. proj_simpl. apply last_snoc. Qed.

Lemma _worker_client_del_self_aborts w k a cl :
  slot w a = Some cl → self_del_fails w k cl →
  ∃ k', _worker_client_del_self a (w, k) = Aborted (w, World.log EAbort k')
        ∧ World.open_fds k' = World.open_fds k.
Proof.
  intros Ha Hf. unfold _worker_client_del_self.
  erewrite bind_Ok by reflexivity.
  erewrite bind_Ok by (apply load_Ok; eassumption).
  erewrite bind_Ok by (apply load_Ok; eassumption).
  erewrite bind_Ok by (apply epoll_ctl_fail; exact Hf).
  erewrite bind_Aborted by apply abort_Aborted.
  eexists. split; reflexivity.
Qed.

(** C6.  If the modification of the peer's registration or the
    deregistration of the departing record fails, [_worker_client_del]
    does not return: the process is terminated by [abort()], which is the
    last effect; the record has not been released and no descriptor has
    been closed. *)
Theorem C6_client_del_aborts_on_epoll_failure w k a cl :
  slot w a = Some cl →
  (∀ p, Client.peer cl = Some p → is_Some (slot w p)) →
  peer_mod_fails w k cl ∨ self_del_fails w k cl →
  ∃ w' k',
    _worker_client_del a (w, k) = Aborted (w', k')
    ∧ last (World.trace k') = Some EAbort
    ∧ Mempool.live (Worker.clients w') = Mempool.live (Worker.clients w)
    ∧ World.open_fds k' = World.open_fds k.
Proof.
  intros Ha Hp Hfail. unfold _worker_client_del.
  erewrite bind_Ok by (apply load_Ok; eassumption).
  destruct (Client.peer cl) as [p|] eqn:Hpeer.
  - destruct (Hp p eq_refl) as [pl Hpl].
    set (k0 := World.log (ELoad a F_peer) k).
    set (ev := Event.mk (Z.lor EPOLLIN EPOLLOUT)
                 (Event.data_ptr (Client.event pl))).
    destruct (epoll_ctl_table k (Worker.event_fd w) EPOLL_CTL_MOD
                (Client.src_fd pl) ev) as [t1|] eqn:Hmod.
    + (* the peer block returns, the deregistration fails *)
      assert (self_del_fails w k cl) as Hdel.
      { destruct Hfail as [(p' & pl' & Hpp & Hpl' & Hm)|Hd]; [|exact Hd].
        rewrite Hpeer in Hpp. injection Hpp as <-.
        rewrite Hpl in Hpl'. injection Hpl' as <-.
        fold ev in Hm. congruence. }
      destruct (epoll_ctl_table_mod_inv _ _ _ _ _ Hmod)
        as (tbl & ev0 & He & Ho & Ht & ->).
      erewrite bind_Ok.
      2:{ eapply _worker_client_del_peer_Ok; eauto. }
      assert (∃ cl', slot (set_slot p (unlinked pl) w) a = Some cl'
                     ∧ Client.src_fd cl' = Client.src_fd cl) as (cl' & Hcl' & Hfd).
      { destruct (decide (p = a)) as [->|Hne].
        - rewrite slot_set_slot_eq. eexists. split; [reflexivity|].
          rewrite Ha in Hpl. by injection Hpl as <-.
        - rewrite slot_set_slot_ne by done. eauto. }
      edestruct (_worker_client_del_self_aborts
                   (set_slot p (unlinked pl) w)) as (k' & -> & Hopen).
      { exact Hcl'. }
      { unfold self_del_fails. rewrite Hfd.
        rewrite (epoll_ctl_table_del_ev _ _ _ _ (Client.event cl)).
        apply (epoll_ctl_table_del_after_mod k _ _ ev _ _ _ Hmod Hdel). }
      eexists _, _. split; [reflexivity|].
      split; [apply last_world_log|]. split; [reflexivity|].
      exact Hopen.
    + (* the modification of the peer's registration fails *)
      unfold _worker_client_del_peer.
      erewrite (bind_Aborted (bind _ _)).
      2:{ erewrite bind_Ok by (apply store_Ok; eassumption).
          erewrite bind_Ok by reflexivity.
          erewrite bind_Ok by (apply load_Ok, slot_set_slot_eq).
          erewrite bind_Ok by (apply load_Ok, slot_set_slot_eq).
          erewrite bind_Ok by (apply epoll_ctl_fail; exact Hmod).
          erewrite bind_Aborted by apply abort_Aborted.
          reflexivity. }
      eexists _, _. split; [reflexivity|].
      split; [apply last_world_log|]. split; reflexivity.
  - assert (self_del_fails w k cl) as Hdel.
    { destruct Hfail as [(p' & pl' & Hpp & _)|Hd]; [|exact Hd].
      rewrite Hpeer in Hpp. discriminate Hpp. }
    erewrite bind_Ok by reflexivity.
    edestruct (_worker_client_del_self_aborts w) as (k' & -> & Hopen);
      [exact Ha | exact Hdel |].
    eexists _, _. split; [reflexivity|].
    split; [apply last_world_log|]. split; [reflexivity|]. exact Hopen.
Qed.

(** The example pair in a world where descriptor 10 is not registered:
    the deregistration of the first record fails. *)
Lemma C6_witness :
  (slot ex_pair_worker 1%positive
   = Some (ex_client 10 1 2 _CLIENT_STATE_FORWARD_ALL "ping")
   ∧ self_del_fails ex_pair_worker ex_unregistered_world
       (ex_client 10 1 2 _CLIENT_STATE_FORWARD_ALL "ping"))
  ∧ ∃ w' k',
      _worker_client_del 1%positive (ex_pair_worker, ex_unregistered_world)
      = Aborted (w', k')
      ∧ last (World.trace k') = Some EAbort.
Proof.
  assert (self_del_fails ex_pair_worker ex_unregistered_world
            (ex_client 10 1 2 _CLIENT_STATE_FORWARD_ALL "ping")) as Hf.
  { vm_compute. reflexivity. }
  split; [split; [reflexivity | exact Hf]|].
  destruct (C6_client_del_aborts_on_epoll_failure
              ex_pair_worker ex_unregistered_world 1%positive
              (ex_client 10 1 2 _CLIENT_STATE_FORWARD_ALL "ping"))
    as (w' & k' & Hrun & Hlast & _).
  - reflexivity.
  - intros p [= <-]. vm_compute. eauto.
  - right. exact Hf.
  - exists w', k'. split; [exact Hrun | exact Hlast].
Defined.

(** ** Adding a client *)

Lemma next_slot_fresh w : ¬ is_live w (next_slot w).
Proof. unfold is_live, next_slot. apply is_fresh. Qed.

Lemma mempool_alloc_Ok w k :
  (size (Mempool.live (Worker.clients w))
   < Mempool.max_slots (Worker.clients w))%nat →
  mempool_alloc (w, k)
  = Ok (Some (next_slot w))
      (alloc_slot (next_slot w) (raw_slot w (next_slot w)) w,
       World.log (EMempoolAlloc (Some (next_slot w))) k).
Proof.
  intros Hlt. unfold mempool_alloc.
  destruct (Nat.leb_spec (Mempool.max_slots (Worker.clients w))
              (size (Mempool.live (Worker.clients w)))) as [Hle|_]; [lia|].
  cbv zeta. fold (next_slot w). apply Ok_eq; [|reflexivity].
  unfold alloc_slot, raw_slot, slot. f_equal. f_equal.
  destruct (Mempool.slots (Worker.clients w) !! next_slot w) as [c|] eqn:E;
    [|reflexivity].
  simpl. by rewrite insert_id.
Qed.

Lemma mempool_alloc_exhausted w k :
  (Mempool.max_slots (Worker.clients w)
   ≤ size (Mempool.live (Worker.clients w)))%nat →
  mempool_alloc (w, k) = Ok None (w, World.log (EMempoolAlloc None) k).
Proof.
  intros Hle. unfold mempool_alloc.
  destruct (Nat.leb_spec (Mempool.max_slots (Worker.clients w))
              (size (Mempool.live (Worker.clients w)))) as [_|Hlt]; [|lia].
  reflexivity.
Qed.

Lemma slot_alloc_slot_eq a c w : slot (alloc_slot a c w) a = Some c.
Proof. unfold slot, alloc_slot. proj_simpl. apply lookup_insert_eq. Qed.

Lemma set_slot_alloc_slot a c c' w :
  set_slot a c' (alloc_slot a c w) = alloc_slot a c' w.
Proof.
  unfold set_slot, alloc_slot, Worker.set_clients. proj_simpl.
  by rewrite insert_insert_eq.
Qed.

Lemma free_slot_alloc_slot a c w :
  ¬ is_live w a →
  Mempool.live (Worker.clients (free_slot a (alloc_slot a c w)))
  = Mempool.live (Worker.clients w).
Proof.
  unfold is_live, free_slot, alloc_slot, Worker.set_clients. proj_simpl.
  intros H. apply set_eq. intros x.
  rewrite elem_of_difference, elem_of_union, elem_of_singleton.
  split; [tauto|]. intros Hx. split; [tauto|]. congruence.
Qed.

(** Exhaustion: nothing but the failed allocation happens. *)
Lemma _worker_client_add_exhausted src_fd trg_fd state peer w k :
  (Mempool.max_slots (Worker.clients w)
   ≤ size (Mempool.live (Worker.clients w)))%nat →
  _worker_client_add src_fd trg_fd state peer (w, k)
  = Ok (-1) (w, World.log (EMempoolAlloc None) k).
Proof.
  intros Hle. unfold _worker_client_add.
  erewrite bind_Ok by (by apply mempool_alloc_exhausted). reflexivity.
Qed.

(** Registration failure: the slot is handed out, its event member is
    written, the registration fails, the slot is given back. *)
Lemma _worker_client_add_unregistered src_fd trg_fd state peer w k :
  (size (Mempool.live (Worker.clients w))
   < Mempool.max_slots (Worker.clients w))%nat →
  epoll_ctl_table k (Worker.event_fd w) EPOLL_CTL_ADD src_fd
    (Event.mk EPOLLIN (Some (next_slot w))) = None →
  _worker_client_add src_fd trg_fd state peer (w, k)
  = Ok (-1)
      (free_slot (next_slot w)
         (alloc_slot (next_slot w)
            (Client.set_data_ptr (Some (next_slot w))
               (Client.set_events EPOLLIN (raw_slot w (next_slot w)))) w),
       world_append
         (add_failed_trace (Worker.event_fd w) (next_slot w) src_fd) k).
Proof.
  intros Hlt Hadd. unfold _worker_client_add.
  erewrite bind_Ok by (by apply mempool_alloc_Ok).
  cbv beta iota.
  erewrite bind_Ok by (apply store_Ok, slot_alloc_slot_eq).
  rewrite set_slot_alloc_slot.
  erewrite bind_Ok by (apply store_Ok, slot_alloc_slot_eq).
  rewrite set_slot_alloc_slot.
  erewrite bind_Ok by reflexivity.
  erewrite bind_Ok by (apply load_Ok, slot_alloc_slot_eq).
  erewrite bind_Ok by (apply epoll_ctl_fail; exact Hadd).
  change (-1 <? 0) with true. cbv iota.
  erewrite bind_Ok by reflexivity.
  unfold ret. apply Ok_eq; [reflexivity|]. unfold add_failed_trace.
  world_eq.
Qed.

(** Success: the slot is handed out, registered for EPOLLIN with its own
    address as cookie, and initialised. *)
Lemma _worker_client_add_Ok src_fd trg_fd state peer w k tbl :
  (size (Mempool.live (Worker.clients w))
   < Mempool.max_slots (Worker.clients w))%nat →
  epoll_ctl_table k (Worker.event_fd w) EPOLL_CTL_ADD src_fd
    (Event.mk EPOLLIN (Some (next_slot w))) = Some tbl →
  _worker_client_add src_fd trg_fd state peer (w, k)
  = Ok 0
      (alloc_slot (next_slot w)
         (added_client (next_slot w) src_fd trg_fd state peer
            (raw_slot w (next_slot w))) w,
       world_append (add_ok_trace (Worker.event_fd w) (next_slot w) src_fd)
         (World.set_epolls (<[Worker.event_fd w := tbl]> (World.epolls k))
            k)).
Proof.
  intros Hlt Hadd. unfold _worker_client_add.
  erewrite bind_Ok by (by apply mempool_alloc_Ok).
  cbv beta iota.
  erewrite bind_Ok by (apply store_Ok, slot_alloc_slot_eq).
  rewrite set_slot_alloc_slot.
  erewrite bind_Ok by (apply store_Ok, slot_alloc_slot_eq).
  rewrite set_slot_alloc_slot.
  erewrite bind_Ok by reflexivity.
  erewrite bind_Ok by (apply load_Ok, slot_alloc_slot_eq).
  erewrite bind_Ok by (apply epoll_ctl_Ok; exact Hadd).
  change (0 <? 0) with false. cbv iota.
  do 9 (erewrite bind_Ok by (apply store_Ok, slot_alloc_slot_eq);
        rewrite set_slot_alloc_slot).
  unfold ret. apply Ok_eq; [reflexivity|]. unfold add_ok_trace.
  world_eq.
Qed.

(** ** The accept handler *)

Lemma sys_accept_Ok {X} (x : X) lfd k fd q :
  World.accept_queue k = fd :: q → 0 ≤ fd →
  sys_accept lfd (x, k) = Ok fd (x, accepted_world fd q k).
Proof.
  intros Hq Hfd. unfold sys_accept. rewrite Hq.
  destruct (Z.ltb_spec fd 0) as [Hlt|_]; [lia|]. reflexivity.
Qed.

Lemma listener_accepted s k fd q :
  World.accept_queue k = fd :: q → 0 ≤ fd →
  _server_event_handle_listener (s, k)
  = listener_assign fd (Server.workers_curr s) (s, accepted_world fd q k).
Proof.
  intros Hq Hfd. unfold _server_event_handle_listener.
  erewrite bind_Ok by reflexivity.
  erewrite bind_Ok by (by apply sys_accept_Ok).
  destruct (Z.ltb_spec fd 0) as [Hlt|_]; [lia|].
  erewrite bind_Ok by reflexivity. reflexivity.
Qed.

Lemma on_worker_Ok {A} i (m : M Worker.t A) s k w a w' k' :
  0 ≤ i → worker_at s i = Some w → m (w, k) = Ok a (w', k') →
  on_worker i m (s, k) = Ok a (put_worker i w' s, k').
Proof.
  intros Hi Hw Hm. unfold on_worker, worker_at in *.
  destruct (Z.ltb_spec i 0) as [Hlt|_]; [lia|].
  rewrite Hw, Hm. reflexivity.
Qed.

(** What an [on_worker] call leaves alone: every other worker and the
    scalar members of the server. *)
Lemma on_worker_frame {A} i (m : M Worker.t A) s k :
  let s' := fst (outcome_state (on_worker i m (s, k))) in
  (∀ j, j ≠ Z.to_nat i → Server.workers s' !! j = Server.workers s !! j)
  ∧ Server.workers_curr s' = Server.workers_curr s
  ∧ Server.workers_len s' = Server.workers_len s
  ∧ length (Server.workers s') = length (Server.workers s).
Proof.
  unfold on_worker. destruct (i <? 0); [by cbn|].
  destruct (Server.workers s !! Z.to_nat i) as [w|]; [|by cbn].
  destruct (m (w, k)) as [a [w' k']|[w' k']|[w' k']]; cbn;
    (split; [intros j Hj; by apply list_lookup_insert_ne|]);
    rewrite length_insert; auto.
Qed.

Lemma worker_at_put_worker i w s :
  0 ≤ i → is_Some (worker_at s i) → worker_at (put_worker i w s) i = Some w.
Proof.
  intros Hi [w0 Hw]. unfold worker_at, put_worker in *. cbn.
  apply list_lookup_insert_eq. by eapply lookup_lt_Some.
Qed.

(** C7.  Registration failure in the add-client operation, seen from the
    accept handler: [accept] returned [fd], the slab of the current worker
    can hand out a slot, and [EPOLL_CTL_ADD] of [fd] fails.  Then the
    handler returns; the slot that was handed out has been given back
    ([mempool_free] follows the failed [epoll_ctl]), the worker has the
    same allocated records with the same contents and the same capacity
    as before, no interest list gained an entry, the worker-assignment
    counter is unchanged, and the last effect is the close of [fd], which
    is no longer open.  [_worker_client_add] itself returned -1. *)
Theorem C7_add_registration_failure_releases_slot s k fd q w :
  World.accept_queue k = fd :: q → 0 ≤ fd →
  0 ≤ Server.workers_curr s →
  worker_at s (Server.workers_curr s) = Some w →
  (size (Mempool.live (Worker.clients w))
   < Mempool.max_slots (Worker.clients w))%nat →
  epoll_ctl_table (accepted_world fd q k) (Worker.event_fd w)
    EPOLL_CTL_ADD fd (Event.mk EPOLLIN (Some (next_slot w))) = None →
  ∃ w' kf s' k',
    _worker_client_add fd (-1) _CLIENT_STATE_HEADER None
      (w, accepted_world fd q k) = Ok (-1) (w', kf)
    ∧ _server_event_handle_listener (s, k) = Ok tt (s', k')
    ∧ worker_at s' (Server.workers_curr s) = Some w'
    ∧ Mempool.live (Worker.clients w') = Mempool.live (Worker.clients w)
    ∧ Mempool.max_slots (Worker.clients w')
      = Mempool.max_slots (Worker.clients w)
    ∧ (∀ b, is_live w b → slot w' b = slot w b)
    ∧ Server.workers_curr s' = Server.workers_curr s
    ∧ World.epolls k' = delete fd <$> World.epolls k
    ∧ (fd ∉ World.open_fds k')
    ∧ World.trace k'
      = World.trace k ++
        [EAccept fd;
         EMempoolAlloc (Some (next_slot w));
         EStore (next_slot w) F_event; EStore (next_slot w) F_event;
         ELoad (next_slot w) F_event;
         EEpollCtl (Worker.event_fd w) EPOLL_CTL_ADD fd
           (Event.mk EPOLLIN (Some (next_slot w))) (-1);
         EMempoolFree (next_slot w);
         EClose fd].
Proof.
  intros Hq Hfd Hcurr Hw Hlt Hadd.
  pose proof (_worker_client_add_unregistered fd (-1) _CLIENT_STATE_HEADER
                None w (accepted_world fd q k) Hlt Hadd) as Hrun.
  eexists _, _, _, _. split; [exact Hrun|].
  split.
  { rewrite (listener_accepted s k fd q Hq Hfd). unfold listener_assign.
    erewrite bind_Ok by (eapply on_worker_Ok; eauto).
    change (-1 <? 0) with true. cbv iota. apply sys_close_Ok. }
  split; [apply worker_at_put_worker; eauto|].
  split; [apply free_slot_alloc_slot, next_slot_fresh|].
  split; [reflexivity|].
  split.
  { intros b Hb. rewrite slot_free_slot. unfold slot, alloc_slot. proj_simpl.
    apply lookup_insert_ne. intros <-. by apply (next_slot_fresh w). }
  split; [reflexivity|].
  split; [reflexivity|].
  split.
  { world_norm. rewrite elem_of_difference, elem_of_singleton. tauto. }
  unfold add_failed_trace, accepted_world. world_norm.
  rewrite <- !app_assoc. reflexivity.
Qed.

(** The example server with an interest-list limit of 0: every
    [EPOLL_CTL_ADD] fails. *)
Lemma C7_witness :
  (World.accept_queue (ex_server_world [20] 0) = [20]
   ∧ epoll_ctl_table (accepted_world 20 [] (ex_server_world [20] 0)) 6
       EPOLL_CTL_ADD 20
       (Event.mk EPOLLIN (Some (next_slot (ex_worker 0 6 8)))) = None)
  ∧ ∃ s' k',
      _server_event_handle_listener (ex_server 8, ex_server_world [20] 0)
      = Ok tt (s', k')
      ∧ Server.workers_curr s' = 0
      ∧ (20 ∉ World.open_fds k').
Proof.
  assert (epoll_ctl_table (accepted_world 20 [] (ex_server_world [20] 0)) 6
            EPOLL_CTL_ADD 20
            (Event.mk EPOLLIN (Some (next_slot (ex_worker 0 6 8)))) = None)
    as Hadd by (vm_compute; reflexivity).
  split; [split; [reflexivity | exact Hadd]|].
  destruct (C7_add_registration_failure_releases_slot
              (ex_server 8) (ex_server_world [20] 0) 20 [] (ex_worker 0 6 8))
    as (w' & kf & s' & k' & _ & Hrun & _ & _ & _ & _ & Hcurr & _ & Hfd & _).
  - reflexivity.
  - lia.
  - vm_compute. discriminate.
  - reflexivity.
  - vm_compute. lia.
  - exact Hadd.
  - exists s', k'. split; [exact Hrun|]. split; [exact Hcurr | exact Hfd].
Defined.

(** C10.  [accept] returned [fd] and the add-client call on the current
    worker failed (it returned a negative value, whatever the reason).
    Then the handler returns with [fd] closed as its last effect and with
    the worker-assignment counter unchanged; and for the next accepted
    connection the handler calls the add-client operation on that same
    worker index again. *)
Theorem C10_failed_assignment_keeps_counter s k fd q r s1 k1 :
  World.accept_queue k = fd :: q → 0 ≤ fd →
  on_worker (Server.workers_curr s)
    (_worker_client_add fd (-1) _CLIENT_STATE_HEADER None)
    (s, accepted_world fd q k) = Ok r (s1, k1) →
  r < 0 →
  ∃ s' k',
    _server_event_handle_listener (s, k) = Ok tt (s', k')
    ∧ Server.workers_curr s' = Server.workers_curr s
    ∧ (fd ∉ World.open_fds k')
    ∧ last (World.trace k') = Some (EClose fd)
    ∧ ∀ fd2 q2,
        World.accept_queue k' = fd2 :: q2 → 0 ≤ fd2 →
        _server_event_handle_listener (s', k')
        = (r2 <- on_worker (Server.workers_curr s)
                   (_worker_client_add fd2 (-1) _CLIENT_STATE_HEADER None) ;;
           if r2 <? 0 then sys_close fd2
           else
             len <- server_get Server.workers_len ;;
             if len =? 0 then (fun st => Fault st)
             else server_set_workers_curr
                    (wrap_unsigned (Server.workers_curr s + 1) mod len))
            (s', accepted_world fd2 q2 k').
Proof.
  intros Hq Hfd Hadd Hr.
  pose proof (on_worker_frame (Server.workers_curr s)
                (_worker_client_add fd (-1) _CLIENT_STATE_HEADER None)
                s (accepted_world fd q k)) as Hframe.
  rewrite Hadd in Hframe. cbn in Hframe.
  destruct Hframe as (_ & Hcurr & _).
  eexists _, _. split.
  { rewrite (listener_accepted s k fd q Hq Hfd). unfold listener_assign.
    erewrite bind_Ok by exact Hadd.
    destruct (Z.ltb_spec r 0) as [_|Hge]; [|lia]. apply sys_close_Ok. }
  split; [exact Hcurr|].
  split.
  { world_norm. rewrite elem_of_difference, elem_of_singleton. tauto. }
  split; [apply last_world_log|].
  intros fd2 q2 Hq2 Hfd2.
  rewrite (listener_accepted _ _ fd2 q2 Hq2 Hfd2), Hcurr. reflexivity.
Qed.

(** The example server with slabs of capacity 0: every allocation
    fails. *)
Lemma C10_witness :
  (World.accept_queue (ex_server_world [20; 21] 16) = [20; 21]
   ∧ on_worker 0 (_worker_client_add 20 (-1) _CLIENT_STATE_HEADER None)
       (ex_server 0, accepted_world 20 [21] (ex_server_world [20; 21] 16))
     = Ok (-1)
         (ex_server 0,
          World.log (EMempoolAlloc None)
            (accepted_world 20 [21] (ex_server_world [20; 21] 16))))
  ∧ ∃ s' k',
      _server_event_handle_listener
        (ex_server 0, ex_server_world [20; 21] 16) = Ok tt (s', k')
      ∧ Server.workers_curr s' = 0
      ∧ (20 ∉ World.open_fds k').
Proof.
  assert (on_worker 0 (_worker_client_add 20 (-1) _CLIENT_STATE_HEADER None)
            (ex_server 0,
             accepted_world 20 [21] (ex_server_world [20; 21] 16))
          = Ok (-1)
              (ex_server 0,
               World.log (EMempoolAlloc None)
                 (accepted_world 20 [21] (ex_server_world [20; 21] 16))))
    as Hadd by (vm_compute; reflexivity).
  split; [split; [reflexivity | exact Hadd]|].
  destruct (C10_failed_assignment_keeps_counter
              (ex_server 0) (ex_server_world [20; 21] 16) 20 [21] (-1)
              _ _ eq_refl ltac:(lia) Hadd ltac:(lia))
    as (s' & k' & Hrun & Hcurr & Hfd & _).
  exists s', k'. split; [exact Hrun|]. split; [exact Hcurr | exact Hfd].
Defined.

(** ** Round-robin assignment *)

Lemma round_robin_hits_closed W c n j :
  0 < W → 0 ≤ c < W → 0 ≤ j < W →
  round_robin_hits W c n j = (Z.of_nat n + W - 1 - (j - c) mod W) / W.
Proof.
  intros HW. revert c. induction n as [|n IH]; intros c Hc Hj.
  - simpl. symmetry. apply Z.div_small.
    pose proof (Z.mod_pos_bound (j - c) W HW). lia.
  - cbn [round_robin_hits].
    pose proof (Z.mod_pos_bound (c + 1) W HW) as Hc'.
    rewrite (IH _ Hc' Hj).
    assert ((j - (c + 1) mod W) mod W = ((j - c) mod W - 1) mod W) as ->.
    { rewrite Zminus_mod_idemp_r, Zminus_mod_idemp_l. f_equal. lia. }
    destruct (Z.eqb_spec c j) as [->|Hne].
    + rewrite Z.sub_diag, Z.mod_0_l by lia.
      assert ((0 - 1) mod W = W - 1) as ->.
      { symmetry. apply (Z.mod_unique _ _ (-1)); lia. }
      replace (Z.of_nat n + W - 1 - (W - 1)) with (Z.of_nat n) by lia.
      replace (Z.of_nat (S n) + W - 1 - 0) with (Z.of_nat n + 1 * W) by lia.
      rewrite Z.div_add by lia. lia.
    + pose proof (Z.mod_pos_bound (j - c) W HW) as Hd.
      assert ((j - c) mod W ≠ 0) as Hd0.
      { intros E. apply Z.mod_divide in E; [|lia].
        destruct E as [q Hq]. assert (q = 0) by nia. lia. }
      rewrite (Z.mod_small ((j - c) mod W - 1)) by lia.
      rewrite Z.add_0_l. f_equal. lia.
Qed.

Lemma round_robin_hits_floor_or_ceil W c n j :
  0 < W → 0 ≤ c < W → 0 ≤ j < W →
  round_robin_hits W c n j = floor_div (Z.of_nat n) W
  ∨ round_robin_hits W c n j = ceil_div (Z.of_nat n) W.
Proof.
  intros HW Hc Hj. rewrite round_robin_hits_closed by assumption.
  unfold floor_div, ceil_div.
  pose proof (Z.mod_pos_bound (j - c) W HW) as Hd.
  set (d := (j - c) mod W) in *. set (N := Z.of_nat n).
  assert (N / W ≤ (N + W - 1 - d) / W) as H1
    by (apply Z.div_le_mono; lia).
  assert ((N + W - 1 - d) / W ≤ (N + W - 1) / W) as H2
    by (apply Z.div_le_mono; lia).
  assert ((N + W - 1) / W ≤ N / W + 1) as H3.
  { replace (N / W + 1) with ((N + 1 * W) / W)
      by (rewrite Z.div_add by lia; lia).
    apply Z.div_le_mono; lia. }
  lia.
Qed.

Lemma _worker_client_add_0 src_fd trg_fd state peer w k w' k' :
  _worker_client_add src_fd trg_fd state peer (w, k) = Ok 0 (w', k') →
  size (Mempool.live (Worker.clients w'))
  = S (size (Mempool.live (Worker.clients w))).
Proof.
  destruct (Nat.le_gt_cases (Mempool.max_slots (Worker.clients w))
              (size (Mempool.live (Worker.clients w)))) as [Hle|Hlt].
  { rewrite _worker_client_add_exhausted by exact Hle. discriminate. }
  destruct (epoll_ctl_table k (Worker.event_fd w) EPOLL_CTL_ADD src_fd
              (Event.mk EPOLLIN (Some (next_slot w)))) as [tbl|] eqn:Hadd.
  - rewrite (_worker_client_add_Ok _ _ _ _ _ _ tbl) by assumption.
    intros [= <- _]. unfold alloc_slot, Worker.set_clients. proj_simpl.
    rewrite size_union, size_singleton; [reflexivity|].
    apply disjoint_singleton_l, next_slot_fresh.
  - rewrite _worker_client_add_unregistered by assumption. discriminate.
Qed.

Lemma on_worker_Ok_inv {A} i (m : M Worker.t A) s k a s1 k1 :
  on_worker i m (s, k) = Ok a (s1, k1) →
  0 ≤ i ∧ ∃ w w', worker_at s i = Some w ∧ m (w, k) = Ok a (w', k1)
                  ∧ s1 = put_worker i w' s.
Proof.
  unfold on_worker, worker_at.
  destruct (Z.ltb_spec i 0) as [Hlt|Hge]; [discriminate|].
  destruct (Server.workers s !! Z.to_nat i) as [w|]; [|discriminate].
  destruct (m (w, k)) as [a' [w' k']|[w' k']|[w' k']] eqn:Hm;
    try discriminate.
  intros [= -> <- <-]. split; [exact Hge|].
  exists w, w'. auto.
Qed.

Lemma connections_put_worker i w w' s j :
  0 ≤ i → 0 ≤ j → worker_at s i = Some w →
  size (Mempool.live (Worker.clients w'))
  = S (size (Mempool.live (Worker.clients w))) →
  connections (put_worker i w' s) j
  = connections s j + (if i =? j then 1 else 0).
Proof.
  intros Hi Hj Hw Hsz. unfold connections, worker_at, put_worker in *. cbn.
  destruct (Z.eqb_spec i j) as [<-|Hne].
  - rewrite list_lookup_insert_eq by (by eapply lookup_lt_Some).
    rewrite Hw, Hsz. lia.
  - rewrite list_lookup_insert_ne by lia. lia.
Qed.

(** One call of the accept handler whose add-client call succeeded. *)
Lemma listener_assigned_step s k fd q s1 k1 :
  server_healthy s →
  World.accept_queue k = fd :: q → 0 ≤ fd →
  on_worker (Server.workers_curr s)
    (_worker_client_add fd (-1) _CLIENT_STATE_HEADER None)
    (s, accepted_world fd q k) = Ok 0 (s1, k1) →
  ∃ s',
    _server_event_handle_listener (s, k) = Ok tt (s', k1)
    ∧ server_healthy s'
    ∧ Server.workers_len s' = Server.workers_len s
    ∧ Server.workers_curr s'
      = (Server.workers_curr s + 1) mod Server.workers_len s
    ∧ ∀ j, 0 ≤ j →
        connections s' j
        = connections s j + (if Server.workers_curr s =? j then 1 else 0).
Proof.
  intros [Hlen Hcurr Hws] Hq Hfd Hadd.
  destruct (on_worker_Ok_inv _ _ _ _ _ _ _ Hadd)
    as (Hi & w & w' & Hw & Hrun & ->).
  assert (wrap_unsigned (Server.workers_curr s + 1)
          = Server.workers_curr s + 1) as Hwrap.
  { unfold wrap_unsigned. apply Z.mod_small. lia. }
  eexists. split.
  { rewrite (listener_accepted s k fd q Hq Hfd). unfold listener_assign.
    erewrite bind_Ok by exact Hadd.
    change (0 <? 0) with false. cbv iota.
    erewrite bind_Ok by reflexivity.
    cbn [put_worker Server.workers_len Server.set_workers].
    destruct (Z.eqb_spec (Server.workers_len s) 0) as [E|_]; [lia|].
    rewrite Hwrap. reflexivity. }
  pose proof (Z.mod_pos_bound (Server.workers_curr s + 1)
                (Server.workers_len s) ltac:(lia)) as Hmod.
  split.
  { split; cbn; [exact Hlen | exact Hmod |].
    rewrite length_insert. exact Hws. }
  split; [reflexivity|]. split; [reflexivity|].
  intros j Hj.
  apply (connections_put_worker _ w w' s j Hi Hj Hw).
  by eapply _worker_client_add_0.
Qed.

Lemma accepted_run_connections n st st' :
  accepted_run n st st' → server_healthy (fst st) →
  server_healthy (fst st')
  ∧ Server.workers_len (fst st') = Server.workers_len (fst st)
  ∧ ∀ j, 0 ≤ j < Server.workers_len (fst st) →
      connections (fst st') j
      = connections (fst st) j
        + round_robin_hits (Server.workers_len (fst st))
            (Server.workers_curr (fst st)) n j.
Proof.
  induction 1 as [st|n s k fd q [s1 k1] st2 st3 Hq Hfd Hadd Hrun Hrest IH];
    intros Hh.
  - split; [exact Hh|]. split; [reflexivity|]. intros j Hj. simpl. lia.
  - destruct (listener_assigned_step s k fd q s1 k1 Hh Hq Hfd Hadd)
      as (s' & Hrun' & Hh' & Hlen & Hcurr & Hconn).
    rewrite Hrun' in Hrun. injection Hrun as <-.
    destruct (IH Hh') as (Hh3 & Hlen3 & Hconn3).
    cbn [fst] in *. split; [exact Hh3|]. split; [congruence|].
    intros j Hj. rewrite Hconn3, Hconn by lia.
    cbn [round_robin_hits]. rewrite Hlen, Hcurr. lia.
Qed.

(** C9.  From a healthy server state with [W = workers_len] workers, after
    [N] consecutive calls of the accept handler in each of which a
    connection was accepted and the add-client call succeeded, every
    worker has received either floor(N/W) or ceil(N/W) of the [N]
    connections. *)
Theorem C9_round_robin_floor_or_ceil N s k s' k' j :
  server_healthy s →
  accepted_run N (s, k) (s', k') →
  0 ≤ j < Server.workers_len s →
  connections s' j - connections s j
  = floor_div (Z.of_nat N) (Server.workers_len s)
  ∨ connections s' j - connections s j
    = ceil_div (Z.of_nat N) (Server.workers_len s).
Proof.
  intros Hh Hrun Hj.
  destruct (accepted_run_connections N _ _ Hrun Hh) as (_ & _ & Hconn).
  cbn [fst] in Hconn. rewrite (Hconn j Hj).
  destruct Hh as [Hlen Hcurr _].
  destruct (round_robin_hits_floor_or_ceil (Server.workers_len s)
              (Server.workers_curr s) N j) as [E|E]; try lia.
Qed.

(** The example server and a run of three accepted connections on it. *)
Lemma ex_server_healthy : server_healthy (ex_server 8).
Proof. split; vm_compute; try split; congruence. Qed.

Lemma ex_accepted_run :
  accepted_run 3 (ex_server 8, ex_server_world [20; 21; 22] 16)
    (fst ex_run_final, snd ex_run_final).
Proof.
  eapply (accepted_run_cons _ _ _ 20 [21; 22]);
    [reflexivity | lia | vm_compute; reflexivity | vm_compute; reflexivity|].
  eapply (accepted_run_cons _ _ _ 21 [22]);
    [reflexivity | lia | vm_compute; reflexivity | vm_compute; reflexivity|].
  eapply (accepted_run_cons _ _ _ 22 []);
    [reflexivity | lia | vm_compute; reflexivity | vm_compute; reflexivity|].
  vm_compute. apply accepted_run_nil.
Qed.

(** Three connections on the two workers of the example server: worker 0
    receives two of them. *)
Lemma C9_witness :
  (server_healthy (ex_server 8)
   ∧ accepted_run 3 (ex_server 8, ex_server_world [20; 21; 22] 16)
       (fst ex_run_final, snd ex_run_final)
   ∧ 0 ≤ 0 < Server.workers_len (ex_server 8))
  ∧ (connections (fst ex_run_final) 0 - connections (ex_server 8) 0
     = floor_div 3 2
     ∨ connections (fst ex_run_final) 0 - connections (ex_server 8) 0
       = ceil_div 3 2).
Proof.
  assert (0 ≤ 0 < Server.workers_len (ex_server 8)) as Hj
    by (vm_compute; split; congruence).
  split; [split; [apply ex_server_healthy
                 | split; [apply ex_accepted_run | exact Hj]]|].
  exact (C9_round_robin_floor_or_ceil 3 (ex_server 8)
           (ex_server_world [20; 21; 22] 16)
           (fst ex_run_final) (snd ex_run_final) 0
           ex_server_healthy ex_accepted_run Hj).
Defined.

(** ** Start-up *)







(** The polls of the workers from [j] on leave the flags of the workers
    before [j] alone. *)
Lemma wait_workers_keeps_flag env i fuel : ∀ j t ws ws' tr x w,
  i < UINT_MODULUS → 0 ≤ j → Z.of_nat x < j →
  wait_workers fuel env i j t ws = Some (ws', tr) →
  ws !! x = Some w →
  ∃ w', ws' !! x = Some w' ∧ Worker.is_alive w' = Worker.is_alive w.
Proof.
  induction fuel as [|fuel IH]; intros j t ws ws' tr x w Hi Hj Hx Hrun Hw.
  - cbn in Hrun. destruct (j <? i); [discriminate|].
    injection Hrun as <- <-. eauto.
  - cbn [wait_workers] in Hrun.
    destruct (Z.ltb_spec j i) as [Hlt|Hge].
    2:{ injection Hrun as <- <-. eauto. }
    cbv zeta in Hrun.
    destruct (wait_workers fuel env i _ (S t) _) as [[ws2 tr2]|] eqn:Hrec;
      [|discriminate].
    injection Hrun as <- <-.
    apply (IH _ _ _ _ _ x w) in Hrec; [exact Hrec | exact Hi | | |].
    + destruct (Env.atomic_load_is_alive env t j =? 0); [exact Hj|].
      unfold wrap_unsigned. rewrite Z.mod_small by lia. lia.
    + destruct (Env.atomic_load_is_alive env t j =? 0); [exact Hx|].
      unfold wrap_unsigned. rewrite Z.mod_small by lia. lia.
    + rewrite list_lookup_alter_ne by lia. exact Hw.
Qed.

(** When the wait loop is done, the flag of every worker it had to wait
    for holds the value of the poll that ended its turn, which is not 0;
    nothing else of the array has changed. *)
Lemma wait_workers_flags env i fuel : ∀ j t ws ws' tr,
  0 ≤ j → i < UINT_MODULUS →
  wait_workers fuel env i j t ws = Some (ws', tr) →
  length ws' = length ws
  ∧ ∀ x w', ws' !! x = Some w' →
      ∃ w, ws !! x = Some w
           ∧ Worker.index w' = Worker.index w
           ∧ Worker.event_fd w' = Worker.event_fd w
           ∧ Worker.clients w' = Worker.clients w
           ∧ (j ≤ Z.of_nat x < i → Worker.is_alive w' ≠ 0).
Proof.
  induction fuel as [|fuel IH]; intros j t ws ws' tr Hj Hi Hrun.
  - cbn in Hrun. destruct (Z.ltb_spec j i); [discriminate|].
    injection Hrun as <- <-. split; [reflexivity|].
    intros x w' Hx. exists w'. repeat split; auto. lia.
  - cbn [wait_workers] in Hrun.
    destruct (Z.ltb_spec j i) as [Hlt|Hge].
    2:{ injection Hrun as <- <-. split; [reflexivity|].
        intros x w' Hx. exists w'. repeat split; auto. lia. }
    cbv zeta in Hrun.
    set (v := Env.atomic_load_is_alive env t j) in *.
    set (ws1 := alter (worker_flag v) (Z.to_nat j) ws) in *.
    destruct (wait_workers fuel env i _ (S t) ws1) as [[ws2 tr2]|] eqn:Hrec;
      [|discriminate].
    injection Hrun as <- <-.
    assert (∀ x w1, ws1 !! x = Some w1 →
              ∃ w, ws !! x = Some w
                   ∧ Worker.index w1 = Worker.index w
                   ∧ Worker.event_fd w1 = Worker.event_fd w
                   ∧ Worker.clients w1 = Worker.clients w
                   ∧ (x = Z.to_nat j → Worker.is_alive w1 = v)) as Hstep.
    { intros x w1 Hx. unfold ws1 in Hx.
      destruct (decide (x = Z.to_nat j)) as [->|Hne].
      - rewrite list_lookup_alter_eq in Hx.
        destruct (ws !! Z.to_nat j) as [w|] eqn:Hw; cbn in Hx;
          [|discriminate].
        injection Hx as <-. exists w. repeat split; auto.
      - rewrite list_lookup_alter_ne in Hx by auto.
        exists w1. repeat split; auto. contradiction. }
    destruct (Z.eqb_spec v 0) as [E|E].
    + destruct (IH _ _ _ _ _ Hj Hi Hrec) as [Hlen Hall].
      split; [rewrite Hlen; unfold ws1; apply length_alter|].
      intros x w' Hx. destruct (Hall x w' Hx) as (w1 & Hw1 & H1 & H2 & H3 & H4).
      destruct (Hstep x w1 Hw1) as (w & Hw & H5 & H6 & H7 & _).
      exists w. split; [exact Hw|]. repeat split; [congruence.. | exact H4].
    + assert (wrap_unsigned (j + 1) = j + 1) as Hw
        by (unfold wrap_unsigned; apply Z.mod_small; lia).
      rewrite Hw in Hrec.
      assert (0 ≤ j + 1) as Hj1 by lia.
      destruct (IH _ _ _ _ _ Hj1 Hi Hrec) as [Hlen Hall].
      split; [rewrite Hlen; unfold ws1; apply length_alter|].
      intros x w' Hx. destruct (Hall x w' Hx) as (w1 & Hw1 & H1 & H2 & H3 & H4).
      destruct (Hstep x w1 Hw1) as (w & Hw0 & H5 & H6 & H7 & H8).
      exists w. split; [exact Hw0|]. repeat split; [congruence..|].
      intros Hx'. destruct (decide (x = Z.to_nat j)) as [->|Hne].
      * (* the turn of worker [j] has ended with [v] *)
        destruct (wait_workers_keeps_flag env i fuel (j + 1) (S t) ws1 ws2
                    tr2 (Z.to_nat j) w1 Hi Hj1 ltac:(lia) Hrec Hw1)
          as (wb & Hwb & Hal).
        rewrite Hx in Hwb. injection Hwb as <-.
        rewrite Hal, (H8 eq_refl). exact E.
      * apply H4. lia.
Qed.




(** ** The state handlers *)

Example ex_connect_request_parsed :
  http_request_parse ex_connect_request
  = Parsed (HttpRequest.mk "CONNECT" "example.com:443"
              ("Host: example.com" ++ CRLF)).
Proof. vm_compute. reflexivity. Qed.

Example http_request_parse_incomplete :
  http_request_parse "GET / HT" = Incomplete.
Proof. vm_compute. reflexivity. Qed.

Example http_request_parse_malformed :
  http_request_parse ("garbage" ++ CRLF ++ CRLF) = Malformed.
Proof. vm_compute. reflexivity. Qed.

(** C1 as the code has it.  For a record in state HEADER the handler
    returns STOP, without any effect and without looking at the buffer: a
    complete, valid request yields STOP as well, and RESOLVER is never
    returned.  The dispatch of a readiness event for such a record, in a
    well-formed worker, therefore releases the record and closes its
    descriptor. *)
Theorem C1_header_handler_returns_stop w k client c :
  worker_wf w k → is_live w client → slot w client = Some c →
  Client.state c = _CLIENT_STATE_HEADER →
  _worker_client_state_header client (w, k)
  = Ok _CLIENT_STATE_STOP (w, k)
  ∧ (∀ s', _worker_client_state_header client (w, k)
           ≠ Ok _CLIENT_STATE_RESOLVER s')
  ∧ ∃ w' k',
      _worker_handle_client_state client (w, k) = Ok tt (w', k')
      ∧ ¬ is_live w' client
      ∧ (Client.src_fd c ∉ World.open_fds k').
Proof.
  intros Hwf Hl Hc Hst.
  split; [reflexivity|]. split; [discriminate|].
  destruct (_worker_handle_client_state_live w k client c Hwf Hl Hc)
    as (w' & k' & es & Hrun & Hlive & _ & Hopen & _).
  { rewrite Hst. vm_compute. split; discriminate. }
  exists w', k'. split; [exact Hrun|]. split.
  - rewrite Hlive. tauto.
  - rewrite Hopen, elem_of_difference, elem_of_singleton. tauto.
Qed.

(** The example record in state HEADER, whose buffer holds a complete,
    valid request. *)
Lemma C1_witness :
  (worker_wf ex_header_worker ex_header_world
   ∧ is_live ex_header_worker 1%positive
   ∧ slot ex_header_worker 1%positive = Some ex_header_client
   ∧ Client.state ex_header_client = _CLIENT_STATE_HEADER)
  ∧ _worker_client_state_header 1%positive (ex_header_worker, ex_header_world)
    = Ok _CLIENT_STATE_STOP (ex_header_worker, ex_header_world).
Proof.
  split.
  { split; [apply ex_header_wf|]. split; [apply ex_header_live|].
    split; reflexivity. }
  exact (proj1 (C1_header_handler_returns_stop
                  ex_header_worker ex_header_world 1%positive
                  ex_header_client ex_header_wf ex_header_live
                  eq_refl eq_refl)).
Defined.

(** C1, counterexample.  A record in state HEADER whose buffer holds the
    CONNECT request of the specification, which the parser accepts: the
    handler returns STOP, not RESOLVER. *)
Lemma C1_valid_request_yields_stop :
  ¬ (∀ w k client c r,
       slot w client = Some c →
       Client.state c = _CLIENT_STATE_HEADER →
       http_request_parse (Client.buffer c) = Parsed r →
       ∃ s', _worker_client_state_header client (w, k)
             = Ok _CLIENT_STATE_RESOLVER s').
Proof.
  intros H.
  destruct (H ex_header_worker ex_header_world 1%positive ex_header_client
              (HttpRequest.mk "CONNECT" "example.com:443"
                 ("Host: example.com" ++ CRLF)))
    as [s' Hs'].
  - reflexivity.
  - reflexivity.
  - exact ex_connect_request_parsed.
  - discriminate Hs'.
Qed.

(** C2 as the code has it.  For a record in state FORWARD_ALL the handler
    returns STOP without any effect: it reads nothing, writes nothing and
    never stays in FORWARD_ALL.  The dispatch of a readiness event for
    such a record, in a well-formed worker, therefore releases the record,
    and the bytes written to every socket are what they were before: the
    bytes waiting on its descriptor are not relayed. *)
Theorem C2_forward_all_handler_returns_stop w k client c :
  worker_wf w k → is_live w client → slot w client = Some c →
  Client.state c = _CLIENT_STATE_FORWARD_ALL →
  _worker_client_state_forward_all client (w, k)
  = Ok _CLIENT_STATE_STOP (w, k)
  ∧ (∀ s', _worker_client_state_forward_all client (w, k)
           ≠ Ok _CLIENT_STATE_FORWARD_ALL s')
  ∧ ∃ w' k',
      _worker_handle_client_state client (w, k) = Ok tt (w', k')
      ∧ ¬ is_live w' client
      ∧ World.tx k' = World.tx k.
Proof.
  intros Hwf Hl Hc Hst.
  split; [reflexivity|]. split; [discriminate|].
  destruct (_worker_handle_client_state_live w k client c Hwf Hl Hc)
    as (w' & k' & es & Hrun & Hlive & Htx & _).
  { rewrite Hst. vm_compute. split; discriminate. }
  exists w', k'. split; [exact Hrun|]. split; [|exact Htx].
  rewrite Hlive. tauto.
Qed.

(** The first record of the example pair, with five bytes waiting on its
    descriptor. *)
Lemma C2_witness :
  (worker_wf ex_pair_worker ex_pair_world
   ∧ is_live ex_pair_worker 1%positive
   ∧ Client.state (ex_client 10 1 2 _CLIENT_STATE_FORWARD_ALL "ping")
     = _CLIENT_STATE_FORWARD_ALL)
  ∧ ∃ w' k',
      _worker_handle_client_state 1%positive (ex_pair_worker, ex_pair_world)
      = Ok tt (w', k')
      ∧ World.tx k' = World.tx ex_pair_world.
Proof.
  assert (is_live ex_pair_worker 1%positive) as Hl.
  { unfold is_live, ex_pair_worker. proj_simpl.
    rewrite elem_of_union, !elem_of_singleton. auto. }
  split; [split; [apply ex_pair_wf | split; [exact Hl | reflexivity]]|].
  destruct (C2_forward_all_handler_returns_stop
              ex_pair_worker ex_pair_world 1%positive
              (ex_client 10 1 2 _CLIENT_STATE_FORWARD_ALL "ping")
              ex_pair_wf Hl eq_refl eq_refl)
    as (_ & _ & w' & k' & Hrun & _ & Htx).
  exists w', k'. split; [exact Hrun | exact Htx].
Defined.

(** C2, counterexample.  On the example pair, both halves in state
    FORWARD_ALL and five bytes waiting on the descriptor of the first:
    (1) whatever the handler returns, the bytes do not appear on the
    peer's socket; (2) the handler does not stay in FORWARD_ALL. *)
Lemma C2_forward_all_relays_nothing :
  ¬ (∀ w k a ca b cb bytes old,
       worker_wf w k → is_live w a →
       slot w a = Some ca → Client.state ca = _CLIENT_STATE_FORWARD_ALL →
       Client.peer ca = Some b →
       slot w b = Some cb → Client.state cb = _CLIENT_STATE_FORWARD_ALL →
       World.rx k !! Client.src_fd ca = Some bytes →
       World.tx k !! Client.src_fd cb = Some old →
       ∃ r w' k',
         _worker_client_state_forward_all a (w, k) = Ok r (w', k')
         ∧ World.tx k' !! Client.src_fd cb = Some (old ++ bytes)%string)
  ∧ ¬ (∀ w k a ca b cb,
         worker_wf w k → is_live w a →
         slot w a = Some ca → Client.state ca = _CLIENT_STATE_FORWARD_ALL →
         Client.peer ca = Some b →
         slot w b = Some cb → Client.state cb = _CLIENT_STATE_FORWARD_ALL →
         ∃ s', _worker_client_state_forward_all a (w, k)
               = Ok _CLIENT_STATE_FORWARD_ALL s').
Proof.
  assert (is_live ex_pair_worker 1%positive) as Hl.
  { unfold is_live, ex_pair_worker. proj_simpl.
    rewrite elem_of_union, !elem_of_singleton. auto. }
  split; intros H.
  - destruct (H ex_pair_worker ex_pair_world 1%positive
                (ex_client 10 1 2 _CLIENT_STATE_FORWARD_ALL "ping")
                2%positive
                (ex_client 11 2 1 _CLIENT_STATE_FORWARD_ALL "pong")
                "hello"%string EmptyString
                ex_pair_wf Hl eq_refl eq_refl eq_refl eq_refl eq_refl
                eq_refl eq_refl)
      as (r & w' & k' & Hrun & Htx).
    injection Hrun as _ _ <-. vm_compute in Htx. discriminate Htx.
  - destruct (H ex_pair_worker ex_pair_world 1%positive
                (ex_client 10 1 2 _CLIENT_STATE_FORWARD_ALL "ping")
                2%positive
                (ex_client 11 2 1 _CLIENT_STATE_FORWARD_ALL "pong")
                ex_pair_wf Hl eq_refl eq_refl eq_refl eq_refl eq_refl)
      as (s' & Hrun).
    discriminate Hrun.
Qed.

(** * Further properties *)

(** ** [_worker_client_add] *)

Lemma add_possible_dec w k src_fd :
  add_possible w k src_fd ∨ ¬ add_possible w k src_fd.
Proof.
  unfold add_possible.
  destruct (Nat.le_gt_cases (Mempool.max_slots (Worker.clients w))
              (size (Mempool.live (Worker.clients w)))) as [Hle|Hlt].
  { right. intros [H _]. lia. }
  destruct (epoll_ctl_table k (Worker.event_fd w) EPOLL_CTL_ADD src_fd
              (Event.mk EPOLLIN (Some (next_slot w)))) as [tbl|] eqn:E.
  - left. split; [exact Hlt | eauto].
  - right. intros [_ [x Hx]]. discriminate Hx.
Qed.

(** The three ways [_worker_client_add] returns. *)
Lemma _worker_client_add_total src_fd trg_fd state peer w k :
  ∃ r w' k',
    _worker_client_add src_fd trg_fd state peer (w, k) = Ok r (w', k')
    ∧ (r = 0 ∨ r = -1)
    ∧ (r = 0 ↔ add_possible w k src_fd)
    ∧ World.open_fds k' = World.open_fds k
    ∧ World.tx k' = World.tx k
    ∧ (r = -1 →
       Mempool.live (Worker.clients w') = Mempool.live (Worker.clients w)
       ∧ World.epolls k' = World.epolls k).
Proof.
  destruct (Nat.le_gt_cases (Mempool.max_slots (Worker.clients w))
              (size (Mempool.live (Worker.clients w)))) as [Hle|Hlt].
  { eexists _, _, _.
    split; [by apply _worker_client_add_exhausted|].
    split; [auto|]. split.
    { split; [discriminate|]. intros [H _]. lia. }
    split; [reflexivity|]. split; [reflexivity|]. auto. }
  destruct (epoll_ctl_table k (Worker.event_fd w) EPOLL_CTL_ADD src_fd
              (Event.mk EPOLLIN (Some (next_slot w)))) as [tbl|] eqn:E.
  - eexists _, _, _.
    split; [by apply (_worker_client_add_Ok _ _ _ _ _ _ tbl)|].
    split; [auto|]. split.
    { split; [|reflexivity]. intros _. split; [exact Hlt|].
      rewrite E. eauto. }
    split; [reflexivity|]. split; [reflexivity|]. discriminate.
  - eexists _, _, _.
    split; [by apply _worker_client_add_unregistered|].
    split; [auto|]. split.
    { split; [discriminate|]. intros [_ [x Hx]]. rewrite E in Hx.
      discriminate Hx. }
    split; [reflexivity|]. split; [reflexivity|]. intros _.
    split; [apply free_slot_alloc_slot, next_slot_fresh | reflexivity].
Qed.

(** X1.  [_worker_client_add] always returns, with 0 or -1; it returns 0
    exactly when the slab has room and the registration succeeds.  In no
    case does it close a descriptor or write to a socket, and after a
    return of -1 the set of allocated records is what it was. *)
Theorem X1_worker_client_add_returns src_fd trg_fd state peer w k :
  ∃ r w' k',
    _worker_client_add src_fd trg_fd state peer (w, k) = Ok r (w', k')
    ∧ (r = 0 ∨ r = -1)
    ∧ (r = 0 ↔ add_possible w k src_fd)
    ∧ World.open_fds k' = World.open_fds k
    ∧ World.tx k' = World.tx k
    ∧ (r = -1 →
       Mempool.live (Worker.clients w') = Mempool.live (Worker.clients w)
       ∧ World.epolls k' = World.epolls k).
Proof. apply _worker_client_add_total. Qed.

Lemma epoll_ctl_table_add_inv k efd fd ev t' :
  epoll_ctl_table k efd EPOLL_CTL_ADD fd ev = Some t' →
  ∃ tbl, World.epolls k !! efd = Some tbl ∧ fd ∈ World.open_fds k
         ∧ tbl !! fd = None ∧ (size tbl < World.max_user_watches k)%nat
         ∧ t' = <[fd := ev]> tbl.
Proof.
  unfold epoll_ctl_table. destruct (World.epolls k !! efd) as [tbl|]; [|done].
  case_bool_decide; [|done]. cbn [negb].
  change (EPOLL_CTL_ADD =? EPOLL_CTL_ADD) with true. cbv iota.
  destruct (tbl !! fd) as [ev0|] eqn:E; [done|].
  destruct (Nat.leb_spec (World.max_user_watches k) (size tbl)); [done|].
  intros [= <-]. eauto 10.
Qed.

(** The state after a successful [_worker_client_add]. *)
Lemma _worker_client_add_0_inv src_fd trg_fd state peer w k w' k' :
  _worker_client_add src_fd trg_fd state peer (w, k) = Ok 0 (w', k') →
  ∃ tbl,
    World.epolls k !! Worker.event_fd w = Some tbl
    ∧ src_fd ∈ World.open_fds k ∧ tbl !! src_fd = None
    ∧ w' = alloc_slot (next_slot w)
             (added_client (next_slot w) src_fd trg_fd state peer
                (raw_slot w (next_slot w))) w
    ∧ k' = world_append
             (add_ok_trace (Worker.event_fd w) (next_slot w) src_fd)
             (World.set_epolls
                (<[Worker.event_fd w :=
                     <[src_fd := Event.mk EPOLLIN (Some (next_slot w))]> tbl]>
                   (World.epolls k)) k).
Proof.
  destruct (Nat.le_gt_cases (Mempool.max_slots (Worker.clients w))
              (size (Mempool.live (Worker.clients w)))) as [Hle|Hlt].
  { rewrite _worker_client_add_exhausted by exact Hle. discriminate. }
  destruct (epoll_ctl_table k (Worker.event_fd w) EPOLL_CTL_ADD src_fd
              (Event.mk EPOLLIN (Some (next_slot w)))) as [t'|] eqn:Hadd.
  - rewrite (_worker_client_add_Ok _ _ _ _ _ _ t') by assumption.
    destruct (epoll_ctl_table_add_inv _ _ _ _ _ Hadd)
      as (tbl & He & Ho & Ht & _ & ->).
    intros [= <- <-]. exists tbl. auto.
  - rewrite _worker_client_add_unregistered by assumption. discriminate.
Qed.

Lemma slot_alloc_slot_ne a b c w : a ≠ b → slot (alloc_slot a c w) b = slot w b.
Proof. unfold slot, alloc_slot. cbn. apply lookup_insert_ne. Qed.

Lemma is_live_alloc_slot a c w b :
  is_live (alloc_slot a c w) b ↔ b = a ∨ is_live w b.
Proof.
  unfold is_live, alloc_slot. cbn.
  rewrite elem_of_union, elem_of_singleton. tauto.
Qed.

(** A successful [_worker_client_add] with a null peer keeps the worker
    invariants. *)
Lemma _worker_client_add_keeps_inv src_fd trg_fd state w k w' k' :
  worker_inv w k →
  _worker_client_add src_fd trg_fd state None (w, k) = Ok 0 (w', k') →
  worker_inv w' k'
  ∧ (∀ b, is_live w' b ↔ b = next_slot w ∨ is_live w b)
  ∧ (∀ b, is_live w b → slot w' b = slot w b)
  ∧ (∃ c, slot w' (next_slot w) = Some c
          ∧ Client.state c = state ∧ Client.src_fd c = src_fd
          ∧ Client.trg_fd c = trg_fd ∧ Client.peer c = None
          ∧ Client.type c = _CLIENT_TYPE_HTTP
          ∧ Client.sent c = 0 ∧ Client.recvd c = 0)
  ∧ (∃ tbl, World.epolls k' !! Worker.event_fd w' = Some tbl
            ∧ tbl !! src_fd = Some (Event.mk EPOLLIN (Some (next_slot w)))).
Proof.
  intros [Hwf Hown] Hrun.
  destruct (_worker_client_add_0_inv _ _ _ _ _ _ _ _ Hrun)
    as (tbl & He & Ho & Ht & -> & ->).
  pose proof (next_slot_fresh w) as Hfresh.
  set (a := next_slot w) in *.
  set (rec := added_client a src_fd trg_fd state None (raw_slot w a)).
  assert (∀ b, is_live w b → b ≠ a) as Hne by (intros b Hb ->; done).
  assert (∀ b, is_live w b → slot (alloc_slot a rec w) b = slot w b) as Hsame.
  { intros b Hb. apply slot_alloc_slot_ne. apply not_eq_sym. auto. }
  assert (World.epolls
            (world_append (add_ok_trace (Worker.event_fd w) a src_fd)
               (World.set_epolls
                  (<[Worker.event_fd w :=
                       <[src_fd := Event.mk EPOLLIN (Some a)]> tbl]>
                     (World.epolls k)) k))
          !! Worker.event_fd w
          = Some (<[src_fd := Event.mk EPOLLIN (Some a)]> tbl)) as Htbl'.
  { cbn. apply lookup_insert_eq. }
  split; [split|].
  - (* well-formedness *)
    split.
    + intros b [->|Hb]%is_live_alloc_slot.
      * rewrite slot_alloc_slot_eq. eauto.
      * rewrite Hsame by done. by apply (wf_slot _ _ Hwf).
    + intros b c [->|Hb]%is_live_alloc_slot.
      * rewrite slot_alloc_slot_eq. intros [= <-]. reflexivity.
      * rewrite Hsame by done. by apply (wf_cookie _ _ Hwf).
    + intros b c [->|Hb]%is_live_alloc_slot.
      * rewrite slot_alloc_slot_eq. intros [= <-]. exact Ho.
      * rewrite Hsame by done. by apply (wf_open _ _ Hwf).
    + intros b c [->|Hb]%is_live_alloc_slot.
      * rewrite slot_alloc_slot_eq. intros [= <-].
        eexists _, _. split; [exact Htbl'|].
        split; [apply lookup_insert_eq | reflexivity].
      * rewrite Hsame by done. intros Hc.
        destruct (wf_registered _ _ Hwf b c Hb Hc) as (t & e & Ht' & He' & Hd).
        assert (t = tbl) as -> by congruence.
        eexists _, e. split; [exact Htbl'|].
        split; [|exact Hd].
        rewrite lookup_insert_ne; [exact He'|]. intros E. congruence.
    + intros b c d [->|Hb]%is_live_alloc_slot.
      * rewrite slot_alloc_slot_eq. intros [= <-]. discriminate.
      * rewrite Hsame by done. intros Hc Hd.
        destruct (wf_peer _ _ Hwf b c d Hb Hc Hd)
          as (Hdb & Hdl & cd & Hcd & Hdp).
        split; [done|]. split; [apply is_live_alloc_slot; auto|].
        exists cd. by rewrite Hsame.
  - (* ownership of the interest list *)
    intros t fd ev Ht'. change (Worker.event_fd (alloc_slot a rec w))
      with (Worker.event_fd w) in Ht'.
    rewrite Htbl' in Ht'. injection Ht' as <-.
    destruct (decide (src_fd = fd)) as [<-|Hfd].
    + rewrite lookup_insert_eq. intros [= <-].
      exists a, rec. split; [reflexivity|].
      split; [apply is_live_alloc_slot; auto|].
      split; [apply slot_alloc_slot_eq | reflexivity].
    + rewrite lookup_insert_ne by done. intros Hev.
      destruct (Hown tbl fd ev He Hev) as (b & c & Hd & Hb & Hc & Hfdc).
      exists b, c. split; [exact Hd|].
      split; [apply is_live_alloc_slot; auto|].
      split; [by rewrite Hsame | exact Hfdc].
  - split; [intros b; apply is_live_alloc_slot|].
    split; [exact Hsame|].
    split.
    + exists rec. split; [apply slot_alloc_slot_eq|]. repeat split.
    + eexists. split; [exact Htbl'|]. apply lookup_insert_eq.
Qed.

(** X2.  A successful [_worker_client_add] with a null peer keeps the
    worker invariants: the worker stays well formed and its interest list
    stays owned.  The new record is allocated, holds the requested state
    and descriptors, no peer and zeroed counters, and is registered for
    EPOLLIN with its own address as cookie; the records that were
    allocated before keep their memory. *)
Theorem X2_worker_client_add_keeps_invariants src_fd trg_fd state w k w' k' :
  worker_inv w k →
  _worker_client_add src_fd trg_fd state None (w, k) = Ok 0 (w', k') →
  worker_inv w' k'
  ∧ (∀ b, is_live w' b ↔ b = next_slot w ∨ is_live w b)
  ∧ (∀ b, is_live w b → slot w' b = slot w b)
  ∧ (∃ c, slot w' (next_slot w) = Some c
          ∧ Client.state c = state ∧ Client.src_fd c = src_fd
          ∧ Client.trg_fd c = trg_fd ∧ Client.peer c = None
          ∧ Client.type c = _CLIENT_TYPE_HTTP
          ∧ Client.sent c = 0 ∧ Client.recvd c = 0)
  ∧ (∃ tbl, World.epolls k' !! Worker.event_fd w' = Some tbl
            ∧ tbl !! src_fd = Some (Event.mk EPOLLIN (Some (next_slot w)))).
Proof. apply _worker_client_add_keeps_inv. Qed.

Lemma ex_idle_inv : worker_inv (ex_worker 0 6 8) ex_idle_world.
Proof.
  assert (∀ a, ¬ is_live (ex_worker 0 6 8) a) as Hnone.
  { intros a. unfold is_live, ex_worker. cbn. apply not_elem_of_empty. }
  split.
  - split; intros a; intros; exfalso; by eapply Hnone.
  - intros tbl fd ev Ht Hev. exfalso.
    unfold ex_idle_world in Ht. cbn in Ht.
    rewrite lookup_insert_eq in Ht. injection Ht as <-.
    by rewrite lookup_empty in Hev.
Qed.

(** An idle worker takes the connection on descriptor 20. *)
Lemma X2_witness :
  worker_inv (ex_worker 0 6 8) ex_idle_world
  ∧ ∃ w' k',
      _worker_client_add 20 (-1) _CLIENT_STATE_HEADER None
        (ex_worker 0 6 8, ex_idle_world) = Ok 0 (w', k')
      ∧ worker_inv w' k'.
Proof.
  split; [apply ex_idle_inv|].
  eexists _, _. split; [vm_compute; reflexivity|].
  refine (proj1 (X2_worker_client_add_keeps_invariants
                   20 (-1) _CLIENT_STATE_HEADER (ex_worker 0 6 8)
                   ex_idle_world _ _ ex_idle_inv _)).
  vm_compute. reflexivity.
Defined.

(** ** [_worker_client_del] *)

Lemma slot_unlinked_src_fd pl : Client.src_fd (unlinked pl) = Client.src_fd pl.
Proof. reflexivity. Qed.

(** Deleting an allocated record keeps the worker invariants and touches
    nothing but the record, its peer, and their two registrations. *)
Lemma _worker_client_del_keeps_inv w k a cl :
  worker_inv w k → is_live w a → slot w a = Some cl →
  ∃ w' k' es,
    _worker_client_del a (w, k) = Ok tt (w', k')
    ∧ worker_inv w' k'
    ∧ (∀ b, is_live w' b ↔ is_live w b ∧ b ≠ a)
    ∧ (∀ b, Client.peer cl ≠ Some b → slot w' b = slot w b)
    ∧ (∀ p pl, Client.peer cl = Some p → slot w p = Some pl →
               slot w' p = Some (unlinked pl))
    ∧ Worker.event_fd w' = Worker.event_fd w
    ∧ Mempool.max_slots (Worker.clients w')
      = Mempool.max_slots (Worker.clients w)
    ∧ World.open_fds k' = World.open_fds k ∖ {[Client.src_fd cl]}
    ∧ World.tx k' = World.tx k
    ∧ World.rx k' = delete (Client.src_fd cl) (World.rx k)
    ∧ World.accept_queue k' = World.accept_queue k
    ∧ World.trace k' = World.trace k ++ es ++ [EMempoolFree a]
    ∧ (∀ tbl, World.epolls k !! Worker.event_fd w = Some tbl →
         ∃ tbl', World.epolls k' !! Worker.event_fd w = Some tbl'
                 ∧ tbl' !! Client.src_fd cl = None
                 ∧ ∀ fd, fd ≠ Client.src_fd cl →
                     (∀ p pl, Client.peer cl = Some p → slot w p = Some pl →
                              fd ≠ Client.src_fd pl) →
                     tbl' !! fd = tbl !! fd).
Proof.
  intros [Hwf Hown] Ha Hcl.
  destruct (wf_registered _ _ Hwf a cl Ha Hcl) as (tbl & e1 & Ht & He1 & _).
  assert (∀ b c, is_live w b → slot w b = Some c → b ≠ a →
                 Client.src_fd c ≠ Client.src_fd cl) as Hfda.
  { intros b c Hb Hc Hba E. apply Hba. eapply (wf_fd_inj w k b a); eauto. }
  destruct (Client.peer cl) as [p|] eqn:Hpeer.
  - destruct (wf_peer _ _ Hwf a cl p Ha Hcl Hpeer)
      as (Hne & Hp & pl & Hpl & Hpa).
    pose proof (wf_cookie _ _ Hwf p pl Hp Hpl) as Hck.
    eexists _, _, _. split; [by eapply _worker_client_del_paired|].
    split; [split|].
    + by eapply worker_wf_del_paired.
    + (* ownership *)
      intros t fd ev. cbn [Worker.event_fd free_slot set_slot Worker.set_clients].
      rewrite del_world_table. intros [= <-]. unfold del_table.
      destruct (decide (fd = Client.src_fd cl)) as [->|Hfd].
      { by rewrite lookup_delete_eq. }
      rewrite lookup_delete_ne by done.
      destruct (decide (fd = Client.src_fd pl)) as [->|Hfdp].
      * rewrite lookup_insert_eq. intros [= <-].
        exists p, (unlinked pl). split; [exact Hck|].
        split; [by apply is_live_free_slot|].
        split; [rewrite slot_free_slot; apply slot_set_slot_eq | reflexivity].
      * rewrite lookup_insert_ne by done. intros Hev.
        destruct (Hown tbl fd ev Ht Hev) as (b & c & Hd & Hb & Hc & Hfdc).
        assert (b ≠ a) as Hba by (intros ->; congruence).
        assert (b ≠ p) as Hbp by (intros ->; congruence).
        exists b, c. split; [exact Hd|].
        split; [by apply is_live_free_slot|].
        split; [|exact Hfdc].
        rewrite slot_free_slot, slot_set_slot_ne by done. exact Hc.
    + split; [intros b; rewrite is_live_free_slot; reflexivity|].
      split.
      { intros b Hb. rewrite slot_free_slot. apply slot_set_slot_ne.
        congruence. }
      split.
      { intros p' pl' [= <-] Hpl'. rewrite Hpl in Hpl'. injection Hpl' as <-.
        rewrite slot_free_slot. apply slot_set_slot_eq. }
      split; [reflexivity|]. split; [reflexivity|]. split; [reflexivity|].
      split; [reflexivity|]. split; [reflexivity|]. split; [reflexivity|].
      split.
      { rewrite del_world_trace. f_equal.
        unfold del_paired_trace, del_peer_trace, del_self_trace.
        instantiate (1 := [_; _; _; _; _; _; _; _; _; _; _; _; _]).
        reflexivity. }
      intros t Ht'. assert (t = tbl) as -> by congruence.
      eexists. split; [apply del_world_table|]. unfold del_table.
      split; [apply lookup_delete_eq|].
      intros fd Hfd Hfdp. rewrite lookup_delete_ne by done.
      apply lookup_insert_ne. apply not_eq_sym. by apply (Hfdp p pl).
  - eexists _, _, _. split; [by eapply _worker_client_del_single|].
    split; [split|].
    + by eapply worker_wf_del_single.
    + intros t fd ev. cbn [Worker.event_fd free_slot Worker.set_clients].
      rewrite del_world_table. intros [= <-]. unfold del_table.
      destruct (decide (fd = Client.src_fd cl)) as [->|Hfd].
      { by rewrite lookup_delete_eq. }
      rewrite lookup_delete_ne by done. intros Hev.
      destruct (Hown tbl fd ev Ht Hev) as (b & c & Hd & Hb & Hc & Hfdc).
      assert (b ≠ a) as Hba by (intros ->; congruence).
      exists b, c. split; [exact Hd|].
      split; [by apply is_live_free_slot|].
      split; [|exact Hfdc]. by rewrite slot_free_slot.
    + split; [intros b; apply is_live_free_slot|].
      split; [intros b _; apply slot_free_slot|].
      split; [intros p' pl' [=]|].
      split; [reflexivity|]. split; [reflexivity|]. split; [reflexivity|].
      split; [reflexivity|]. split; [reflexivity|]. split; [reflexivity|].
      split.
      { rewrite del_world_trace. f_equal.
        unfold del_single_trace, del_self_trace.
        instantiate (1 := [_; _; _; _; _; _; _]).
        reflexivity. }
      intros t Ht'. assert (t = tbl) as -> by congruence.
      eexists. split; [apply del_world_table|]. unfold del_table.
      split; [apply lookup_delete_eq|].
      intros fd Hfd _. by rewrite lookup_delete_ne.
Qed.

(** X3.  In a worker that satisfies the invariants, [_worker_client_del]
    of an allocated record returns without aborting and keeps the
    invariants.  It releases exactly that record and closes exactly its
    descriptor; its peer, if it has one, is left in state STOP with a null
    peer and an interest mask of EPOLLIN | EPOLLOUT.  The bytes that were
    waiting on the closed descriptor are discarded with it.  The memory of
    every other record, the event descriptor, the capacity of the slab,
    the bytes written to the sockets, the bytes waiting on every other
    socket and the accept queue are untouched, and in the interest list
    only the entries of the record and of its peer change. *)
Theorem X3_worker_client_del_keeps_invariants w k a cl :
  worker_inv w k → is_live w a → slot w a = Some cl →
  ∃ w' k' es,
    _worker_client_del a (w, k) = Ok tt (w', k')
    ∧ worker_inv w' k'
    ∧ (∀ b, is_live w' b ↔ is_live w b ∧ b ≠ a)
    ∧ (∀ b, Client.peer cl ≠ Some b → slot w' b = slot w b)
    ∧ (∀ p pl, Client.peer cl = Some p → slot w p = Some pl →
               slot w' p = Some (unlinked pl))
    ∧ Worker.event_fd w' = Worker.event_fd w
    ∧ Mempool.max_slots (Worker.clients w')
      = Mempool.max_slots (Worker.clients w)
    ∧ World.open_fds k' = World.open_fds k ∖ {[Client.src_fd cl]}
    ∧ World.tx k' = World.tx k
    ∧ World.rx k' = delete (Client.src_fd cl) (World.rx k)
    ∧ World.accept_queue k' = World.accept_queue k
    ∧ World.trace k' = World.trace k ++ es ++ [EMempoolFree a]
    ∧ (∀ tbl, World.epolls k !! Worker.event_fd w = Some tbl →
         ∃ tbl', World.epolls k' !! Worker.event_fd w = Some tbl'
                 ∧ tbl' !! Client.src_fd cl = None
                 ∧ ∀ fd, fd ≠ Client.src_fd cl →
                     (∀ p pl, Client.peer cl = Some p → slot w p = Some pl →
                              fd ≠ Client.src_fd pl) →
                     tbl' !! fd = tbl !! fd).
Proof. apply _worker_client_del_keeps_inv. Qed.

Lemma ex_pair_inv : worker_inv ex_pair_worker ex_pair_world.
Proof.
  split; [apply ex_pair_wf|].
  intros tbl fd ev Ht Hev. unfold ex_pair_world in Ht. cbn in Ht.
  rewrite lookup_singleton_eq in Ht. injection Ht as <-.
  assert (is_live ex_pair_worker 1%positive ∧ is_live ex_pair_worker 2%positive)
    as [H1 H2].
  { unfold is_live, ex_pair_worker. cbn.
    rewrite !elem_of_union, !elem_of_singleton. auto. }
  destruct (decide (fd = 10)) as [->|H10].
  { rewrite lookup_insert_eq in Hev. injection Hev as <-.
    exists 1%positive, (ex_client 10 1 2 _CLIENT_STATE_FORWARD_ALL "ping").
    split; [reflexivity|]. split; [exact H1|]. split; reflexivity. }
  rewrite lookup_insert_ne in Hev by done.
  destruct (decide (fd = 11)) as [->|H11].
  { rewrite lookup_insert_eq in Hev. injection Hev as <-.
    exists 2%positive, (ex_client 11 2 1 _CLIENT_STATE_FORWARD_ALL "pong").
    split; [reflexivity|]. split; [exact H2|]. split; reflexivity. }
  rewrite lookup_insert_ne in Hev by done. by rewrite lookup_empty in Hev.
Qed.

Lemma ex_pair_live1 : is_live ex_pair_worker 1%positive.
Proof.
  unfold is_live, ex_pair_worker. cbn.
  rewrite !elem_of_union, !elem_of_singleton. auto.
Qed.

(** The first record of the example pair. *)
Lemma X3_witness :
  (worker_inv ex_pair_worker ex_pair_world
   ∧ is_live ex_pair_worker 1%positive)
  ∧ ∃ w' k',
      _worker_client_del 1%positive (ex_pair_worker, ex_pair_world)
      = Ok tt (w', k')
      ∧ worker_inv w' k'
      ∧ World.rx ex_pair_world !! 10 = Some "hello"%string
      ∧ World.rx k' !! 10 = None.
Proof.
  split; [split; [apply ex_pair_inv | apply ex_pair_live1]|].
  destruct (X3_worker_client_del_keeps_invariants
              ex_pair_worker ex_pair_world 1%positive
              (ex_client 10 1 2 _CLIENT_STATE_FORWARD_ALL "ping")
              ex_pair_inv ex_pair_live1 eq_refl)
    as (w' & k' & es & Hrun & Hinv & _ & _ & _ & _ & _ & _ & _ & Hrx & _).
  exists w', k'. split; [exact Hrun|]. split; [exact Hinv|].
  split; [reflexivity|]. rewrite Hrx. apply lookup_delete_eq.
Defined.

(** ** [_worker_handle_client_state] *)

Lemma Client_set_state_id c : Client.set_state (Client.state c) c = c.
Proof. by destruct c. Qed.

Lemma set_slot_id a c w : slot w a = Some c → set_slot a c w = w.
Proof.
  unfold slot, set_slot, Worker.set_clients.
  destruct w as [i al efd [sl lv mx]]. cbn. intros H.
  by rewrite insert_id.
Qed.

Lemma client_state_switch_other st a s :
  ¬ (0 ≤ st ≤ 5) → client_state_switch st a s = Ok st s.
Proof.
  intros H. unfold client_state_switch.
  unfold _CLIENT_STATE_HEADER, _CLIENT_STATE_RESOLVER, _CLIENT_STATE_CONNECT,
    _CLIENT_STATE_RESPONSE, _CLIENT_STATE_FORWARD_HEADER,
    _CLIENT_STATE_FORWARD_ALL.
  destruct (Z.eqb_spec st 0) as [->|_]; [lia|].
  destruct (Z.eqb_spec st 1) as [->|_]; [lia|].
  destruct (Z.eqb_spec st 2) as [->|_]; [lia|].
  destruct (Z.eqb_spec st 3) as [->|_]; [lia|].
  destruct (Z.eqb_spec st 4) as [->|_]; [lia|].
  destruct (Z.eqb_spec st 5) as [->|_]; [lia|].
  reflexivity.
Qed.

(** Dispatch for a record whose state is none of the enumerators. *)
Lemma _worker_handle_client_state_noop w k a cl :
  slot w a = Some cl →
  ¬ (0 ≤ Client.state cl ≤ 6) →
  _worker_handle_client_state a (w, k)
  = Ok tt (w, world_append [ELoad a F_state; EStore a F_state] k).
Proof.
  intros Hcl Hst. unfold _worker_handle_client_state.
  erewrite bind_Ok by (apply load_Ok; eassumption).
  erewrite bind_Ok by (apply client_state_switch_other; lia).
  destruct (Z.eqb_spec (Client.state cl) _CLIENT_STATE_STOP) as [E|_].
  { unfold _CLIENT_STATE_STOP in E. lia. }
  erewrite bind_Ok by reflexivity.
  erewrite store_Ok by eassumption.
  rewrite Client_set_state_id, set_slot_id by assumption.
  apply Ok_eq; [reflexivity | world_eq].
Qed.

(** X4.  A readiness event for a record whose state is none of the seven
    enumerators is a no-op: no handler runs, the record is not deleted,
    its state is read and written back unchanged, and neither the worker
    nor the kernel changes. *)
Theorem X4_dispatch_unknown_state_is_noop w k a cl :
  slot w a = Some cl →
  ¬ (0 ≤ Client.state cl ≤ 6) →
  _worker_handle_client_state a (w, k)
  = Ok tt (w, world_append [ELoad a F_state; EStore a F_state] k).
Proof. apply _worker_handle_client_state_noop. Qed.

(** A record with state 9. *)
Lemma X4_witness :
  (slot ex_unknown_worker 1%positive = Some (ex_client 10 1 2 9 EmptyString)
   ∧ ¬ (0 ≤ Client.state (ex_client 10 1 2 9 EmptyString) ≤ 6))
  ∧ _worker_handle_client_state 1%positive (ex_unknown_worker, ex_pair_world)
    = Ok tt (ex_unknown_worker,
             world_append [ELoad 1%positive F_state; EStore 1%positive F_state]
               ex_pair_world).
Proof.
  assert (¬ (0 ≤ Client.state (ex_client 10 1 2 9 EmptyString) ≤ 6)) as Hst.
  { cbn. lia. }
  split; [split; [reflexivity | exact Hst]|].
  exact (X4_dispatch_unknown_state_is_noop
           ex_unknown_worker ex_pair_world 1%positive
           (ex_client 10 1 2 9 EmptyString) eq_refl Hst).
Defined.

Lemma worker_inv_log w k e : worker_inv w k → worker_inv w (World.log e k).
Proof.
  intros [Hwf Hown]. split; [by apply worker_wf_log|].
  intros tbl fd ev Ht Hev. exact (Hown tbl fd ev Ht Hev).
Qed.

Lemma worker_inv_append w k es : worker_inv w k → worker_inv w (world_append es k).
Proof.
  intros [[H1 H2 H3 H4 H5] Hown]. split; [split; assumption|].
  intros tbl fd ev Ht Hev. exact (Hown tbl fd ev Ht Hev).
Qed.

(** A store into a slot that is not allocated does not disturb the
    invariants. *)
Lemma worker_inv_set_slot_dead w k a c :
  worker_inv w k → ¬ is_live w a → worker_inv (set_slot a c w) k.
Proof.
  intros [Hwf Hown] Hdead.
  assert (∀ b, is_live w b → slot (set_slot a c w) b = slot w b) as Hsame.
  { intros b Hb. apply slot_set_slot_ne. intros ->. done. }
  split; [split|].
  - intros b Hb. rewrite Hsame by exact Hb. by apply (wf_slot _ _ Hwf).
  - intros b cb Hb. rewrite Hsame by exact Hb. by apply (wf_cookie _ _ Hwf).
  - intros b cb Hb. rewrite Hsame by exact Hb. by apply (wf_open _ _ Hwf).
  - intros b cb Hb. rewrite Hsame by exact Hb.
    by apply (wf_registered _ _ Hwf).
  - intros b cb d Hb. rewrite Hsame by exact Hb. intros Hc Hd.
    destruct (wf_peer _ _ Hwf b cb d Hb Hc Hd) as (Hdb & Hdl & cd & Hcd & Hdp).
    split; [done|]. split; [exact Hdl|]. exists cd. by rewrite Hsame.
  - intros tbl fd ev Ht Hev.
    destruct (Hown tbl fd ev Ht Hev) as (b & cb & Hd & Hb & Hc & Hfd).
    exists b, cb. split; [exact Hd|]. split; [exact Hb|].
    split; [by rewrite Hsame | exact Hfd].
Qed.

(** Dispatch for an allocated record in one of the seven states: the
    record is deleted, and the store that follows lands in its released
    slot. *)
Lemma _worker_handle_client_state_keeps_inv w k a cl :
  worker_inv w k → is_live w a → slot w a = Some cl →
  0 ≤ Client.state cl ≤ 6 →
  ∃ w' k',
    _worker_handle_client_state a (w, k) = Ok tt (w', k')
    ∧ worker_inv w' k'
    ∧ (∀ b, is_live w' b ↔ is_live w b ∧ b ≠ a)
    ∧ (∀ b, b ≠ a → Client.peer cl ≠ Some b → slot w' b = slot w b)
    ∧ (∀ p pl, Client.peer cl = Some p → slot w p = Some pl →
               slot w' p = Some (unlinked pl))
    ∧ Worker.event_fd w' = Worker.event_fd w
    ∧ Mempool.max_slots (Worker.clients w')
      = Mempool.max_slots (Worker.clients w)
    ∧ World.open_fds k' = World.open_fds k ∖ {[Client.src_fd cl]}
    ∧ World.tx k' = World.tx k
    ∧ World.rx k' = delete (Client.src_fd cl) (World.rx k)
    ∧ World.accept_queue k' = World.accept_queue k
    ∧ (∀ tbl, World.epolls k !! Worker.event_fd w = Some tbl →
         ∃ tbl', World.epolls k' !! Worker.event_fd w = Some tbl'
                 ∧ tbl' !! Client.src_fd cl = None
                 ∧ ∀ fd, fd ≠ Client.src_fd cl →
                     (∀ p pl, Client.peer cl = Some p → slot w p = Some pl →
                              fd ≠ Client.src_fd pl) →
                     tbl' !! fd = tbl !! fd).
Proof.
  intros Hinv Ha Hcl Hst.
  destruct (_worker_client_del_keeps_inv w (World.log (ELoad a F_state) k)
              a cl (worker_inv_log _ _ _ Hinv) Ha Hcl)
    as (w1 & k1 & es & Hdel & Hinv1 & Hlive & Hsame & Hpeer & Hefd & Hmax
        & Hopen & Htx & Hrx & Hq & Htr & Htbl).
  assert (slot w1 a = Some cl) as Hcl1.
  { rewrite Hsame; [exact Hcl|].
    intros E. destruct Hinv as [Hwf _].
    by destruct (wf_peer _ _ Hwf a cl a Ha Hcl E) as (Hne & _). }
  assert (¬ is_live w1 a) as Hdead by (rewrite Hlive; tauto).
  eexists _, _. split.
  { unfold _worker_handle_client_state.
    erewrite bind_Ok by (apply load_Ok; eassumption).
    erewrite bind_Ok by (apply client_state_switch_stop; assumption).
    change (_CLIENT_STATE_STOP =? _CLIENT_STATE_STOP) with true. cbv iota.
    erewrite bind_Ok by exact Hdel.
    apply store_Ok. exact Hcl1. }
  split.
  { apply worker_inv_log. by apply worker_inv_set_slot_dead. }
  split; [exact Hlive|].
  split.
  { intros b Hba Hb. rewrite slot_set_slot_ne by (by apply not_eq_sym).
    by apply Hsame. }
  split.
  { intros p pl Hp Hpl.
    assert (p ≠ a) as Hpa.
    { destruct Hinv as [Hwf _].
      by destruct (wf_peer _ _ Hwf a cl p Ha Hcl Hp) as (Hne & _). }
    rewrite slot_set_slot_ne by (by apply not_eq_sym). by eapply Hpeer. }
  split; [exact Hefd|]. split; [exact Hmax|]. split; [exact Hopen|].
  split; [exact Htx|]. split; [exact Hrx|]. split; [exact Hq|].
  exact Htbl.
Qed.

(** X5.  In a worker that satisfies the invariants,
    [_worker_handle_client_state] for an allocated record returns without
    aborting and keeps the invariants, whatever the state of the record.
    If the state is one of the seven enumerators the record is released
    and its descriptor closed; otherwise the worker is unchanged.  The
    bytes written to the sockets are never touched. *)
Theorem X5_dispatch_keeps_invariants w k a cl :
  worker_inv w k → is_live w a → slot w a = Some cl →
  ∃ w' k',
    _worker_handle_client_state a (w, k) = Ok tt (w', k')
    ∧ worker_inv w' k'
    ∧ World.tx k' = World.tx k
    ∧ (0 ≤ Client.state cl ≤ 6 →
       (∀ b, is_live w' b ↔ is_live w b ∧ b ≠ a)
       ∧ World.open_fds k' = World.open_fds k ∖ {[Client.src_fd cl]})
    ∧ (¬ (0 ≤ Client.state cl ≤ 6) →
       w' = w ∧ World.open_fds k' = World.open_fds k
       ∧ World.epolls k' = World.epolls k).
Proof.
  intros Hinv Ha Hcl.
  destruct (decide (0 ≤ Client.state cl ≤ 6)) as [Hst|Hst].
  - destruct (_worker_handle_client_state_keeps_inv w k a cl Hinv Ha Hcl Hst)
      as (w' & k' & Hrun & Hinv' & Hlive & _ & _ & _ & _ & Hopen & Htx & _).
    exists w', k'. split; [exact Hrun|]. split; [exact Hinv'|].
    split; [exact Htx|]. split; [auto|]. intros Hn. contradiction.
  - eexists _, _.
    split; [by apply (_worker_handle_client_state_noop w k a cl)|].
    split; [by apply worker_inv_append|].
    split; [reflexivity|]. split; [intros Hy; contradiction|].
    intros _. split; [reflexivity|]. split; reflexivity.
Qed.

(** The first record of the example pair. *)
Lemma X5_witness :
  (worker_inv ex_pair_worker ex_pair_world
   ∧ is_live ex_pair_worker 1%positive)
  ∧ ∃ w' k',
      _worker_handle_client_state 1%positive (ex_pair_worker, ex_pair_world)
      = Ok tt (w', k')
      ∧ worker_inv w' k'.
Proof.
  split; [split; [apply ex_pair_inv | apply ex_pair_live1]|].
  destruct (X5_dispatch_keeps_invariants
              ex_pair_worker ex_pair_world 1%positive
              (ex_client 10 1 2 _CLIENT_STATE_FORWARD_ALL "ping")
              ex_pair_inv ex_pair_live1 eq_refl)
    as (w' & k' & Hrun & Hinv & _).
  exists w', k'. split; [exact Hrun | exact Hinv].
Defined.

(** ** A connection from [_worker_client_add] to its first event *)

(** X6.  Round trip.  A record added by [_worker_client_add] (null peer,
    one of the seven states) and then dispatched once is gone without a
    trace in the worker: the set of allocated records, the memory of the
    records that were allocated before, and the worker's interest list
    are what they were before the add; the descriptor of the connection
    is closed, and no byte was written to any socket. *)
Theorem X6_add_then_dispatch_restores_worker
    src_fd trg_fd state w k w1 k1 :
  worker_inv w k → 0 ≤ state ≤ 6 →
  _worker_client_add src_fd trg_fd state None (w, k) = Ok 0 (w1, k1) →
  ∃ w2 k2,
    _worker_handle_client_state (next_slot w) (w1, k1) = Ok tt (w2, k2)
    ∧ worker_inv w2 k2
    ∧ Mempool.live (Worker.clients w2) = Mempool.live (Worker.clients w)
    ∧ (∀ b, is_live w b → slot w2 b = slot w b)
    ∧ World.epolls k2 !! Worker.event_fd w
      = World.epolls k !! Worker.event_fd w
    ∧ World.open_fds k2 = World.open_fds k ∖ {[src_fd]}
    ∧ World.tx k2 = World.tx k.
Proof.
  intros Hinv Hst Hadd.
  destruct (_worker_client_add_keeps_inv _ _ _ _ _ _ _ Hinv Hadd)
    as (Hinv1 & Hlive1 & Hsame1 & (c & Hc & Hcst & Hcfd & _ & Hcpeer & _)
        & (tbl1 & Htbl1 & Hev1)).
  destruct (_worker_client_add_0_inv _ _ _ _ _ _ _ _ Hadd)
    as (tbl & He & Ho & Ht & Hw1 & Hk1).
  pose proof (next_slot_fresh w) as Hfresh.
  set (a := next_slot w) in *.
  assert (is_live w1 a) as Ha1 by (apply Hlive1; auto).
  assert (Worker.event_fd w1 = Worker.event_fd w) as Hefd1
    by (rewrite Hw1; reflexivity).
  assert (tbl1 = <[src_fd := Event.mk EPOLLIN (Some a)]> tbl) as ->.
  { rewrite Hefd1, Hk1 in Htbl1. cbn in Htbl1.
    rewrite lookup_insert_eq in Htbl1. congruence. }
  destruct (_worker_handle_client_state_keeps_inv w1 k1 a c Hinv1 Ha1 Hc)
    as (w2 & k2 & Hrun & Hinv2 & Hlive2 & Hsame2 & _ & Hefd2 & _ & Hopen2
        & Htx2 & _ & _ & Htbl2).
  { by rewrite Hcst. }
  exists w2, k2. split; [exact Hrun|]. split; [exact Hinv2|].
  split.
  { apply set_eq. intros b.
    change (is_live w2 b ↔ is_live w b).
    rewrite Hlive2, Hlive1. split.
    - intros [[->|Hb] Hne]; [done | exact Hb].
    - intros Hb. split; [auto|]. intros ->. done. }
  split.
  { intros b Hb. rewrite Hsame2.
    - by apply Hsame1.
    - intros ->. done.
    - rewrite Hcpeer. discriminate. }
  split.
  { rewrite Hefd1 in Htbl2, Htbl1. destruct (Htbl2 _ Htbl1)
      as (tbl2 & Ht2 & Hnone & Hrest).
    rewrite Ht2, He. f_equal. apply map_eq. intros fd.
    rewrite Hcfd in Hnone, Hrest.
    destruct (decide (fd = src_fd)) as [->|Hfd]; [congruence|].
    rewrite Hrest.
    - by apply lookup_insert_ne.
    - exact Hfd.
    - intros p pl Hp. rewrite Hcpeer in Hp. discriminate Hp. }
  split.
  { rewrite Hopen2, Hcfd, Hk1. reflexivity. }
  rewrite Htx2, Hk1. reflexivity.
Qed.

(** The idle worker takes the connection on descriptor 20 and gets its
    first event. *)
Lemma X6_witness :
  (worker_inv (ex_worker 0 6 8) ex_idle_world
   ∧ 0 ≤ _CLIENT_STATE_HEADER ≤ 6)
  ∧ ∃ w1 k1 w2 k2,
      _worker_client_add 20 (-1) _CLIENT_STATE_HEADER None
        (ex_worker 0 6 8, ex_idle_world) = Ok 0 (w1, k1)
      ∧ _worker_handle_client_state (next_slot (ex_worker 0 6 8)) (w1, k1)
        = Ok tt (w2, k2)
      ∧ Mempool.live (Worker.clients w2)
        = Mempool.live (Worker.clients (ex_worker 0 6 8)).
Proof.
  assert (0 ≤ _CLIENT_STATE_HEADER ≤ 6) as Hst
    by (unfold _CLIENT_STATE_HEADER; lia).
  split; [split; [apply ex_idle_inv | exact Hst]|].
  pose (s1 := outcome_state
                (_worker_client_add 20 (-1) _CLIENT_STATE_HEADER None
                   (ex_worker 0 6 8, ex_idle_world))).
  assert (_worker_client_add 20 (-1) _CLIENT_STATE_HEADER None
            (ex_worker 0 6 8, ex_idle_world) = Ok 0 (fst s1, snd s1)) as Hadd
    by (vm_compute; reflexivity).
  destruct (X6_add_then_dispatch_restores_worker
              20 (-1) _CLIENT_STATE_HEADER (ex_worker 0 6 8) ex_idle_world
              _ _ ex_idle_inv Hst Hadd)
    as (w2 & k2 & Hrun & _ & Hlive & _).
  exists (fst s1), (snd s1), w2, k2.
  split; [exact Hadd|]. split; [exact Hrun | exact Hlive].
Defined.

(** ** The worker thread *)

Lemma states_known_step w k a cl w' :
  worker_inv w k → states_known w → is_live w a → slot w a = Some cl →
  (∀ b, is_live w' b ↔ is_live w b ∧ b ≠ a) →
  (∀ b, b ≠ a → Client.peer cl ≠ Some b → slot w' b = slot w b) →
  (∀ p pl, Client.peer cl = Some p → slot w p = Some pl →
           slot w' p = Some (unlinked pl)) →
  states_known w'
  ∧ ∀ b c, b ≠ a → slot w b = Some c → is_live w b →
           ∃ c', slot w' b = Some c' ∧ Client.src_fd c' = Client.src_fd c.
Proof.
  intros [Hwf _] Hst Ha Hcl Hlive Hsame Hpeer.
  assert (∀ b c, b ≠ a → slot w b = Some c → is_live w b →
            slot w' b = Some c ∨ slot w' b = Some (unlinked c)) as Hcases.
  { intros b c Hba Hc Hb.
    destruct (decide (Client.peer cl = Some b)) as [E|E].
    - right. by eapply Hpeer.
    - left. rewrite Hsame by done. exact Hc. }
  split.
  - intros b c' [Hb Hba]%Hlive Hc'.
    destruct (wf_slot _ _ Hwf b Hb) as [c Hc].
    destruct (Hcases b c Hba Hc Hb) as [E|E]; rewrite E in Hc';
      injection Hc' as <-.
    + by apply (Hst b).
    + cbn. unfold _CLIENT_STATE_STOP. lia.
  - intros b c Hba Hc Hb.
    destruct (Hcases b c Hba Hc Hb) as [E|E]; eauto.
Qed.

(** A list of distinct allocated records, dispatched one after the
    other. *)
Lemma dispatch_events_clients l : ∀ w k,
  worker_inv w k → states_known w → NoDup l → (∀ a, a ∈ l → is_live w a) →
  ∃ w' k',
    dispatch_events (Some <$> l) (w, k) = Ok tt (w', k')
    ∧ worker_inv w' k' ∧ states_known w'
    ∧ (∀ b, is_live w' b ↔ is_live w b ∧ b ∉ l)
    ∧ Worker.event_fd w' = Worker.event_fd w
    ∧ World.open_fds k' = World.open_fds k ∖ list_to_set (owned_fds w l)
    ∧ World.tx k' = World.tx k
    ∧ (∀ b c, is_live w b → b ∉ l → slot w b = Some c →
              ∃ c', slot w' b = Some c'
                    ∧ Client.src_fd c' = Client.src_fd c).
Proof.
  induction l as [|a l IH]; intros w k Hinv Hst Hnd Hall.
  - exists w, k. split; [reflexivity|]. split; [exact Hinv|].
    split; [exact Hst|]. split.
    { intros b. rewrite elem_of_nil. tauto. }
    split; [reflexivity|]. split; [|split; [reflexivity | eauto]].
    cbn. apply set_eq. intros fd.
    rewrite elem_of_difference, elem_of_empty. tauto.
  - apply NoDup_cons in Hnd as [Hnotin Hnd].
    assert (is_live w a) as Ha by (apply Hall; left).
    destruct (wf_slot _ _ (proj1 Hinv) a Ha) as [cl Hcl].
    destruct (_worker_handle_client_state_keeps_inv w k a cl Hinv Ha Hcl
                (Hst a cl Ha Hcl))
      as (w1 & k1 & Hrun & Hinv1 & Hlive1 & Hsame1 & Hpeer1 & Hefd1 & _
          & Hopen1 & Htx1 & _).
    destruct (states_known_step w k a cl w1 Hinv Hst Ha Hcl Hlive1 Hsame1
                Hpeer1) as (Hst1 & Hfd1).
    destruct (IH w1 k1 Hinv1 Hst1 Hnd)
      as (w' & k' & Hrest & Hinv' & Hst' & Hlive' & Hefd' & Hopen' & Htx'
          & Hfd').
    { intros b Hb. apply Hlive1. split; [apply Hall; by right|].
      intros ->. done. }
    exists w', k'. split.
    { cbn [fmap list_fmap dispatch_events].
      erewrite bind_Ok by exact Hrun. exact Hrest. }
    split; [exact Hinv'|]. split; [exact Hst'|]. split.
    { intros b. rewrite Hlive', Hlive1, not_elem_of_cons. tauto. }
    split; [congruence|].
    split; [|split; [congruence|]].
    2:{ intros b c Hb [Hba Hbl]%not_elem_of_cons Hc.
        destruct (Hfd1 b c Hba Hc Hb) as (c1 & Hc1 & E1).
        destruct (Hfd' b c1) as (c' & Hc' & E'); [|exact Hbl|exact Hc1|].
        { apply Hlive1. auto. }
        exists c'. split; [exact Hc' | congruence]. }
    rewrite Hopen', Hopen1.
    assert (owned_fds w1 l = owned_fds w l) as ->.
    { unfold owned_fds. clear -Hfd1 Hnotin Hall Hinv.
      induction l as [|b l IHl]; [reflexivity|].
      assert (b ≠ a) as Hba by (intros ->; apply Hnotin; left).
      assert (is_live w b) as Hb by (apply Hall; right; left).
      destruct (wf_slot _ _ (proj1 Hinv) b Hb) as [c Hc].
      destruct (Hfd1 b c Hba Hc Hb) as (c' & Hc' & Hfd).
      cbn. rewrite Hc, Hc'. cbn. rewrite Hfd. f_equal.
      apply IHl.
      - intros E. apply Hnotin. by right.
      - intros x Hx. apply Hall. apply elem_of_cons in Hx as [->|Hx];
          [left | right; by right]. }
    unfold owned_fds at 2. cbn. rewrite Hcl. cbn.
    apply set_eq. intros fd.
    rewrite !elem_of_difference, elem_of_union, elem_of_singleton. tauto.
Qed.

Lemma elem_of_ready_clients w k fds a :
  worker_inv w k →
  a ∈ ready_clients k (Worker.event_fd w) fds
  ↔ is_live w a ∧ ∃ c, slot w a = Some c ∧ Client.src_fd c ∈ fds.
Proof.
  intros [Hwf Hown]. unfold ready_clients.
  destruct (World.epolls k !! Worker.event_fd w) as [tbl|] eqn:He.
  - rewrite list_elem_of_omap. split.
    + intros (fd & Hfd & Hck).
      destruct (tbl !! fd) as [ev|] eqn:Hev; [|discriminate].
      cbn in Hck.
      destruct (Hown tbl fd ev He Hev) as (b & c & Hd & Hb & Hc & Hfdc).
      assert (b = a) as -> by congruence.
      split; [exact Hb|]. exists c. split; [exact Hc|]. by rewrite Hfdc.
    + intros (Ha & c & Hc & Hfd).
      destruct (wf_registered _ _ Hwf a c Ha Hc) as (t & ev & Ht & Hev & Hd).
      assert (t = tbl) as -> by congruence.
      exists (Client.src_fd c). split; [exact Hfd|]. rewrite Hev. exact Hd.
  - rewrite elem_of_nil. split; [tauto|].
    intros (Ha & c & Hc & _).
    destruct (wf_registered _ _ Hwf a c Ha Hc) as (t & ev & Ht & _).
    congruence.
Qed.

Lemma epoll_wait_events_clients w k fds :
  worker_inv w k →
  epoll_wait_events k (Worker.event_fd w) fds
  = Some <$> ready_clients k (Worker.event_fd w) fds.
Proof.
  intros [_ Hown]. unfold epoll_wait_events, ready_clients.
  destruct (World.epolls k !! Worker.event_fd w) as [tbl|] eqn:He;
    [|reflexivity].
  induction fds as [|fd fds IH]; [reflexivity|].
  cbn. destruct (tbl !! fd) as [ev|] eqn:Hev; cbn; [|exact IH].
  destruct (Hown tbl fd ev He Hev) as (b & c & Hd & _).
  rewrite Hd. cbn. by rewrite IH.
Qed.

Lemma NoDup_ready_clients w k fds :
  worker_inv w k → NoDup fds →
  NoDup (ready_clients k (Worker.event_fd w) fds).
Proof.
  intros [Hwf Hown] Hnd. unfold ready_clients.
  destruct (World.epolls k !! Worker.event_fd w) as [tbl|] eqn:He;
    [|apply NoDup_nil_2].
  induction Hnd as [|fd fds Hnotin Hnd IH]; [apply NoDup_nil_2|].
  cbn. destruct (tbl !! fd) as [ev|] eqn:Hev; cbn; [|exact IH].
  destruct (Hown tbl fd ev He Hev) as (b & c & Hd & Hb & Hc & Hfdc).
  rewrite Hd. cbn. apply NoDup_cons. split; [|exact IH].
  rewrite list_elem_of_omap. intros (fd' & Hfd' & Hck).
  destruct (tbl !! fd') as [ev'|] eqn:Hev'; [|discriminate]. cbn in Hck.
  destruct (Hown tbl fd' ev' He Hev') as (b' & c' & Hd' & _ & Hc' & Hfdc').
  assert (b' = b) as -> by congruence.
  assert (fd' = fd) as -> by congruence. done.
Qed.

Lemma elem_of_owned_fds_ready w k fds fd :
  worker_inv w k →
  fd ∈ owned_fds w (ready_clients k (Worker.event_fd w) fds)
  ↔ fd ∈ fds ∧ ∃ tbl, World.epolls k !! Worker.event_fd w = Some tbl
                      ∧ is_Some (tbl !! fd).
Proof.
  intros Hinv. unfold owned_fds. rewrite list_elem_of_omap. split.
  - intros (a & Ha & Hfd).
    apply (elem_of_ready_clients w k fds a Hinv) in Ha
      as (Hl & c & Hc & Hin).
    rewrite Hc in Hfd. injection Hfd as <-. split; [exact Hin|].
    destruct (wf_registered _ _ (proj1 Hinv) a c Hl Hc)
      as (t & ev & Ht & Hev & _).
    exists t. split; [exact Ht|]. eauto.
  - intros (Hin & tbl & He & [ev Hev]).
    destruct (proj2 Hinv tbl fd ev He Hev) as (b & c & Hd & Hb & Hc & Hfdc).
    exists b. split.
    + apply (elem_of_ready_clients w k fds b Hinv). split; [exact Hb|].
      exists c. split; [exact Hc|]. by rewrite Hfdc.
    + rewrite Hc. cbn. by rewrite Hfdc.
Qed.

(** One batch of ready descriptors. *)
Lemma dispatch_events_batch w k fds :
  worker_inv w k → states_known w → NoDup fds →
  ∃ w' k',
    dispatch_events (epoll_wait_events k (Worker.event_fd w) fds) (w, k)
    = Ok tt (w', k')
    ∧ worker_inv w' k' ∧ states_known w'
    ∧ (∀ b, is_live w' b
            ↔ is_live w b ∧ ∀ c, slot w b = Some c → Client.src_fd c ∉ fds)
    ∧ (∀ fd, fd ∈ World.open_fds k'
             ↔ fd ∈ World.open_fds k
               ∧ ¬ (fd ∈ fds
                    ∧ ∃ tbl, World.epolls k !! Worker.event_fd w = Some tbl
                             ∧ is_Some (tbl !! fd)))
    ∧ Worker.event_fd w' = Worker.event_fd w
    ∧ World.tx k' = World.tx k
    ∧ (∀ b c, is_live w' b → slot w b = Some c →
              ∃ c', slot w' b = Some c'
                    ∧ Client.src_fd c' = Client.src_fd c).
Proof.
  intros Hinv Hst Hnd.
  destruct (dispatch_events_clients
              (ready_clients k (Worker.event_fd w) fds) w k Hinv Hst)
    as (w' & k' & Hrun & Hinv' & Hst' & Hlive & Hefd & Hopen & Htx & Hfd).
  { by apply NoDup_ready_clients. }
  { intros a Ha. by apply (elem_of_ready_clients w k fds a Hinv) in Ha
      as [Hl _]. }
  exists w', k'. split.
  { rewrite (epoll_wait_events_clients w k fds Hinv). exact Hrun. }
  split; [exact Hinv'|]. split; [exact Hst'|]. split.
  { intros b. rewrite Hlive, (elem_of_ready_clients w k fds b Hinv).
    split.
    - intros [Hb Hn]. split; [exact Hb|]. intros c Hc Hin. apply Hn. eauto.
    - intros [Hb Hn]. split; [exact Hb|].
      intros (_ & c & Hc & Hin). by apply (Hn c). }
  split.
  { intros fd. rewrite Hopen, elem_of_difference, elem_of_list_to_set,
      (elem_of_owned_fds_ready w k fds fd Hinv). tauto. }
  split; [exact Hefd|]. split; [exact Htx|].
  intros b c [Hb Hnot]%Hlive Hc. by apply Hfd.
Qed.

(** X7.  One batch of readiness events.  In a worker that satisfies the
    invariants and whose records are all in one of the seven states,
    dispatching the events [epoll_wait] reports for a list of distinct
    ready descriptors returns without aborting or faulting and keeps the
    invariants.  Every record behind a ready descriptor is released and
    its descriptor closed, also when its peer was deleted earlier in the
    same batch; the other records stay allocated, the other descriptors
    stay open (ready descriptors that are not registered are ignored), and
    no byte is written to any socket. *)
Theorem X7_event_batch_releases_ready_records w k fds :
  worker_inv w k → states_known w → NoDup fds →
  ∃ w' k',
    (evs <- sys_epoll_wait (Worker.event_fd w) fds ;; dispatch_events evs)
      (w, k) = Ok tt (w', k')
    ∧ worker_inv w' k' ∧ states_known w'
    ∧ (∀ b, is_live w' b
            ↔ is_live w b ∧ ∀ c, slot w b = Some c → Client.src_fd c ∉ fds)
    ∧ (∀ fd, fd ∈ World.open_fds k'
             ↔ fd ∈ World.open_fds k
               ∧ ¬ (fd ∈ fds
                    ∧ ∃ tbl, World.epolls k !! Worker.event_fd w = Some tbl
                             ∧ is_Some (tbl !! fd)))
    ∧ World.tx k' = World.tx k.
Proof.
  intros Hinv Hst Hnd.
  destruct (dispatch_events_batch w k fds Hinv Hst Hnd)
    as (w' & k' & Hrun & Hinv' & Hst' & Hlive & Hopen & _ & Htx & _).
  exists w', k'. split.
  { erewrite bind_Ok by reflexivity. exact Hrun. }
  auto.
Qed.

Lemma ex_pair_states_known : states_known ex_pair_worker.
Proof.
  intros a c Ha. revert Ha. unfold is_live, ex_pair_worker. cbn.
  rewrite elem_of_union, !elem_of_singleton.
  intros [->| ->]; vm_compute slot; intros [= <-]; cbn;
    unfold _CLIENT_STATE_FORWARD_ALL; lia.
Qed.

(** Both descriptors of the example pair are ready in the same batch, and
    so is descriptor 12, which is not registered. *)
Lemma X7_witness :
  (worker_inv ex_pair_worker ex_pair_world ∧ states_known ex_pair_worker
   ∧ NoDup [10; 11; 12])
  ∧ ∃ w' k',
      (evs <- sys_epoll_wait (Worker.event_fd ex_pair_worker) [10; 11; 12] ;;
       dispatch_events evs) (ex_pair_worker, ex_pair_world) = Ok tt (w', k')
      ∧ worker_inv w' k'.
Proof.
  assert (NoDup [10; 11; 12]) as Hnd.
  { repeat (apply NoDup_cons; split;
            [rewrite ?elem_of_cons, elem_of_nil; lia|]).
    apply NoDup_nil_2. }
  split; [split; [apply ex_pair_inv
                 | split; [apply ex_pair_states_known | exact Hnd]]|].
  destruct (X7_event_batch_releases_ready_records
              ex_pair_worker ex_pair_world [10; 11; 12]
              ex_pair_inv ex_pair_states_known Hnd)
    as (w' & k' & Hrun & Hinv & _).
  exists w', k'. split; [exact Hrun | exact Hinv].
Defined.

Lemma worker_inv_is_alive w k v :
  worker_inv w k →
  worker_inv (Worker.mk (Worker.index w) v (Worker.event_fd w)
                (Worker.clients w)) k.
Proof.
  intros [[H1 H2 H3 H4 H5] Hown]. split; [split; assumption | exact Hown].
Qed.

Lemma states_known_is_alive w v :
  states_known w →
  states_known (Worker.mk (Worker.index w) v (Worker.event_fd w)
                  (Worker.clients w)).
Proof. intros H. exact H. Qed.

(** The thread's own liveness flag is not touched by the work on its
    records. *)
Lemma _worker_client_del_is_alive w k a cl w' k' :
  worker_inv w k → is_live w a → slot w a = Some cl →
  _worker_client_del a (w, k) = Ok tt (w', k') →
  Worker.is_alive w' = Worker.is_alive w.
Proof.
  intros [Hwf _] Ha Hcl.
  destruct (wf_registered _ _ Hwf a cl Ha Hcl) as (tbl & e1 & Ht & _).
  destruct (Client.peer cl) as [p|] eqn:Hpeer.
  - destruct (wf_peer _ _ Hwf a cl p Ha Hcl Hpeer)
      as (_ & _ & pl & Hpl & _).
    rewrite (_worker_client_del_paired w k a cl p pl tbl) by assumption.
    intros [= <- <-]. reflexivity.
  - rewrite (_worker_client_del_single w k a cl tbl) by assumption.
    intros [= <- <-]. reflexivity.
Qed.

Lemma _worker_handle_client_state_is_alive w k a cl w' k' :
  worker_inv w k → is_live w a → slot w a = Some cl →
  0 ≤ Client.state cl ≤ 6 →
  _worker_handle_client_state a (w, k) = Ok tt (w', k') →
  Worker.is_alive w' = Worker.is_alive w.
Proof.
  intros Hinv Ha Hcl Hst.
  destruct (_worker_client_del_keeps_inv w (World.log (ELoad a F_state) k)
              a cl (worker_inv_log _ _ _ Hinv) Ha Hcl)
    as (w1 & k1 & es & Hdel & _ & _ & Hsame & _).
  assert (slot w1 a = Some cl) as Hcl1.
  { rewrite Hsame; [exact Hcl|].
    intros E. destruct Hinv as [Hwf _].
    by destruct (wf_peer _ _ Hwf a cl a Ha Hcl E) as (Hne & _). }
  unfold _worker_handle_client_state.
  erewrite bind_Ok by (apply load_Ok; eassumption).
  erewrite bind_Ok by (apply client_state_switch_stop; assumption).
  change (_CLIENT_STATE_STOP =? _CLIENT_STATE_STOP) with true. cbv iota.
  erewrite bind_Ok by exact Hdel.
  rewrite (store_Ok _ _ _ _ _ _ Hcl1). intros [= <- <-].
  cbn [Worker.is_alive Worker.set_clients].
  exact (_worker_client_del_is_alive _ _ _ _ _ _
           (worker_inv_log _ _ _ Hinv) Ha Hcl Hdel).
Qed.

Lemma dispatch_events_clients_is_alive l : ∀ w k w' k',
  worker_inv w k → states_known w → NoDup l → (∀ a, a ∈ l → is_live w a) →
  dispatch_events (Some <$> l) (w, k) = Ok tt (w', k') →
  Worker.is_alive w' = Worker.is_alive w.
Proof.
  induction l as [|a l IH]; intros w k w' k' Hinv Hst Hnd Hall.
  - intros [= <- <-]. reflexivity.
  - apply NoDup_cons in Hnd as [Hnotin Hnd].
    assert (is_live w a) as Ha by (apply Hall; left).
    destruct (wf_slot _ _ (proj1 Hinv) a Ha) as [cl Hcl].
    destruct (_worker_handle_client_state_keeps_inv w k a cl Hinv Ha Hcl
                (Hst a cl Ha Hcl))
      as (w1 & k1 & Hrun & Hinv1 & Hlive1 & Hsame1 & Hpeer1 & Hefd1 & _).
    destruct (states_known_step w k a cl w1 Hinv Hst Ha Hcl Hlive1 Hsame1
                Hpeer1) as (Hst1 & _).
    cbn [fmap list_fmap dispatch_events].
    erewrite bind_Ok by exact Hrun. intros Hrest.
    rewrite (IH w1 k1 w' k' Hinv1 Hst1 Hnd); [| |exact Hrest].
    + exact (_worker_handle_client_state_is_alive _ _ _ _ _ _ Hinv Ha Hcl
               (Hst a cl Ha Hcl) Hrun).
    + intros b Hb. apply Hlive1. split; [apply Hall; by right|].
      intros ->. done.
Qed.

Lemma dispatch_events_batch_is_alive w k fds w' k' :
  worker_inv w k → states_known w → NoDup fds →
  dispatch_events (epoll_wait_events k (Worker.event_fd w) fds) (w, k)
  = Ok tt (w', k') →
  Worker.is_alive w' = Worker.is_alive w.
Proof.
  intros Hinv Hst Hnd.
  rewrite (epoll_wait_events_clients w k fds Hinv).
  apply (dispatch_events_clients_is_alive _ w k w' k' Hinv Hst).
  - by apply NoDup_ready_clients.
  - intros a Ha. by apply (elem_of_ready_clients w k fds a Hinv) in Ha
      as [Hl _].
Qed.

(** A pass that does not serve leaves the loop: what follows it in the
    script is not looked at. *)
Lemma worker_event_loop_exit efd st post s :
  pass_serves st = false →
  worker_event_loop efd (st :: post) s = worker_event_loop efd [st] s.
Proof.
  intros Hns. destruct s as [w k]. cbn [worker_event_loop].
  unfold pass_serves in Hns.
  destruct (ThreadStep.stop_requested st).
  - reflexivity.
  - destruct (ThreadStep.wait st); [discriminate | reflexivity..].
Qed.

Lemma worker_event_loop_prefix efd pre : ∀ st post s,
  pass_serves st = false →
  worker_event_loop efd (pre ++ st :: post) s
  = worker_event_loop efd (pre ++ [st]) s.
Proof.
  induction pre as [|st0 pre IH]; intros st post s Hns.
  - by apply worker_event_loop_exit.
  - cbn [app worker_event_loop]. unfold bind.
    destruct ((if ThreadStep.stop_requested st0
               then worker_store_is_alive 0 else ret tt) s)
      as [[] s1|s1|s1]; [|reflexivity..].
    destruct (worker_load_is_alive s1) as [alive s2|s2|s2];
      [|reflexivity..].
    destruct (alive =? 0); [reflexivity|].
    destruct (ThreadStep.wait st0) as [fds| |]; [|reflexivity..].
    destruct (sys_epoll_wait efd fds s2) as [evs s3|s3|s3];
      [|reflexivity..].
    destruct (dispatch_events evs s3) as [[] s4|s4|s4]; [|reflexivity..].
    by apply IH.
Qed.

(** The loop, pass by pass, entered with the flag set. *)
Lemma worker_event_loop_runs script : ∀ w k,
  worker_inv w k → states_known w → script_ok script →
  Worker.is_alive w ≠ 0 →
  ∃ r w' k',
    worker_event_loop (Worker.event_fd w) script (w, k) = Ok r (w', k')
    ∧ worker_inv w' k' ∧ states_known w'
    ∧ Worker.event_fd w' = Worker.event_fd w
    ∧ World.tx k' = World.tx k
    ∧ (r = None ∨ r = Some 0 ∨ r = Some (-1))
    ∧ (r = None ↔ forallb pass_serves script = true)
    ∧ (r = None → Worker.is_alive w' = Worker.is_alive w)
    ∧ (∀ pre st post,
         script = pre ++ st :: post →
         forallb pass_serves pre = true → pass_serves st = false →
         (ThreadStep.stop_requested st = true
          ∨ ThreadStep.wait st = WaitEINTR → r = Some 0)
         ∧ (ThreadStep.stop_requested st = false →
            ThreadStep.wait st = WaitError → r = Some (-1))).
Proof.
  induction script as [|st rest IH]; intros w k Hinv Hst Hok Hal.
  - exists None, w, k. split; [reflexivity|]. split; [exact Hinv|].
    split; [exact Hst|]. split; [reflexivity|]. split; [reflexivity|].
    split; [auto|]. split; [split; reflexivity|]. split; [reflexivity|].
    intros pre st post E. by destruct pre.
  - assert (∀ pre st' post,
              st :: rest = pre ++ st' :: post →
              forallb pass_serves pre = true → pass_serves st' = false →
              pass_serves st = false → pre = [] ∧ st' = st) as Hfirst.
    { intros pre st' post E Hpre Hns Hns0. destruct pre as [|st0 pre].
      - injection E as ->. auto.
      - injection E as <- _. cbn in Hpre.
        rewrite Hns0 in Hpre. discriminate. }
    cbn [worker_event_loop].
    destruct (ThreadStep.stop_requested st) eqn:Hstop.
    { (* the flag was cleared: the loop condition fails *)
      exists (Some 0),
        (Worker.mk (Worker.index w) 0 (Worker.event_fd w)
           (Worker.clients w)), k.
      assert (pass_serves st = false) as Hns
        by (unfold pass_serves; by rewrite Hstop).
      split; [reflexivity|]. split; [by apply worker_inv_is_alive|].
      split; [exact Hst|]. split; [reflexivity|]. split; [reflexivity|].
      split; [auto|]. split.
      { split; [discriminate|]. cbn [forallb]. rewrite Hns. discriminate. }
      split; [discriminate|].
      intros pre st' post E Hpre Hns'.
      destruct (Hfirst pre st' post E Hpre Hns' Hns) as [-> ->].
      split; [reflexivity|]. rewrite Hstop. discriminate. }
    erewrite bind_Ok by reflexivity.
    erewrite bind_Ok by reflexivity.
    destruct (Z.eqb_spec (Worker.is_alive w) 0) as [Hdead|_];
      [contradiction|].
    destruct (ThreadStep.wait st) as [fds| |] eqn:Hwait.
    + (* a batch of events *)
      assert (pass_serves st = true) as Hserves
        by (unfold pass_serves; by rewrite Hstop, Hwait).
      assert (NoDup fds) as Hnd by (apply (Hok st fds); [left | exact Hwait]).
      destruct (dispatch_events_batch w k fds Hinv Hst Hnd)
        as (w1 & k1 & Hrun & Hinv1 & Hst1 & _ & _ & Hefd1 & Htx1 & _).
      pose proof (dispatch_events_batch_is_alive w k fds w1 k1 Hinv Hst Hnd
                    Hrun) as Hal1.
      destruct (IH w1 k1 Hinv1 Hst1)
        as (r & w' & k' & Hloop & Hinv' & Hst' & Hefd' & Htx' & Hr & Hnone
            & Hal' & Hexit).
      { intros st' fds' Hin. apply Hok. by right. }
      { by rewrite Hal1. }
      exists r, w', k'. split.
      { erewrite bind_Ok by reflexivity.
        erewrite bind_Ok by exact Hrun.
        rewrite <- Hefd1. exact Hloop. }
      split; [exact Hinv'|]. split; [exact Hst'|].
      split; [congruence|]. split; [congruence|]. split; [exact Hr|].
      split; [cbn [forallb]; rewrite Hserves; exact Hnone|].
      split; [intros E; rewrite (Hal' E); exact Hal1|].
      intros pre st' post E Hpre Hns.
      destruct pre as [|st0 pre].
      { injection E as <- _. rewrite Hserves in Hns. discriminate. }
      injection E as <- E. cbn [forallb] in Hpre.
      apply andb_true_iff in Hpre as [_ Hpre].
      exact (Hexit pre st' post E Hpre Hns).
    + exists (Some 0), w, k.
      assert (pass_serves st = false) as Hns
        by (unfold pass_serves; by rewrite Hstop, Hwait).
      split; [reflexivity|]. split; [exact Hinv|].
      split; [exact Hst|]. split; [reflexivity|]. split; [reflexivity|].
      split; [auto|]. split.
      { split; [discriminate|]. cbn [forallb]. rewrite Hns. discriminate. }
      split; [discriminate|].
      intros pre st' post E Hpre Hns'.
      destruct (Hfirst pre st' post E Hpre Hns' Hns) as [-> ->].
      split; [reflexivity|]. rewrite Hwait. discriminate.
    + exists (Some (-1)), w, k.
      assert (pass_serves st = false) as Hns
        by (unfold pass_serves; by rewrite Hstop, Hwait).
      split; [reflexivity|]. split; [exact Hinv|].
      split; [exact Hst|]. split; [reflexivity|]. split; [reflexivity|].
      split; [auto|]. split.
      { split; [discriminate|]. cbn [forallb]. rewrite Hns. discriminate. }
      split; [discriminate|].
      intros pre st' post E Hpre Hns'.
      destruct (Hfirst pre st' post E Hpre Hns' Hns) as [-> ->].
      split; [|reflexivity]. rewrite Hstop, Hwait.
      intros [H | H]; discriminate H.
Qed.

(** X8.  The worker thread.  Started in a worker that satisfies the
    invariants, with all records in one of the seven states, the thread
    function never aborts or faults and keeps the invariants, and writes
    to no socket.  It serves the batch of every pass until the first pass
    at which [is_alive] was cleared or [epoll_wait] failed, and leaves its
    loop in that pass: what the environment would have answered later
    plays no part.  It then returns with [is_alive] cleared.  Its return
    value is 0 when the flag was cleared or [epoll_wait] failed with
    EINTR, and -1 when (the flag still set) [epoll_wait] failed with
    another error.  As long as every pass serves, the thread has not
    returned and [is_alive] is 1. *)
Theorem X8_worker_thread_returns_cleared script w k :
  worker_inv w k → states_known w → script_ok script →
  ∃ r w' k',
    _worker_event_loop_thrd script (w, k) = Ok r (w', k')
    ∧ worker_inv w' k' ∧ states_known w'
    ∧ World.tx k' = World.tx k
    ∧ (∀ v, r = Some v → Worker.is_alive w' = 0 ∧ (v = 0 ∨ v = -1))
    ∧ (r = None ↔ forallb pass_serves script = true)
    ∧ (r = None → Worker.is_alive w' = 1)
    ∧ (∀ pre st post,
         script = pre ++ st :: post →
         forallb pass_serves pre = true → pass_serves st = false →
         (ThreadStep.stop_requested st = true
          ∨ ThreadStep.wait st = WaitEINTR → r = Some 0)
         ∧ (ThreadStep.stop_requested st = false →
            ThreadStep.wait st = WaitError → r = Some (-1))
         ∧ _worker_event_loop_thrd (pre ++ [st]) (w, k) = Ok r (w', k')).
Proof.
  intros Hinv Hst Hok.
  set (w1 := Worker.mk (Worker.index w) 1 (Worker.event_fd w)
               (Worker.clients w)).
  destruct (worker_event_loop_runs script w1 k
              (worker_inv_is_alive w k 1 Hinv) Hst Hok ltac:(discriminate))
    as (r & w2 & k2 & Hloop & Hinv2 & Hst2 & Hefd2 & Htx2 & Hr & Hnone
        & Hal2 & Hexit).
  assert (∀ sc, _worker_event_loop_thrd sc (w, k)
                = bind (worker_event_loop (Worker.event_fd w) sc)
                    (λ r, match r with
                          | Some v => worker_store_is_alive 0 ;;; ret (Some v)
                          | None => ret None
                          end) (w1, k)) as Hthrd.
  { intros sc. unfold _worker_event_loop_thrd.
    erewrite bind_Ok by reflexivity.
    erewrite bind_Ok by reflexivity. reflexivity. }
  assert (∃ w', _worker_event_loop_thrd script (w, k) = Ok r (w', k2)
                ∧ worker_inv w' k2 ∧ states_known w'
                ∧ (∀ v, r = Some v → Worker.is_alive w' = 0)
                ∧ (r = None → Worker.is_alive w' = 1))
    as (w' & Hrun & Hinv' & Hst' & Hdead & Hlive).
  { rewrite Hthrd. erewrite bind_Ok by exact Hloop.
    destruct r as [v|].
    - eexists. split; [reflexivity|].
      split; [by apply worker_inv_is_alive|]. split; [exact Hst2|].
      split; [reflexivity | discriminate].
    - exists w2. split; [reflexivity|]. split; [exact Hinv2|].
      split; [exact Hst2|]. split; [discriminate|].
      intros _. exact (Hal2 eq_refl). }
  exists r, w', k2. split; [exact Hrun|]. split; [exact Hinv'|].
  split; [exact Hst'|]. split; [exact Htx2|]. split.
  { intros v E. split; [exact (Hdead v E)|]. subst r.
    destruct Hr as [E|[E|E]]; [discriminate| |]; injection E as ->; auto. }
  split; [exact Hnone|]. split; [exact Hlive|].
  intros pre st post E Hpre Hns.
  destruct (Hexit pre st post E Hpre Hns) as [H0 H1].
  split; [exact H0|]. split; [exact H1|].
  rewrite <- Hrun, !Hthrd, E. unfold bind.
  by rewrite (worker_event_loop_prefix _ pre st post (w1, k) Hns).
Qed.

(** A thread that serves one batch for the example pair and then meets an
    [epoll_wait] error: it returns -1, and the pass that would have
    followed is not served. *)
Lemma X8_witness :
  (worker_inv ex_pair_worker ex_pair_world ∧ states_known ex_pair_worker
   ∧ script_ok [ThreadStep.mk false (WaitReady [10]);
                ThreadStep.mk false WaitError;
                ThreadStep.mk false (WaitReady [11])])
  ∧ ∃ w' k',
      _worker_event_loop_thrd
        [ThreadStep.mk false (WaitReady [10]);
         ThreadStep.mk false WaitError;
         ThreadStep.mk false (WaitReady [11])]
        (ex_pair_worker, ex_pair_world) = Ok (Some (-1)) (w', k')
      ∧ _worker_event_loop_thrd
          [ThreadStep.mk false (WaitReady [10]);
           ThreadStep.mk false WaitError]
          (ex_pair_worker, ex_pair_world) = Ok (Some (-1)) (w', k')
      ∧ Worker.is_alive w' = 0.
Proof.
  assert (script_ok [ThreadStep.mk false (WaitReady [10]);
                     ThreadStep.mk false WaitError;
                     ThreadStep.mk false (WaitReady [11])]) as Hok.
  { intros st fds Hin Hw.
    apply elem_of_cons in Hin as [->|Hin];
      [injection Hw as <-; apply NoDup_singleton|].
    apply elem_of_cons in Hin as [->|Hin]; [discriminate Hw|].
    apply list_elem_of_singleton in Hin as ->.
    injection Hw as <-. apply NoDup_singleton. }
  split; [split; [apply ex_pair_inv
                 | split; [apply ex_pair_states_known | exact Hok]]|].
  destruct (X8_worker_thread_returns_cleared _ ex_pair_worker ex_pair_world
              ex_pair_inv ex_pair_states_known Hok)
    as (r & w' & k' & Hrun & _ & _ & _ & Hret & _ & _ & Hexit).
  destruct (Hexit [ThreadStep.mk false (WaitReady [10])]
              (ThreadStep.mk false WaitError)
              [ThreadStep.mk false (WaitReady [11])]
              eq_refl eq_refl eq_refl) as (_ & Herr & Hshort).
  pose proof (Herr eq_refl eq_refl) as ->.
  exists w', k'. split; [exact Hrun|]. split; [exact Hshort|].
  by destruct (Hret (-1) eq_refl).
Defined.

(** ** The accept handler and the server invariants *)

(** The worker invariants look at the world through the descriptor table
    and the worker's own interest list only. *)
Lemma worker_inv_frame w k k' :
  (∀ fd, fd ∈ World.open_fds k → fd ∈ World.open_fds k') →
  World.epolls k' !! Worker.event_fd w = World.epolls k !! Worker.event_fd w →
  worker_inv w k → worker_inv w k'.
Proof.
  intros Ho He [[H1 H2 H3 H4 H5] Hown]. split; [split|].
  - exact H1.
  - exact H2.
  - intros a c Ha Hc. apply Ho. exact (H3 a c Ha Hc).
  - intros a c Ha Hc. rewrite He. exact (H4 a c Ha Hc).
  - exact H5.
  - intros tbl fd ev Ht. rewrite He in Ht. exact (Hown tbl fd ev Ht).
Qed.

(** They look at the worker through its allocated records only. *)
Lemma worker_inv_same_records w w' k :
  Worker.event_fd w' = Worker.event_fd w →
  (∀ a, is_live w' a ↔ is_live w a) →
  (∀ a, is_live w a → slot w' a = slot w a) →
  worker_inv w k → worker_inv w' k.
Proof.
  intros He Hl Hs [[H1 H2 H3 H4 H5] Hown]. split; [split|].
  - intros a Ha%Hl. rewrite Hs by exact Ha. auto.
  - intros a c Ha%Hl Hc. rewrite Hs in Hc by exact Ha. eauto.
  - intros a c Ha%Hl Hc. rewrite Hs in Hc by exact Ha. eauto.
  - intros a c Ha%Hl Hc. rewrite Hs in Hc by exact Ha. rewrite He. eauto.
  - intros a c b Ha%Hl Hc Hp. rewrite Hs in Hc by exact Ha.
    destruct (H5 a c b Ha Hc Hp) as (Hne & Hb & cb & Hcb & Hpb).
    split; [exact Hne|]. split; [by apply Hl|].
    exists cb. rewrite Hs by exact Hb. auto.
  - intros tbl fd ev Ht Hf. rewrite He in Ht.
    destruct (Hown tbl fd ev Ht Hf) as (a & c & Hd & Ha & Hc & Hfd).
    exists a, c. split; [exact Hd|]. split; [by apply Hl|].
    rewrite Hs by exact Ha. auto.
Qed.

(** Closing a descriptor that no record of the worker owns. *)
Lemma worker_inv_close w k fd :
  (∀ a c, is_live w a → slot w a = Some c → Client.src_fd c ≠ fd) →
  worker_inv w k →
  worker_inv w
    (World.log (EClose fd)
       (World.set_rx (delete fd (World.rx k))
          (World.set_epolls (delete fd <$> World.epolls k)
             (World.set_open_fds (World.open_fds k ∖ {[fd]}) k)))).
Proof.
  intros Hfd [[H1 H2 H3 H4 H5] Hown]. split; [split|].
  - exact H1.
  - exact H2.
  - intros a c Ha Hc. world_step.
    apply elem_of_difference. split; [exact (H3 a c Ha Hc)|].
    rewrite elem_of_singleton. exact (Hfd a c Ha Hc).
  - intros a c Ha Hc. world_step.
    destruct (H4 a c Ha Hc) as (tbl & ev & Ht & Hev & Hd).
    exists (delete fd tbl), ev.
    rewrite lookup_fmap, Ht. split; [reflexivity|].
    rewrite lookup_delete_ne by (intros E; exact (Hfd a c Ha Hc (eq_sym E))).
    auto.
  - exact H5.
  - intros tbl fd' ev. world_step. rewrite lookup_fmap.
    destruct (World.epolls k !! Worker.event_fd w) as [t0|] eqn:Ht;
      [|discriminate].
    intros [= <-] Hev.
    destruct (decide (fd = fd')) as [<-|Hne].
    + rewrite lookup_delete_eq in Hev. discriminate.
    + rewrite lookup_delete_ne in Hev by exact Hne.
      exact (Hown t0 fd' ev Ht Hev).
Qed.

(** A failed [_worker_client_add] leaves the worker with the records it
    had, and the world with its descriptors and interest lists. *)
Lemma _worker_client_add_fail_inv src_fd trg_fd state peer w k w' k' :
  _worker_client_add src_fd trg_fd state peer (w, k) = Ok (-1) (w', k') →
  Worker.event_fd w' = Worker.event_fd w
  ∧ (∀ a, is_live w' a ↔ is_live w a)
  ∧ (∀ a, is_live w a → slot w' a = slot w a)
  ∧ World.open_fds k' = World.open_fds k
  ∧ World.epolls k' = World.epolls k
  ∧ World.accept_queue k' = World.accept_queue k
  ∧ World.tx k' = World.tx k.
Proof.
  destruct (Nat.le_gt_cases (Mempool.max_slots (Worker.clients w))
              (size (Mempool.live (Worker.clients w)))) as [Hle|Hlt].
  { rewrite _worker_client_add_exhausted by exact Hle.
    intros [= <- <-]. repeat split; auto. }
  destruct (epoll_ctl_table k (Worker.event_fd w) EPOLL_CTL_ADD src_fd
              (Event.mk EPOLLIN (Some (next_slot w)))) as [t'|] eqn:Hadd.
  { rewrite (_worker_client_add_Ok _ _ _ _ _ _ t') by assumption.
    discriminate. }
  rewrite _worker_client_add_unregistered by assumption.
  intros [= <- <-].
  pose proof (next_slot_fresh w) as Hfresh.
  split; [reflexivity|]. split.
  { intros a. rewrite is_live_free_slot, is_live_alloc_slot.
    split; [intros [[E|H] Hne]; [congruence | exact H]|].
    intros H. split; [by right|]. intros ->. exact (Hfresh H). }
  split.
  { intros a Ha. rewrite slot_free_slot.
    apply slot_alloc_slot_ne. intros <-. exact (Hfresh Ha). }
  repeat split; reflexivity.
Qed.

Lemma accept_fresh_mono open open' q :
  (∀ fd, fd ∈ q → fd ∈ open' → fd ∈ open) →
  accept_fresh open q → accept_fresh open' q.
Proof.
  induction q as [|fd q IH]; [done|]. intros Hsub [Hfd Hq]. split.
  - intros Hpos. destruct (Hfd Hpos) as [Hno Hnq]. split; [|exact Hnq].
    intros Hin. apply Hno, Hsub; [left | exact Hin].
  - apply IH; [|exact Hq]. intros fd' Hin. apply Hsub. by right.
Qed.

Lemma server_inv_frame s k k' :
  (∀ fd, fd ∈ World.open_fds k → fd ∈ World.open_fds k') →
  World.epolls k' = World.epolls k →
  server_inv s k → server_inv s k'.
Proof.
  intros Ho He [Hh Hw Hefd Heo Hown Hevo].
  split; [exact Hh | | exact Hefd | | exact Hown | exact Hevo].
  - intros i w Hi. apply (worker_inv_frame w k k' Ho); [by rewrite He|].
    exact (Hw i w Hi).
  - intros i w Hi. apply Ho. exact (Heo i w Hi).
Qed.

(** The server invariants after a step that changed the workers without
    changing their multiplexers, closed no descriptor that was open and
    gave at most the descriptor [fd], which was not open, to a record of
    worker [i0]. *)
Lemma server_inv_update s k s' k' fd i0 :
  server_inv s k → fd ∉ World.open_fds k →
  server_healthy s' →
  (∀ fd', fd' ∈ World.open_fds k → fd' ∈ World.open_fds k') →
  (∀ j wj, Server.workers s' !! j = Some wj →
     worker_inv wj k'
     ∧ ∃ w0, Server.workers s !! j = Some w0
             ∧ Worker.event_fd wj = Worker.event_fd w0
             ∧ ∀ fd', owns_fd wj fd' →
                      owns_fd w0 fd' ∨ (fd' = fd ∧ j = i0)) →
  server_inv s' k'.
Proof.
  intros [Hh Hw Hefd Heo Hown Hevo] Hclosed Hh' Hopen Hws.
  assert (∀ j w0 fd', Server.workers s !! j = Some w0 → owns_fd w0 fd' →
            fd' ∈ World.open_fds k) as Howned_open.
  { intros j w0 fd' Hj (a & c & Ha & Hc & <-).
    exact (wf_open _ _ (proj1 (Hw j w0 Hj)) a c Ha Hc). }
  split; [exact Hh' | | | | |].
  - intros j wj Hj. exact (proj1 (Hws j wj Hj)).
  - intros j1 j2 w1 w2 H1 H2 Hne.
    destruct (Hws j1 w1 H1) as (_ & w01 & Hj1 & -> & _).
    destruct (Hws j2 w2 H2) as (_ & w02 & Hj2 & -> & _).
    eauto.
  - intros j wj Hj.
    destruct (Hws j wj Hj) as (_ & w0 & Hj0 & -> & _).
    apply Hopen. eauto.
  - intros j1 j2 w1 w2 fd' H1 H2 Hne Ho1 Ho2.
    destruct (Hws j1 w1 H1) as (_ & w01 & Hj1 & _ & Hf1).
    destruct (Hws j2 w2 H2) as (_ & w02 & Hj2 & _ & Hf2).
    destruct (Hf1 fd' Ho1) as [Ha | [E1 Ej1]];
      destruct (Hf2 fd' Ho2) as [Hb | [E2 Ej2]].
    + exact (Hown _ _ _ _ _ Hj1 Hj2 Hne Ha Hb).
    + apply Hclosed. rewrite <- E2. eauto.
    + apply Hclosed. rewrite <- E1. eauto.
    + congruence.
  - intros j1 j2 w1 w2 H1 H2 Ho1.
    destruct (Hws j1 w1 H1) as (_ & w01 & Hj1 & _ & Hf1).
    destruct (Hws j2 w2 H2) as (_ & w02 & Hj2 & E2 & _).
    rewrite E2 in Ho1.
    destruct (Hf1 _ Ho1) as [Ha | [E _]].
    + exact (Hevo _ _ _ _ Hj1 Hj2 Ha).
    + apply Hclosed. rewrite <- E. eauto.
Qed.

(** One call of the accept handler. *)
Lemma _server_event_handle_listener_keeps_inv s k :
  server_inv s k →
  accept_fresh (World.open_fds k) (World.accept_queue k) →
  ∃ s' k',
    _server_event_handle_listener (s, k) = Ok tt (s', k')
    ∧ server_inv s' k'
    ∧ accept_fresh (World.open_fds k') (World.accept_queue k')
    ∧ World.accept_queue k' = tail (World.accept_queue k)
    ∧ World.tx k' = World.tx k
    ∧ Server.is_alive s' = Server.is_alive s
    ∧ Server.listen_fd s' = Server.listen_fd s
    ∧ Server.signal_fd s' = Server.signal_fd s
    ∧ Server.workers_len s' = Server.workers_len s.
Proof.
  intros Hinv Hfresh.
  destruct (World.accept_queue k) as [|fd q] eqn:Hq.
  { (* nothing pending: accept fails *)
    exists s, (World.log (EAccept (-1)) k). split.
    { unfold _server_event_handle_listener.
      erewrite bind_Ok by reflexivity.
      erewrite bind_Ok by (unfold sys_accept; rewrite Hq; reflexivity).
      reflexivity. }
    split; [by apply (server_inv_frame s k)|].
    split; [cbn; by rewrite Hq|]. split; [cbn; by rewrite Hq|].
    repeat split; reflexivity. }
  destruct Hfresh as [Hfd Hfq].
  destruct (Z.ltb_spec fd 0) as [Hneg|Hpos].
  { (* accept fails *)
    exists s, (World.log (EAccept fd) (World.set_accept_queue q k)). split.
    { unfold _server_event_handle_listener.
      erewrite bind_Ok by reflexivity.
      erewrite bind_Ok.
      2:{ unfold sys_accept. rewrite Hq.
          destruct (Z.ltb_spec fd 0) as [_|Hge]; [reflexivity | lia]. }
      destruct (Z.ltb_spec fd 0) as [_|Hge]; [reflexivity | lia]. }
    split; [by apply (server_inv_frame s k)|].
    split; [exact Hfq|]. repeat split; reflexivity. }
  destruct (Hfd Hpos) as [Hclosed Hnq].
  pose proof (sinv_healthy _ _ Hinv) as Hh.
  pose proof (sinv_workers _ _ Hinv) as Hws.
  pose proof (sinv_event_fd _ _ Hinv) as Hefd.
  pose proof Hh as [Hlen Hcurr Hlenws].
  set (i := Server.workers_curr s) in *.
  destruct (lookup_lt_is_Some_2 (Server.workers s) (Z.to_nat i)
              ltac:(lia)) as [w Hw].
  set (k1 := accepted_world fd q k).
  assert (∀ j wj, Server.workers s !! j = Some wj → worker_inv wj k1)
    as Hws1.
  { intros j wj Hj. apply (worker_inv_frame wj k); [| reflexivity | eauto].
    intros fd' Hin. unfold k1, accepted_world. world_step.
    apply elem_of_union. by right. }
  assert (∀ j wj a c, Server.workers s !! j = Some wj →
            is_live wj a → slot wj a = Some c → Client.src_fd c ≠ fd)
    as Hnotowned.
  { intros j wj a c Hj Ha Hc E. apply Hclosed. rewrite <- E.
    exact (wf_open _ _ (proj1 (Hws j wj Hj)) a c Ha Hc). }
  destruct (_worker_client_add_total fd (-1) _CLIENT_STATE_HEADER None w k1)
    as (r & w' & k' & Hadd & Hr & _ & Hopen & Htx & _).
  assert (on_worker i
            (_worker_client_add fd (-1) _CLIENT_STATE_HEADER None) (s, k1)
          = Ok r (put_worker i w' s, k')) as Hon
    by (apply (on_worker_Ok _ _ _ _ w); [lia | exact Hw | exact Hadd]).
  destruct Hr as [-> | ->].
  - (* registered: the counter advances *)
    destruct (listener_assigned_step s k fd q _ _ Hh Hq Hpos Hon)
      as (s' & Hrun & Hh' & Hlen' & Hcurr' & _).
    assert (s' = Server.set_workers_curr
                   ((i + 1) mod Server.workers_len s) (put_worker i w' s))
      as Hs'.
    { rewrite (listener_accepted s k fd q Hq Hpos) in Hrun.
      unfold listener_assign in Hrun. fold i in Hrun.
      erewrite bind_Ok in Hrun by exact Hon.
      change (0 <? 0) with false in Hrun. cbv iota in Hrun.
      erewrite bind_Ok in Hrun by reflexivity.
      cbn [put_worker Server.workers_len Server.set_workers] in Hrun.
      destruct (Z.eqb_spec (Server.workers_len s) 0) as [E|_]; [lia|].
      replace (wrap_unsigned (i + 1)) with (i + 1) in Hrun
        by (unfold wrap_unsigned; symmetry; apply Z.mod_small; lia).
      unfold server_set_workers_curr in Hrun.
      injection Hrun as Hrun. symmetry. exact Hrun. }
    destruct (_worker_client_add_0_inv _ _ _ _ _ _ _ _ Hadd)
      as (tbl & Htbl & _ & _ & Hw' & Hk').
    destruct (_worker_client_add_keeps_inv _ _ _ _ _ _ _
                (Hws1 _ _ Hw) Hadd)
      as (Hinv' & Hlive' & Hslot' & (c0 & Hc0 & _ & Hc0fd & _) & _).
    assert (Worker.event_fd w' = Worker.event_fd w) as Hefd'
      by (rewrite Hw'; reflexivity).
    exists s', k'. split; [exact Hrun|]. split.
    { apply (server_inv_update s k s' k' fd (Z.to_nat i) Hinv Hclosed Hh').
      - intros fd' Hin. rewrite Hopen. unfold k1, accepted_world.
        world_step. apply elem_of_union. by right.
      - intros j wj Hj. rewrite Hs' in Hj. cbn in Hj.
        destruct (decide (j = Z.to_nat i)) as [->|Hne].
        + rewrite list_lookup_insert_eq in Hj
            by (eapply lookup_lt_Some; exact Hw).
          injection Hj as <-. split; [exact Hinv'|].
          exists w. split; [exact Hw|]. split; [exact Hefd'|].
          intros fd' (a & c & Ha & Hc & Hf).
          apply Hlive' in Ha as [-> | Ha].
          * right. rewrite Hc0 in Hc. injection Hc as <-.
            split; [congruence | reflexivity].
          * left. exists a, c. rewrite Hslot' in Hc by exact Ha. auto.
        + rewrite list_lookup_insert_ne in Hj by auto. split.
          * apply (worker_inv_frame wj k1); [| | eauto].
            -- intros fd'. by rewrite Hopen.
            -- rewrite Hk'. world_norm. apply lookup_insert_ne.
               exact (Hefd _ _ _ _ Hw Hj (not_eq_sym Hne)).
          * exists wj. auto. }
    split.
    { rewrite Hopen, Hk'. unfold k1, accepted_world. world_norm.
      apply (accept_fresh_mono (World.open_fds k)); [|exact Hfq].
      intros fd' Hin [E%elem_of_singleton|H]%elem_of_union; [|exact H].
      subst fd'. contradiction. }
    split; [rewrite Hk'; reflexivity|].
    split; [rewrite Htx; reflexivity|].
    rewrite Hs'. repeat split; reflexivity.
  - (* not registered: the descriptor is closed *)
    destruct (_worker_client_add_fail_inv _ _ _ _ _ _ _ _ Hadd)
      as (Hefd' & Hlive' & Hslot' & _ & Hep' & Hq' & _).
    eexists _, _. split.
    { rewrite (listener_accepted s k fd q Hq Hpos).
      unfold listener_assign. fold i.
      erewrite bind_Ok by exact Hon.
      change (-1 <? 0) with true. cbv iota. apply sys_close_Ok. }
    assert (∀ j wj, Server.workers (put_worker i w' s) !! j = Some wj →
              ∃ w0, Server.workers s !! j = Some w0
                    ∧ Worker.event_fd wj = Worker.event_fd w0
                    ∧ (∀ a, is_live wj a ↔ is_live w0 a)
                    ∧ (∀ a, is_live w0 a → slot wj a = slot w0 a))
      as Hsame.
    { intros j wj Hj. cbn in Hj.
      destruct (decide (j = Z.to_nat i)) as [->|Hne].
      - rewrite list_lookup_insert_eq in Hj by (by eapply lookup_lt_Some).
        injection Hj as <-. exists w. auto.
      - rewrite list_lookup_insert_ne in Hj by auto.
        exists wj. repeat split; auto. }
    split.
    { apply (server_inv_update s k _ _ fd (Z.to_nat i) Hinv Hclosed).
      - destruct Hh as [H1 H2 H3]. split; cbn; [exact H1 | exact H2 |].
        rewrite length_insert. exact H3.
      - intros fd' Hin. world_step. rewrite Hopen.
        unfold k1, accepted_world. world_step.
        apply elem_of_difference. split; [apply elem_of_union; by right|].
        rewrite elem_of_singleton. intros ->. contradiction.
      - intros j wj Hj.
        destruct (Hsame j wj Hj) as (w0 & Hj0 & He0 & Hl0 & Hs0). split.
        + apply worker_inv_close.
          * intros a c Ha%Hl0 Hc. rewrite Hs0 in Hc by exact Ha.
            exact (Hnotowned j w0 a c Hj0 Ha Hc).
          * apply (worker_inv_same_records w0 wj);
              [exact He0 | exact Hl0 | exact Hs0 |].
            apply (worker_inv_frame w0 k1); [| | eauto].
            -- intros fd'. by rewrite Hopen.
            -- by rewrite Hep'.
        + exists w0. split; [exact Hj0|]. split; [exact He0|].
          intros fd' (a & c & Ha%Hl0 & Hc & Hf). left.
          exists a, c. rewrite Hs0 in Hc by exact Ha. auto. }
    split.
    { world_step. rewrite Hopen, Hq'. unfold k1, accepted_world.
      world_step.
      apply (accept_fresh_mono (World.open_fds k)); [|exact Hfq].
      intros fd' Hin [[E%elem_of_singleton|H]%elem_of_union Hne]
               %elem_of_difference; [|exact H].
      subst fd'. rewrite elem_of_singleton in Hne. contradiction. }
    split; [world_step; rewrite Hq'; reflexivity|].
    split; [world_step; rewrite Htx; reflexivity|].
    repeat split; reflexivity.
Qed.

(** X9.  The accept handler in a server that satisfies the server
    invariants, when the kernel hands out descriptors that are not open:
    the handler always returns, whatever [accept] and the add-client call
    answer; it consumes one entry of the accept queue; the server
    invariants hold again afterwards (so every worker's records and
    interest list are still consistent, also those of the workers that were
    not chosen), and the handler writes to no socket and leaves the
    server's liveness flag, its two descriptors and the number of workers
    alone. *)
Theorem X9_accept_handler_keeps_server_invariants s k :
  server_inv s k →
  accept_fresh (World.open_fds k) (World.accept_queue k) →
  ∃ s' k',
    _server_event_handle_listener (s, k) = Ok tt (s', k')
    ∧ server_inv s' k'
    ∧ accept_fresh (World.open_fds k') (World.accept_queue k')
    ∧ World.accept_queue k' = tail (World.accept_queue k)
    ∧ World.tx k' = World.tx k
    ∧ Server.is_alive s' = Server.is_alive s
    ∧ Server.listen_fd s' = Server.listen_fd s
    ∧ Server.signal_fd s' = Server.signal_fd s
    ∧ Server.workers_len s' = Server.workers_len s.
Proof. apply _server_event_handle_listener_keeps_inv. Qed.

(** A worker without records and with an empty interest list. *)
Lemma worker_inv_idle w k :
  Mempool.live (Worker.clients w) = ∅ →
  World.epolls k !! Worker.event_fd w = Some ∅ →
  worker_inv w k.
Proof.
  intros Hl He.
  assert (∀ a, ¬ is_live w a) as Hno
    by (intros a; unfold is_live; rewrite Hl; apply not_elem_of_empty).
  split; [split|].
  - intros a Ha. by destruct (Hno a).
  - intros a c Ha. by destruct (Hno a).
  - intros a c Ha. by destruct (Hno a).
  - intros a c Ha. by destruct (Hno a).
  - intros a c b Ha. by destruct (Hno a).
  - intros tbl fd ev Ht Hev. rewrite He in Ht. injection Ht as <-.
    rewrite lookup_empty in Hev. discriminate.
Qed.

Lemma owns_fd_idle w fd :
  Mempool.live (Worker.clients w) = ∅ → ¬ owns_fd w fd.
Proof.
  intros Hl (a & c & Ha & _). unfold is_live in Ha. rewrite Hl in Ha.
  by apply not_elem_of_empty in Ha.
Qed.

Lemma ex_server_inv q n : server_inv (ex_server 8) (ex_server_world q n).
Proof.
  split.
  - apply ex_server_healthy.
  - intros [|[|i]] w Hi; cbn in Hi; try discriminate;
      injection Hi as <-; by apply worker_inv_idle.
  - intros [|[|i]] [|[|j]] wi wj Hi Hj Hne; cbn in Hi, Hj;
      try discriminate; try congruence;
      injection Hi as <-; injection Hj as <-; cbn; lia.
  - intros [|[|i]] w Hi; cbn in Hi; try discriminate;
      injection Hi as <-; apply (bool_decide_unpack _); vm_compute;
      exact I.
  - intros [|[|i]] j wi wj fd Hi Hj Hne; cbn in Hi; try discriminate;
      injection Hi as <-; intros Ho; by apply owns_fd_idle in Ho.
  - intros [|[|i]] j wi wj Hi Hj; cbn in Hi; try discriminate;
      injection Hi as <-; by apply owns_fd_idle.
Qed.

Lemma ex_accept_fresh :
  accept_fresh (World.open_fds (ex_server_world [20; 21; 22] 16))
    (World.accept_queue (ex_server_world [20; 21; 22] 16)).
Proof.
  cbn. repeat split;
    apply (bool_decide_unpack _); vm_compute; exact I.
Qed.

Lemma X9_witness :
  (server_inv (ex_server 8) (ex_server_world [20; 21; 22] 16)
   ∧ accept_fresh (World.open_fds (ex_server_world [20; 21; 22] 16))
       (World.accept_queue (ex_server_world [20; 21; 22] 16)))
  ∧ ∃ s' k',
      _server_event_handle_listener
        (ex_server 8, ex_server_world [20; 21; 22] 16) = Ok tt (s', k')
      ∧ server_inv s' k'
      ∧ World.accept_queue k' = [21; 22].
Proof.
  split; [split; [apply ex_server_inv | apply ex_accept_fresh]|].
  destruct (X9_accept_handler_keeps_server_invariants _ _
              (ex_server_inv [20; 21; 22] 16) ex_accept_fresh)
    as (s' & k' & Hrun & Hinv & _ & Hq & _).
  exists s', k'. split; [exact Hrun|]. split; [exact Hinv | exact Hq].
Defined.

(** ** The server loop *)

Lemma server_inv_is_alive s k v :
  server_inv s k →
  server_inv (Server.mk v (Server.listen_fd s) (Server.signal_fd s)
                (Server.workers_curr s) (Server.workers_len s)
                (Server.workers s)) k.
Proof.
  intros [[H1 H2 H3] Hw Hefd Heo Hown Hevo].
  split; [split; assumption | exact Hw | exact Hefd | exact Heo
         | exact Hown | exact Hevo].
Qed.

(** The signal handler when one of the three signals of the mask, or
    nothing, was read. *)
Lemma _server_event_handle_signal_masked rd s k :
  (∀ signo, rd = Some signo →
            signo = SIGHUP ∨ signo = SIGINT ∨ signo = SIGQUIT) →
  ∃ v,
    _server_event_handle_signal rd (s, k)
    = Ok tt (Server.mk v (Server.listen_fd s) (Server.signal_fd s)
               (Server.workers_curr s) (Server.workers_len s)
               (Server.workers s), k)
    ∧ (v = Server.is_alive s ∨ v = 0)
    ∧ (v = 0 ↔ Server.is_alive s = 0
               ∨ rd = Some SIGINT ∨ rd = Some SIGQUIT).
Proof.
  intros Hrd. destruct rd as [signo|].
  - destruct (Hrd signo eq_refl) as [-> | [-> | ->]].
    + exists (Server.is_alive s). split; [by destruct s|].
      split; [auto|]. split; [auto|].
      intros [H | [H | H]]; [exact H | |];
        unfold SIGHUP, SIGINT, SIGQUIT in H; discriminate H.
    + exists 0. split; [reflexivity|]. split; [auto|]. split; auto.
    + exists 0. split; [reflexivity|]. split; [auto|]. split; auto.
  - exists (Server.is_alive s). split; [by destruct s|].
    split; [auto|]. split; [auto|].
    intros [H | [H | H]]; [exact H | discriminate H | discriminate H].
Qed.

(** The first half of a pass: the listening descriptor. *)
Lemma server_pass_listener rvl s k :
  server_inv s k →
  accept_fresh (World.open_fds k) (World.accept_queue k) →
  ∃ s1 k1,
    (if revents_in rvl then _server_event_handle_listener
     else ret tt) (s, k) = Ok tt (s1, k1)
    ∧ server_inv s1 k1
    ∧ accept_fresh (World.open_fds k1) (World.accept_queue k1)
    ∧ World.tx k1 = World.tx k
    ∧ Server.is_alive s1 = Server.is_alive s
    ∧ Server.listen_fd s1 = Server.listen_fd s
    ∧ Server.signal_fd s1 = Server.signal_fd s
    ∧ Server.workers_len s1 = Server.workers_len s
    ∧ World.accept_queue k1
      = (if revents_in rvl then tail (World.accept_queue k)
         else World.accept_queue k).
Proof.
  intros Hinv Hfresh. destruct (revents_in rvl).
  - destruct (_server_event_handle_listener_keeps_inv s k Hinv Hfresh)
      as (s1 & k1 & H1 & H2 & H3 & H9 & H4 & H5 & H6 & H7 & H8).
    exists s1, k1. auto 10.
  - exists s, k. auto 10.
Qed.

Lemma server_event_loop_runs script : ∀ s k,
  server_inv s k →
  accept_fresh (World.open_fds k) (World.accept_queue k) →
  signals_masked script →
  ∃ r s' k',
    server_event_loop script (s, k) = Ok r (s', k')
    ∧ server_inv s' k'
    ∧ accept_fresh (World.open_fds k') (World.accept_queue k')
    ∧ World.tx k' = World.tx k
    ∧ Server.listen_fd s' = Server.listen_fd s
    ∧ Server.signal_fd s' = Server.signal_fd s
    ∧ Server.workers_len s' = Server.workers_len s
    ∧ (r = None ∨ r = Some 0 ∨ r = Some (-1))
    ∧ (r = Some (-1) → ∃ st, st ∈ script ∧ pass_failed st = true)
    ∧ (r = None → Server.is_alive s' ≠ 0).
Proof.
  induction script as [|st rest IH]; intros s k Hinv Hfresh Hsig.
  - cbn [server_event_loop]. erewrite bind_Ok by reflexivity.
    destruct (Z.eqb_spec (Server.is_alive s) 0) as [E|E].
    + exists (Some 0), s, k. loop_exit Hinv Hfresh; discriminate.
    + exists None, s, k. loop_exit Hinv Hfresh; [discriminate | auto].
  - cbn [server_event_loop]. erewrite bind_Ok by reflexivity.
    destruct (Z.eqb_spec (Server.is_alive s) 0) as [E|E].
    { exists (Some 0), s, k. loop_exit Hinv Hfresh; discriminate. }
    assert (signals_masked rest) as Hsig'
      by (intros st' signo Hin; apply Hsig; by right).
    destruct (PollStep.poll st) as [rvl rvs| |] eqn:Hpoll.
    + destruct (revents_failed rvl) eqn:Hfl.
      { exists (Some (-1)), s, k. loop_exit Hinv Hfresh; [|discriminate].
        intros _. exists st. split; [left|].
        unfold pass_failed. by rewrite Hpoll, Hfl. }
      destruct (server_pass_listener rvl s k Hinv Hfresh)
        as (s1 & k1 & Hrun1 & Hinv1 & Hfresh1 & Htx1 & Hal1 & Hl1 & Hs1
            & Hlen1 & _).
      erewrite bind_Ok by exact Hrun1.
      destruct (revents_failed rvs) eqn:Hfs.
      { exists (Some (-1)), s1, k1.
        split; [reflexivity|]. split; [exact Hinv1|].
        split; [exact Hfresh1|]. split; [exact Htx1|].
        split; [exact Hl1|]. split; [exact Hs1|]. split; [exact Hlen1|].
        split; [auto|]. split; [|discriminate].
        intros _. exists st. split; [left|].
        unfold pass_failed. rewrite Hpoll, Hfl, Hfs. reflexivity. }
      (* the signal descriptor *)
      assert (∃ v,
                (if revents_in rvs
                 then _server_event_handle_signal (PollStep.signal_read st)
                 else ret tt) (s1, k1)
                = Ok tt (Server.mk v (Server.listen_fd s1)
                           (Server.signal_fd s1) (Server.workers_curr s1)
                           (Server.workers_len s1) (Server.workers s1), k1))
        as (v & Hrun2).
      { destruct (revents_in rvs).
        - destruct (_server_event_handle_signal_masked
                      (PollStep.signal_read st) s1 k1) as (v & H & _).
          { intros signo. apply Hsig. left. }
          eauto.
        - exists (Server.is_alive s1). by destruct s1. }
      erewrite bind_Ok by exact Hrun2.
      destruct (IH _ k1 (server_inv_is_alive s1 k1 v Hinv1) Hfresh1 Hsig')
        as (r & s' & k' & Hloop & Hinv' & Hfresh' & Htx' & Hl' & Hs' & Hlen'
            & Hr & Herr & Hnone).
      exists r, s', k'. split; [exact Hloop|].
      split; [exact Hinv'|]. split; [exact Hfresh'|].
      split; [congruence|]. split; [rewrite Hl'; exact Hl1|].
      split; [rewrite Hs'; exact Hs1|].
      split; [rewrite Hlen'; exact Hlen1|]. split; [exact Hr|].
      split; [|exact Hnone].
      intros Er. destruct (Herr Er) as (st' & Hin & Hf).
      exists st'. split; [by right | exact Hf].
    + exists (Some 0), s, k. loop_exit Hinv Hfresh; discriminate.
    + exists (Some (-1)), s, k. loop_exit Hinv Hfresh; [|discriminate].
      intros _. exists st. split; [left|].
      unfold pass_failed. by rewrite Hpoll.
Qed.

(** X10.  The server loop.  In a server that satisfies the server
    invariants, with fresh descriptors from [accept] and only the three
    masked signals delivered, [_server_event_loop] never aborts or faults
    and keeps the invariants, whatever [poll] reports.  When it returns,
    [is_alive] is 0 and the return value is 0 or -1; it is -1 only if
    [poll] failed with an error other than EINTR or reported POLLERR or
    POLLHUP on one of the two descriptors.  It writes to no socket and
    changes neither descriptor of the server nor the number of workers. *)
Theorem X10_server_loop_returns_cleared script s k :
  server_inv s k →
  accept_fresh (World.open_fds k) (World.accept_queue k) →
  signals_masked script →
  ∃ r s' k',
    _server_event_loop script (s, k) = Ok r (s', k')
    ∧ server_inv s' k'
    ∧ accept_fresh (World.open_fds k') (World.accept_queue k')
    ∧ World.tx k' = World.tx k
    ∧ Server.listen_fd s' = Server.listen_fd s
    ∧ Server.signal_fd s' = Server.signal_fd s
    ∧ Server.workers_len s' = Server.workers_len s
    ∧ (∀ v, r = Some v → Server.is_alive s' = 0 ∧ (v = 0 ∨ v = -1))
    ∧ (r = Some (-1) → ∃ st, st ∈ script ∧ pass_failed st = true)
    ∧ (r = None → Server.is_alive s' ≠ 0).
Proof.
  intros Hinv Hfresh Hsig.
  destruct (server_event_loop_runs script _ k
              (server_inv_is_alive s k 1 Hinv) Hfresh Hsig)
    as (r & s1 & k1 & Hloop & Hinv1 & Hfresh1 & Htx1 & Hl1 & Hs1 & Hlen1
        & Hr & Herr & Hnone).
  unfold _server_event_loop.
  erewrite bind_Ok by reflexivity.
  erewrite bind_Ok by exact Hloop.
  destruct r as [v|].
  - eexists _, _, _. split; [reflexivity|].
    split; [by apply server_inv_is_alive|]. split; [exact Hfresh1|].
    split; [exact Htx1|]. split; [exact Hl1|]. split; [exact Hs1|].
    split; [exact Hlen1|]. split.
    { intros v' [= <-]. split; [reflexivity|].
      destruct Hr as [E|[E|E]]; [discriminate| |]; injection E as ->; auto. }
    split; [exact Herr | discriminate].
  - exists None, s1, k1. split; [reflexivity|]. split; [exact Hinv1|].
    split; [exact Hfresh1|]. split; [exact Htx1|]. split; [exact Hl1|].
    split; [exact Hs1|]. split; [exact Hlen1|].
    split; [discriminate|]. split; [discriminate | exact Hnone].
Qed.

(** A server loop of two passes over the example server: a connection, then
    an interrupt. *)
Lemma X10_witness :
  (server_inv (ex_server 8) (ex_server_world [20; 21; 22] 16)
   ∧ accept_fresh (World.open_fds (ex_server_world [20; 21; 22] 16))
       (World.accept_queue (ex_server_world [20; 21; 22] 16))
   ∧ signals_masked [PollStep.mk (PollReady 1 0) None;
                     PollStep.mk (PollReady 0 1) (Some SIGINT)])
  ∧ ∃ r s' k',
      _server_event_loop
        [PollStep.mk (PollReady 1 0) None;
         PollStep.mk (PollReady 0 1) (Some SIGINT)]
        (ex_server 8, ex_server_world [20; 21; 22] 16) = Ok r (s', k')
      ∧ server_inv s' k'
      ∧ (∀ v, r = Some v → Server.is_alive s' = 0 ∧ (v = 0 ∨ v = -1)).
Proof.
  assert (signals_masked [PollStep.mk (PollReady 1 0) None;
                          PollStep.mk (PollReady 0 1) (Some SIGINT)])
    as Hsig.
  { intros st signo Hin Hrd.
    apply elem_of_cons in Hin as [->|Hin]; [discriminate Hrd|].
    apply list_elem_of_singleton in Hin as ->.
    injection Hrd as <-. auto. }
  split; [split; [apply ex_server_inv
                 | split; [apply ex_accept_fresh | exact Hsig]]|].
  destruct (X10_server_loop_returns_cleared _ _ _
              (ex_server_inv [20; 21; 22] 16) ex_accept_fresh Hsig)
    as (r & s' & k' & Hrun & Hinv & _ & _ & _ & _ & _ & Hret & _).
  exists r, s', k'. auto.
Defined.







(** ** Start-up: the failure path *)

Lemma create_workers_first_failure env n : ∀ i f ws tr,
  0 ≤ i → i ≤ f < i + Z.of_nat n → f < UINT_MODULUS →
  (∀ x, i ≤ x < f → fst (_worker_create env x) = 0) →
  fst (_worker_create env f) < 0 →
  create_workers env n i ws tr
  = (false, f,
     ws ++ map (λ x, snd (_worker_create env x))
             (indices i (Z.to_nat (f - i))),
     tr ++ map (λ x, SWorkerCreate x 0) (indices i (Z.to_nat (f - i)))
        ++ [SWorkerCreate f (fst (_worker_create env f))]).
Proof.
  induction n as [|n IH]; intros i f ws tr Hi Hf Hlt Hok Hfail; [lia|].
  cbn [create_workers].
  destruct (Z.eq_dec i f) as [->|Hne].
  - destruct (_worker_create env f) as [r w] eqn:E. cbn [fst] in Hfail.
    destruct (Z.ltb_spec r 0) as [_|Hge]; [|lia].
    rewrite Z.sub_diag. cbn. by rewrite app_nil_r.
  - pose proof (Hok i ltac:(lia)) as Hr.
    destruct (_worker_create env i) as [r w] eqn:E. cbn [fst] in Hr.
    subst r. change (0 <? 0) with false. cbv iota.
    assert (wrap_unsigned (i + 1) = i + 1) as ->
      by (unfold wrap_unsigned; apply Z.mod_small; lia).
    rewrite (IH (i + 1) f); [|lia|lia|exact Hlt
                             |intros x Hx; apply Hok; lia|exact Hfail].
    replace (Z.to_nat (f - i)) with (S (Z.to_nat (f - (i + 1)))) by lia.
    cbn [indices map]. rewrite E. cbn [snd].
    rewrite <- !app_assoc. reflexivity.
Qed.

Lemma indices_snoc n : ∀ i,
  indices i (S n) = indices i n ++ [i + Z.of_nat n].
Proof.
  induction n as [|n IH]; intros i.
  - cbn. by rewrite Z.add_0_r.
  - change (indices i (S (S n))) with (i :: indices (i + 1) (S n)).
    rewrite IH. cbn [indices app].
    replace (i + 1 + Z.of_nat n) with (i + Z.of_nat (S n)) by lia.
    reflexivity.
Qed.

Lemma destroy_workers_all env n :
  (∀ j, 0 ≤ j < Z.of_nat n → Env.thrd_join_returns env j = true) →
  destroy_workers env n = (true, map SWorkerDestroy (rev (indices 0 n))).
Proof.
  induction n as [|n IH]; intros Hjoin; [reflexivity|].
  cbn [destroy_workers]. rewrite Hjoin by lia. rewrite IH.
  - rewrite indices_snoc, rev_app_distr. cbn [rev app map].
    by rewrite Z.add_0_l.
  - intros j Hj. apply Hjoin. lia.
Qed.

(** The threads of the workers above [j] can be joined, that of worker [j]
    cannot: the destroy of worker [j] is the last thing that happens. *)
Lemma destroy_workers_blocked env n j :
  (j < n)%nat →
  Env.thrd_join_returns env (Z.of_nat j) = false →
  (∀ j', Z.of_nat j < j' < Z.of_nat n →
         Env.thrd_join_returns env j' = true) →
  destroy_workers env n
  = (false, map SWorkerDestroy (rev (indices (Z.of_nat j) (n - j)))).
Proof.
  induction n as [|n IH]; intros Hj Hblock Hjoin; [lia|].
  cbn [destroy_workers].
  destruct (decide (j = n)) as [->|Hne].
  - rewrite Hblock. replace (S n - n)%nat with 1%nat by lia. reflexivity.
  - rewrite Hjoin by lia. rewrite IH; [|lia|exact Hblock|].
    + replace (S n - j)%nat with (S (n - j)) by lia.
      rewrite indices_snoc, rev_app_distr. cbn [rev app map].
      replace (Z.of_nat j + Z.of_nat (n - j)) with (Z.of_nat n) by lia.
      reflexivity.
    + intros j' Hj'. apply Hjoin. lia.
Qed.

(** X13.  Start-up, failure path.  If the creation of worker [f] is the
    first to fail, [_server_create_workers] makes not a single poll of a
    liveness flag, however the flags read: it has created the workers 0 to
    [f - 1] in this order and now destroys them in the opposite order.
    Provided that the thread of every one of them can be joined, it
    returns -1, and the server structure is what it was: the array, its
    length and the counter are assigned after the creation loop only.  If
    the thread of worker [j] cannot be joined (it set its flag after the
    destroy had cleared it) while those of the workers above [j] can, the
    function does not return: it stays in the destroy of worker [j], the
    workers below [j] untouched. *)
Theorem X13_startup_failure_destroys_created fuel env s f :
  0 < Env.get_nprocs env →
  Env.malloc_ok env = true →
  0 ≤ f < Env.get_nprocs env → f < UINT_MODULUS →
  (∀ x, 0 ≤ x < f → fst (_worker_create env x) = 0) →
  fst (_worker_create env f) < 0 →
  ((∀ j, 0 ≤ j < f → Env.thrd_join_returns env j = true) →
   _server_create_workers fuel env s
   = Returned (-1) s
       (map (λ x, SWorkerCreate x 0) (indices 0 (Z.to_nat f))
        ++ [SWorkerCreate f (-1)]
        ++ map SWorkerDestroy (rev (indices 0 (Z.to_nat f)))))
  ∧ (∀ j, 0 ≤ j < f →
       Env.thrd_join_returns env j = false →
       (∀ j', j < j' < f → Env.thrd_join_returns env j' = true) →
       _server_create_workers fuel env s
       = Blocked
           (map (λ x, SWorkerCreate x 0) (indices 0 (Z.to_nat f))
            ++ [SWorkerCreate f (-1)]
            ++ map SWorkerDestroy (rev (indices j (Z.to_nat (f - j)))))).
Proof.
  intros Hn Hmalloc Hf Hlt Hok Hfail.
  assert (fst (_worker_create env f) = -1) as Hret.
  { revert Hfail. unfold _worker_create.
    destruct (Env.epoll_create1 env f <? 0); [reflexivity|].
    destruct (Env.mempool_init env f <? 0); [reflexivity|].
    destruct (negb (Env.thrd_create_ok env f)); [reflexivity|].
    cbn. lia. }
  assert (_server_create_workers fuel env s
          = match destroy_workers env (Z.to_nat f) with
            | (true, tr') =>
                Returned (-1) s
                  ((map (λ x, SWorkerCreate x 0) (indices 0 (Z.to_nat f))
                    ++ [SWorkerCreate f (-1)]) ++ tr')
            | (false, tr') =>
                Blocked
                  ((map (λ x, SWorkerCreate x 0) (indices 0 (Z.to_nat f))
                    ++ [SWorkerCreate f (-1)]) ++ tr')
            end) as Hrun.
  { unfold _server_create_workers.
    destruct (Z.leb_spec (Env.get_nprocs env) 0); [lia|].
    rewrite Hmalloc. cbn [negb].
    rewrite (create_workers_first_failure env _ 0 f);
      [|lia|lia|exact Hlt|exact Hok|exact Hfail].
    rewrite Z.sub_0_r, Hret. reflexivity. }
  split.
  - intros Hjoin. rewrite Hrun, destroy_workers_all.
    + by rewrite <- app_assoc.
    + intros j Hj. apply Hjoin. lia.
  - intros j Hj Hblock Hjoin.
    rewrite Hrun, (destroy_workers_blocked env _ (Z.to_nat j)).
    + rewrite Z2Nat.id by lia.
      replace (Z.to_nat f - Z.to_nat j)%nat with (Z.to_nat (f - j)) by lia.
      by rewrite <- app_assoc.
    + lia.
    + rewrite Z2Nat.id by lia. exact Hblock.
    + intros j' Hj'. apply Hjoin. lia.
Qed.

(** Four processors; the thread of worker 2 cannot be created.  With
    threads that can be joined the function returns -1; when the thread of
    worker 0 cannot be joined it stays in the destroy of worker 0. *)
Lemma X13_witness :
  _server_create_workers 0
    (Env.mk 4 true (λ i, 6 + i) (λ _, 0) (λ i, negb (i =? 2)) 8 (λ _ _, 1)
       (λ _, true))
    ex_idle_server
  = Returned (-1) ex_idle_server
      [SWorkerCreate 0 0; SWorkerCreate 1 0; SWorkerCreate 2 (-1);
       SWorkerDestroy 1; SWorkerDestroy 0]
  ∧ _server_create_workers 0
      (Env.mk 4 true (λ i, 6 + i) (λ _, 0) (λ i, negb (i =? 2)) 8 (λ _ _, 1)
         (λ i, negb (i =? 0)))
      ex_idle_server
    = Blocked
        [SWorkerCreate 0 0; SWorkerCreate 1 0; SWorkerCreate 2 (-1);
         SWorkerDestroy 1; SWorkerDestroy 0].
Proof.
  assert (∀ joins,
            let env := Env.mk 4 true (λ i, 6 + i) (λ _, 0)
                         (λ i, negb (i =? 2)) 8 (λ _ _, 1) joins in
            (∀ x, 0 ≤ x < 2 → fst (_worker_create env x) = 0)
            ∧ fst (_worker_create env 2) < 0) as Henv.
  { intros joins env. split.
    - intros x Hx. assert (x = 0 ∨ x = 1) as [-> | ->] by lia; reflexivity.
    - vm_compute. reflexivity. }
  split.
  - refine (proj1 (X13_startup_failure_destroys_created 0
                     (Env.mk 4 true (λ i, 6 + i) (λ _, 0)
                        (λ i, negb (i =? 2)) 8 (λ _ _, 1) (λ _, true))
                     ex_idle_server 2 _ eq_refl _ _
                     (proj1 (Henv _)) (proj2 (Henv _))) _).
    + reflexivity.
    + cbn. lia.
    + reflexivity.
    + reflexivity.
  - refine (proj2 (X13_startup_failure_destroys_created 0
                     (Env.mk 4 true (λ i, 6 + i) (λ _, 0)
                        (λ i, negb (i =? 2)) 8 (λ _ _, 1)
                        (λ i, negb (i =? 0)))
                     ex_idle_server 2 _ eq_refl _ _
                     (proj1 (Henv _)) (proj2 (Henv _))) 0 _ eq_refl _).
    + reflexivity.
    + cbn. lia.
    + reflexivity.
    + lia.
    + intros j' Hj'. assert (j' = 1) as -> by lia. reflexivity.
Defined.

(** ** Start-up: what a return of 0 has seen *)

Lemma _worker_create_ret env i :
  fst (_worker_create env i) = 0 ∨ fst (_worker_create env i) = -1.
Proof.
  unfold _worker_create.
  destruct (Env.epoll_create1 env i <? 0); [by right|].
  destruct (Env.mempool_init env i <? 0); [by right|].
  destruct (negb (Env.thrd_create_ok env i)); [by right | by left].
Qed.

Lemma create_workers_true env n : ∀ i ws tr i' ws' tr',
  0 ≤ i → i + Z.of_nat n < UINT_MODULUS →
  create_workers env n i ws tr = (true, i', ws', tr') →
  i' = i + Z.of_nat n
  ∧ length ws' = (length ws + n)%nat
  ∧ (∀ x, i ≤ x < i + Z.of_nat n → fst (_worker_create env x) = 0).
Proof.
  induction n as [|n IH]; intros i ws tr i' ws' tr' Hi Hlt Hrun.
  - cbn in Hrun. injection Hrun as <- <- <-.
    split; [lia|]. split; [lia|]. intros x Hx. lia.
  - cbn [create_workers] in Hrun.
    pose proof (_worker_create_ret env i) as Hret.
    destruct (_worker_create env i) as [r w] eqn:E. cbn [fst] in Hret.
    destruct (Z.ltb_spec r 0) as [Hneg|Hpos]; [discriminate|].
    assert (r = 0) as -> by lia.
    assert (wrap_unsigned (i + 1) = i + 1) as Hw
      by (unfold wrap_unsigned; apply Z.mod_small; lia).
    rewrite Hw in Hrun.
    apply IH in Hrun as (Hi' & Hlen & Hok); [|lia|lia].
    split; [lia|]. split; [rewrite Hlen, length_app; cbn; lia|].
    intros x Hx. destruct (Z.eq_dec x i) as [->|Hne].
    + by rewrite E.
    + apply Hok. lia.
Qed.

Lemma wait_workers_observed env i fuel : ∀ j t ws ws' tr,
  0 ≤ j → i < UINT_MODULUS →
  wait_workers fuel env i j t ws = Some (ws', tr) →
  ∀ x, j ≤ x < i → ∃ v, v ≠ 0 ∧ SPoll x v ∈ tr.
Proof.
  induction fuel as [|fuel IH]; intros j t ws ws' tr Hj Hi Hrun x Hx.
  - cbn in Hrun. destruct (Z.ltb_spec j i); [discriminate | lia].
  - cbn [wait_workers] in Hrun.
    destruct (Z.ltb_spec j i) as [Hlt|Hge]; [|lia].
    cbv zeta in Hrun.
    destruct (wait_workers fuel env i _ (S t) _) as [[ws2 tr']|] eqn:Hrec;
      [|discriminate].
    injection Hrun as <- <-.
    destruct (Z.eqb_spec (Env.atomic_load_is_alive env t j) 0) as [E|E].
    + destruct (IH _ _ _ _ _ Hj Hi Hrec x Hx) as (v & Hv & Hin).
      exists v. split; [exact Hv | by do 2 right].
    + assert (wrap_unsigned (j + 1) = j + 1) as Hw
        by (unfold wrap_unsigned; apply Z.mod_small; lia).
      rewrite Hw in Hrec.
      destruct (Z.eq_dec x j) as [->|Hne].
      * exists (Env.atomic_load_is_alive env t j). split; [exact E | left].
      * assert (0 ≤ j + 1) as Hj1 by lia.
        assert (j + 1 ≤ x < i) as Hx1 by lia.
        destruct (IH _ _ _ _ _ Hj1 Hi Hrec x Hx1) as (v & Hv & Hin).
        exists v. split; [exact Hv | by do 2 right].
Qed.

(** X14.  Start-up, what a return of 0 means.  If
    [_server_create_workers] returns 0, every worker was created without
    error and the liveness flag of every worker was read as set by a poll
    of the wait loop at least once; the server then has as many workers as
    there are processors, with the counter at 0. *)
Theorem X14_startup_success_has_seen_every_worker fuel env s s' tr :
  Env.get_nprocs env < UINT_MODULUS →
  _server_create_workers fuel env s = Returned 0 s' tr →
  Server.workers_len s' = Env.get_nprocs env
  ∧ Server.workers_curr s' = 0
  ∧ Z.of_nat (length (Server.workers s')) = Env.get_nprocs env
  ∧ 0 < Env.get_nprocs env
  ∧ ∀ x, 0 ≤ x < Env.get_nprocs env →
         fst (_worker_create env x) = 0
         ∧ ∃ v, v ≠ 0 ∧ SPoll x v ∈ tr.
Proof.
  intros Hn. unfold _server_create_workers.
  destruct (Z.leb_spec (Env.get_nprocs env) 0) as [|Hpos]; [discriminate|].
  destruct (negb (Env.malloc_ok env)); [discriminate|].
  destruct (create_workers env (Z.to_nat (Env.get_nprocs env)) 0 [] [])
    as [[[ok i] ws] tr0] eqn:Hcreate.
  destruct ok;
    [|destruct (destroy_workers env (Z.to_nat i)) as [[] ?]; discriminate].
  pose proof Hcreate as Hc.
  apply create_workers_true in Hc as (Hi & Hlen & Hok); [|lia|lia].
  destruct (wait_workers fuel env i 0 0 ws) as [[ws' polls]|] eqn:Hwait;
    [|discriminate].
  intros [= <- <-]. proj_simpl. cbn [length Nat.add] in Hlen.
  assert (length ws' = length ws) as Hlen'.
  { destruct (wait_workers_flags env i fuel 0 0%nat ws ws' polls)
      as [H _]; [lia | lia | exact Hwait | exact H]. }
  split; [reflexivity|]. split; [reflexivity|]. split; [lia|].
  split; [exact Hpos|].
  intros x Hx. split; [apply Hok; lia|].
  destruct (wait_workers_observed env i fuel 0 0%nat ws ws' polls ltac:(lia)
              ltac:(lia) Hwait x ltac:(lia)) as (v & Hv & Hin).
  exists v. split; [exact Hv|]. apply elem_of_app. by right.
Qed.

(** Two processors; worker 0 is read as alive at the third poll only. *)
Lemma X14_witness :
  (Env.get_nprocs (ex_env 2 (λ t _, if (t <? 2)%nat then 0 else 1))
   < UINT_MODULUS
   ∧ _server_create_workers 4
       (ex_env 2 (λ t _, if (t <? 2)%nat then 0 else 1)) ex_idle_server
     = Returned 0
         (Server.mk 0 4 5 0 2
            [Worker.mk 0 1 6 (Mempool.mk ∅ ∅ 8);
             Worker.mk 1 1 7 (Mempool.mk ∅ ∅ 8)])
         [SWorkerCreate 0 0; SWorkerCreate 1 0;
          SPoll 0 0; SSleep 10000; SPoll 0 0; SSleep 10000;
          SPoll 0 1; SSleep 10000; SPoll 1 1; SSleep 10000])
  ∧ ∀ x, 0 ≤ x < 2 →
         ∃ v, v ≠ 0
              ∧ SPoll x v ∈ [SWorkerCreate 0 0; SWorkerCreate 1 0;
                             SPoll 0 0; SSleep 10000; SPoll 0 0;
                             SSleep 10000; SPoll 0 1; SSleep 10000;
                             SPoll 1 1; SSleep 10000].
Proof.
  assert (Env.get_nprocs (ex_env 2 (λ t _, if (t <? 2)%nat then 0 else 1))
          < UINT_MODULUS) as Hn by reflexivity.
  assert (_server_create_workers 4
            (ex_env 2 (λ t _, if (t <? 2)%nat then 0 else 1)) ex_idle_server
          = Returned 0
              (Server.mk 0 4 5 0 2
                 [Worker.mk 0 1 6 (Mempool.mk ∅ ∅ 8);
                  Worker.mk 1 1 7 (Mempool.mk ∅ ∅ 8)])
              [SWorkerCreate 0 0; SWorkerCreate 1 0;
               SPoll 0 0; SSleep 10000; SPoll 0 0; SSleep 10000;
               SPoll 0 1; SSleep 10000; SPoll 1 1; SSleep 10000]) as Hrun
    by reflexivity.
  split; [split; [exact Hn | exact Hrun]|].
  intros x Hx.
  destruct (X14_startup_success_has_seen_every_worker _ _ _ _ _ Hn Hrun)
    as (_ & _ & _ & _ & Hall).
  exact (proj2 (Hall x Hx)).
Defined.

(** ** What a worker leaves of the world of the others *)

Lemma world_frame_same efd k k' :
  World.open_fds k' = World.open_fds k → World.epolls k' = World.epolls k →
  world_frame efd k k'.
Proof.
  intros Ho He. split.
  - intros fd. by rewrite Ho.
  - intros e _. by rewrite He.
  - intros e tbl _ Ht. exists tbl. rewrite He. split; [exact Ht | auto].
Qed.

Lemma world_frame_trans efd k k1 k2 :
  world_frame efd k k1 → world_frame efd k1 k2 → world_frame efd k k2.
Proof.
  intros [Ho1 Hn1 Hs1] [Ho2 Hn2 Hs2]. split.
  - auto.
  - auto.
  - intros e tbl He Ht.
    destruct (Hs1 e tbl He Ht) as (tbl1 & Ht1 & H1).
    destruct (Hs2 e tbl1 He Ht1) as (tbl2 & Ht2 & H2).
    exists tbl2. split; [exact Ht2|]. intros fd.
    destruct (H2 fd) as [E2 | [E2 Hc2]]; [|by right].
    destruct (H1 fd) as [E1 | [E1 Hc1]].
    + left. congruence.
    + right. split; [congruence|]. intros Hin. apply Hc1. auto.
Qed.

Lemma world_frame_close efd k fd :
  world_frame efd k
    (World.log (EClose fd)
       (World.set_rx (delete fd (World.rx k))
          (World.set_epolls (delete fd <$> World.epolls k)
             (World.set_open_fds (World.open_fds k ∖ {[fd]}) k)))).
Proof.
  split; world_step.
  - intros fd' [H _]%elem_of_difference. exact H.
  - intros e _ He. by rewrite lookup_fmap, He.
  - intros e tbl _ He. exists (delete fd tbl).
    rewrite lookup_fmap, He. split; [reflexivity|]. intros fd'.
    destruct (decide (fd = fd')) as [<-|Hne].
    + right. rewrite lookup_delete_eq. split; [reflexivity|].
      rewrite elem_of_difference, elem_of_singleton. tauto.
    + left. by rewrite lookup_delete_ne.
Qed.

Lemma world_frame_del_world efd tbl cl po es k :
  world_frame efd k (del_world efd tbl cl po es k).
Proof.
  split.
  - intros fd. rewrite del_world_open.
    intros [H _]%elem_of_difference. exact H.
  - intros e He Hn. unfold del_world. world_step. cbn.
    by rewrite lookup_fmap, lookup_insert_ne, Hn by (by apply not_eq_sym).
  - intros e t He Ht. exists (delete (Client.src_fd cl) t). split.
    { unfold del_world. world_step. cbn.
      by rewrite lookup_fmap, lookup_insert_ne, Ht by (by apply not_eq_sym). }
    intros fd. rewrite del_world_open.
    destruct (decide (Client.src_fd cl = fd)) as [<-|Hne].
    + right. rewrite lookup_delete_eq. split; [reflexivity|].
      rewrite elem_of_difference, elem_of_singleton. tauto.
    + left. by rewrite lookup_delete_ne.
Qed.

Lemma _worker_client_del_frame w k a cl w' k' :
  worker_inv w k → is_live w a → slot w a = Some cl →
  _worker_client_del a (w, k) = Ok tt (w', k') →
  world_frame (Worker.event_fd w) k k'.
Proof.
  intros [Hwf _] Ha Hcl.
  destruct (wf_registered _ _ Hwf a cl Ha Hcl) as (tbl & e1 & Ht & _).
  destruct (Client.peer cl) as [p|] eqn:Hpeer.
  - destruct (wf_peer _ _ Hwf a cl p Ha Hcl Hpeer)
      as (_ & _ & pl & Hpl & _).
    rewrite (_worker_client_del_paired w k a cl p pl tbl) by assumption.
    intros [= <- <-]. apply world_frame_del_world.
  - rewrite (_worker_client_del_single w k a cl tbl) by assumption.
    intros [= <- <-]. apply world_frame_del_world.
Qed.

Lemma _worker_handle_client_state_frame w k a cl w' k' :
  worker_inv w k → is_live w a → slot w a = Some cl →
  0 ≤ Client.state cl ≤ 6 →
  _worker_handle_client_state a (w, k) = Ok tt (w', k') →
  world_frame (Worker.event_fd w) k k'.
Proof.
  intros Hinv Ha Hcl Hst.
  destruct (_worker_client_del_keeps_inv w (World.log (ELoad a F_state) k)
              a cl (worker_inv_log _ _ _ Hinv) Ha Hcl)
    as (w1 & k1 & es & Hdel & _ & _ & Hsame & _).
  assert (slot w1 a = Some cl) as Hcl1.
  { rewrite Hsame; [exact Hcl|].
    intros E. destruct Hinv as [Hwf _].
    by destruct (wf_peer _ _ Hwf a cl a Ha Hcl E) as (Hne & _). }
  unfold _worker_handle_client_state.
  erewrite bind_Ok by (apply load_Ok; eassumption).
  erewrite bind_Ok by (apply client_state_switch_stop; assumption).
  change (_CLIENT_STATE_STOP =? _CLIENT_STATE_STOP) with true. cbv iota.
  erewrite bind_Ok by exact Hdel.
  rewrite (store_Ok _ _ _ _ _ _ Hcl1). intros [= <- <-].
  apply (world_frame_trans _ _ (World.log (ELoad a F_state) k));
    [by apply world_frame_same|].
  apply (world_frame_trans _ _ k1);
    [|by apply world_frame_same].
  exact (_worker_client_del_frame _ _ _ _ _ _
           (worker_inv_log _ _ _ Hinv) Ha Hcl Hdel).
Qed.

Lemma dispatch_events_clients_frame l : ∀ w k w' k',
  worker_inv w k → states_known w → NoDup l → (∀ a, a ∈ l → is_live w a) →
  dispatch_events (Some <$> l) (w, k) = Ok tt (w', k') →
  world_frame (Worker.event_fd w) k k'.
Proof.
  induction l as [|a l IH]; intros w k w' k' Hinv Hst Hnd Hall.
  - intros [= <- <-]. by apply world_frame_same.
  - apply NoDup_cons in Hnd as [Hnotin Hnd].
    assert (is_live w a) as Ha by (apply Hall; left).
    destruct (wf_slot _ _ (proj1 Hinv) a Ha) as [cl Hcl].
    destruct (_worker_handle_client_state_keeps_inv w k a cl Hinv Ha Hcl
                (Hst a cl Ha Hcl))
      as (w1 & k1 & Hrun & Hinv1 & Hlive1 & Hsame1 & Hpeer1 & Hefd1 & _).
    destruct (states_known_step w k a cl w1 Hinv Hst Ha Hcl Hlive1 Hsame1
                Hpeer1) as (Hst1 & _).
    cbn [fmap list_fmap dispatch_events].
    erewrite bind_Ok by exact Hrun. intros Hrest.
    apply (world_frame_trans _ _ k1).
    + exact (_worker_handle_client_state_frame _ _ _ _ _ _ Hinv Ha Hcl
               (Hst a cl Ha Hcl) Hrun).
    + rewrite <- Hefd1. apply (IH w1 k1 w' k' Hinv1 Hst1 Hnd); [|exact Hrest].
      intros b Hb. apply Hlive1. split; [apply Hall; by right|].
      intros ->. done.
Qed.

(** ** Shutdown of a worker *)

(** The cleanup callback on a record that has memory. *)
Lemma _worker_on_destroy_active_client_Ok w k a c :
  slot w a = Some c →
  ∃ k',
    _worker_on_destroy_active_client a (w, k) = Ok tt (w, k')
    ∧ World.open_fds k' = World.open_fds k ∖ {[Client.src_fd c]}
    ∧ World.tx k' = World.tx k
    ∧ (∀ e, World.epolls k !! e = None → World.epolls k' !! e = None)
    ∧ ∀ efd, world_frame efd k k'.
Proof.
  intros Hc. eexists. split.
  { unfold _worker_on_destroy_active_client.
    erewrite bind_Ok by (apply load_Ok; exact Hc).
    erewrite bind_Ok by apply sys_close_Ok.
    reflexivity. }
  split; [reflexivity|]. split; [reflexivity|]. split.
  { intros e He. world_step. by rewrite lookup_fmap, He. }
  intros efd.
  apply (world_frame_trans _ _ (World.log (ELoad a F_src_fd) k));
    [by apply world_frame_same|].
  eapply world_frame_trans; [apply world_frame_close|].
  by apply world_frame_same.
Qed.

Lemma mempool_drain_closes w l : ∀ k,
  (∀ a, a ∈ l → is_Some (slot w a)) →
  ∃ k',
    mempool_drain _worker_on_destroy_active_client l (w, k) = Ok tt (w, k')
    ∧ World.open_fds k' = World.open_fds k ∖ list_to_set (owned_fds w l)
    ∧ World.tx k' = World.tx k
    ∧ (∀ e, World.epolls k !! e = None → World.epolls k' !! e = None)
    ∧ ∀ efd, world_frame efd k k'.
Proof.
  induction l as [|a l IH]; intros k Hall.
  - exists k. split; [reflexivity|].
    split; [|split; [reflexivity|]; split; [auto|]].
    2:{ intros efd. by apply world_frame_same. }
    cbn. apply set_eq. intros fd.
    rewrite elem_of_difference, elem_of_empty. tauto.
  - destruct (Hall a ltac:(left)) as [c Hc].
    destruct (_worker_on_destroy_active_client_Ok w k a c Hc)
      as (k1 & Hrun1 & Hopen1 & Htx1 & Hep1 & Hfr1).
    destruct (IH k1) as (k' & Hrun & Hopen & Htx & Hep & Hfr).
    { intros b Hb. apply Hall. by right. }
    exists k'. split.
    { cbn [mempool_drain]. erewrite bind_Ok by exact Hrun1. exact Hrun. }
    split; [|split; [congruence|]; split; [auto|]].
    2:{ intros efd. by apply (world_frame_trans _ _ k1). }
    rewrite Hopen, Hopen1. unfold owned_fds. cbn. rewrite Hc. cbn.
    apply set_eq. intros fd.
    rewrite !elem_of_difference, elem_of_union, elem_of_singleton. tauto.
Qed.

Lemma elem_of_owned_fds w l fd :
  fd ∈ owned_fds w l ↔ ∃ a c, a ∈ l ∧ slot w a = Some c
                              ∧ Client.src_fd c = fd.
Proof.
  unfold owned_fds. rewrite list_elem_of_omap. split.
  - intros (a & Ha & Hf). destruct (slot w a) as [c|] eqn:Hc; [|discriminate].
    injection Hf as <-. eauto.
  - intros (a & c & Ha & Hc & <-). exists a. rewrite Hc. auto.
Qed.

Lemma _worker_destroy_closes pending w k :
  worker_inv w k → states_known w → NoDup pending →
  ∃ w' k',
    _worker_destroy pending (w, k) = Ok tt (w', k')
    ∧ Worker.is_alive w' = 0
    ∧ Worker.event_fd w' = Worker.event_fd w
    ∧ (∀ a, ¬ is_live w' a)
    ∧ (∀ fd, fd ∈ World.open_fds k'
             ↔ fd ∈ World.open_fds k ∧ fd ≠ Worker.event_fd w
               ∧ ¬ owns_fd w fd)
    ∧ World.epolls k' !! Worker.event_fd w = None
    ∧ World.tx k' = World.tx k
    ∧ world_frame (Worker.event_fd w) k k'.
Proof.
  intros Hinv Hst Hnd.
  pose proof (worker_inv_is_alive w k 0 Hinv) as Hinv0.
  set (w0 := Worker.mk (Worker.index w) 0 (Worker.event_fd w)
               (Worker.clients w)) in *.
  destruct (dispatch_events_batch w0 k pending Hinv0 Hst Hnd)
    as (w1 & k1 & Hrun1 & Hinv1 & Hst1 & Hlive1 & Hopen1 & Hefd1 & Htx1
        & Hfd1).
  change (Worker.event_fd w0) with (Worker.event_fd w) in *.
  set (w2 := Worker.mk (Worker.index w1) 0 (Worker.event_fd w1)
               (Worker.clients w1)).
  set (k2 := World.set_epolls
               (delete (Worker.event_fd w1)
                  (delete (Worker.event_fd w1) <$> World.epolls k1))
               (World.log (EClose (Worker.event_fd w1))
                  (World.set_rx
                     (delete (Worker.event_fd w1) (World.rx k1))
                     (World.set_open_fds
                        (World.open_fds k1 ∖ {[Worker.event_fd w1]}) k1)))).
  destruct (mempool_drain_closes w2
              (elements (Mempool.live (Worker.clients w2))) k2)
    as (k3 & Hrun3 & Hopen3 & Htx3 & Hep3 & Hfr3).
  { intros a Ha%elem_of_elements.
    exact (wf_slot _ _ (proj1 Hinv1) a Ha). }
  eexists _, k3. split.
  { unfold _worker_destroy.
    erewrite bind_Ok by reflexivity.
    erewrite bind_Ok.
    2:{ unfold thrd_join.
        erewrite bind_Ok by reflexivity.
        erewrite bind_Ok by reflexivity.
        erewrite bind_Ok by exact Hrun1.
        reflexivity. }
    erewrite bind_Ok by reflexivity.
    erewrite bind_Ok.
    2:{ unfold sys_close_epoll.
        erewrite bind_Ok by apply sys_close_Ok.
        reflexivity. }
    unfold mempool_deinit.
    erewrite bind_Ok by exact Hrun3.
    reflexivity. }
  split; [reflexivity|]. split; [exact Hefd1|]. split.
  { intros a. unfold is_live. cbn. apply not_elem_of_empty. }
  split.
  { intros fd. rewrite Hopen3, elem_of_difference, elem_of_list_to_set,
      elem_of_owned_fds.
    unfold k2. world_step. rewrite Hefd1.
    rewrite elem_of_difference, elem_of_singleton, Hopen1.
    split.
    - intros [[[Hopen Hnp] Hne] Hno]. split; [exact Hopen|].
      split; [exact Hne|].
      intros (a & c & Ha & Hc & Hfd).
      destruct (decide (fd ∈ pending)) as [Hin|Hout].
      + apply Hnp. split; [exact Hin|].
        destruct (wf_registered _ _ (proj1 Hinv) a c Ha Hc)
          as (tbl & ev & Ht & Hev & _).
        exists tbl. split; [exact Ht|]. rewrite <- Hfd. eauto.
      + assert (is_live w1 a) as Ha1.
        { apply Hlive1. split; [exact Ha|].
          intros c0 Hc0. change (slot w0 a) with (slot w a) in Hc0.
          rewrite Hc in Hc0. injection Hc0 as <-. by rewrite Hfd. }
        destruct (Hfd1 a c Ha1 Hc) as (c' & Hc' & E).
        apply Hno. exists a, c'.
        split; [by apply elem_of_elements|].
        split; [exact Hc' | congruence].
    - intros (Hopen & Hne & Hno). split; [split; [split|]|].
      + exact Hopen.
      + intros (_ & tbl & Ht & [ev Hev]).
        destruct (proj2 Hinv tbl fd ev Ht Hev) as (a & c & _ & Ha & Hc & Hf).
        apply Hno. exists a, c. auto.
      + exact Hne.
      + intros (a & c' & Ha1%elem_of_elements & Hc' & Hf).
        change (is_live w1 a) in Ha1.
        change (slot w2 a) with (slot w1 a) in Hc'.
        pose proof (proj1 (Hlive1 a) Ha1) as [Ha _].
        destruct (wf_slot _ _ (proj1 Hinv) a Ha) as [c Hc].
        destruct (Hfd1 a c Ha1 Hc) as (c'' & Hc'' & E).
        rewrite Hc' in Hc''. injection Hc'' as <-.
        apply Hno. exists a, c. split; [exact Ha|].
        split; [exact Hc | congruence]. }
  split.
  { apply Hep3. unfold k2. world_step. rewrite Hefd1.
    apply lookup_delete_eq. }
  split; [rewrite Htx3; unfold k2; world_step; exact Htx1|].
  apply (world_frame_trans _ _ k1).
  { pose proof (epoll_wait_events_clients w0 k pending Hinv0) as Hev.
    change (Worker.event_fd w0) with (Worker.event_fd w) in Hev.
    rewrite Hev in Hrun1.
    apply (dispatch_events_clients_frame
             (ready_clients k (Worker.event_fd w) pending)
             w0 k w1 k1 Hinv0 Hst);
      [by apply NoDup_ready_clients | | exact Hrun1].
    intros a Ha. by apply (elem_of_ready_clients w0 k pending a Hinv0) in Ha
      as [Hl _]. }
  apply (world_frame_trans _ _ k2); [|apply Hfr3].
  unfold k2. rewrite Hefd1. split; world_step.
  - intros fd [H _]%elem_of_difference. exact H.
  - intros e He Hn.
    by rewrite lookup_delete_ne, lookup_fmap, Hn by (by apply not_eq_sym).
  - intros e tbl He Ht. exists (delete (Worker.event_fd w) tbl).
    rewrite lookup_delete_ne, lookup_fmap, Ht by (by apply not_eq_sym).
    split; [reflexivity|]. intros fd.
    destruct (decide (Worker.event_fd w = fd)) as [<-|Hne].
    + right. rewrite lookup_delete_eq. split; [reflexivity|].
      rewrite elem_of_difference, elem_of_singleton. tauto.
    + left. by rewrite lookup_delete_ne.
Qed.

(** X15.  Shutdown of a worker.  From a worker that satisfies the
    invariants, [_worker_destroy] returns (given that the thread can be
    joined) with [is_alive] cleared and no record allocated.  The
    multiplexer and the descriptor of every record the worker had are
    closed, whether the record was released by the last pass of the thread
    or drained by the cleanup callback, and no other descriptor is; the
    interest list is gone.  Nothing is written to any socket: connections
    in flight are closed, not drained. *)
Theorem X15_worker_destroy_closes_every_descriptor pending w k :
  worker_inv w k → states_known w → NoDup pending →
  ∃ w' k',
    _worker_destroy pending (w, k) = Ok tt (w', k')
    ∧ Worker.is_alive w' = 0
    ∧ Worker.event_fd w' = Worker.event_fd w
    ∧ (∀ a, ¬ is_live w' a)
    ∧ (∀ fd, fd ∈ World.open_fds k'
             ↔ fd ∈ World.open_fds k ∧ fd ≠ Worker.event_fd w
               ∧ ¬ owns_fd w fd)
    ∧ World.epolls k' !! Worker.event_fd w = None
    ∧ World.tx k' = World.tx k.
Proof.
  intros Hinv Hst Hnd.
  destruct (_worker_destroy_closes pending w k Hinv Hst Hnd)
    as (w' & k' & H1 & H2 & H3 & H4 & H5 & H6 & H7 & _).
  exists w', k'. auto 10.
Qed.

(** The example pair, destroyed while the thread still has descriptor 10
    to serve. *)
Lemma X15_witness :
  (worker_inv ex_pair_worker ex_pair_world ∧ states_known ex_pair_worker
   ∧ NoDup [10])
  ∧ ∃ w' k',
      _worker_destroy [10] (ex_pair_worker, ex_pair_world) = Ok tt (w', k')
      ∧ Worker.is_alive w' = 0
      ∧ (∀ a, ¬ is_live w' a)
      ∧ World.tx k' = World.tx ex_pair_world.
Proof.
  split; [split; [apply ex_pair_inv
                 | split; [apply ex_pair_states_known
                          | apply NoDup_singleton]]|].
  destruct (X15_worker_destroy_closes_every_descriptor [10]
              ex_pair_worker ex_pair_world ex_pair_inv ex_pair_states_known
              (NoDup_singleton 10))
    as (w' & k' & Hrun & Hal & _ & Hlive & _ & _ & Htx).
  exists w', k'. auto.
Defined.

(** ** Shutdown of the server *)

(** The invariants of a worker survive the work of another worker that
    closes none of its descriptors. *)
Lemma worker_inv_world_frame w k k' efd :
  worker_inv w k → world_frame efd k k' → Worker.event_fd w ≠ efd →
  (∀ fd, owns_fd w fd → fd ∈ World.open_fds k') →
  worker_inv w k'.
Proof.
  intros [[H1 H2 H3 H4 H5] Hown] [Ho Hn Hs] Hne Hopen.
  split; [split|].
  - exact H1.
  - exact H2.
  - intros a c Ha Hc. apply Hopen. exists a, c. auto.
  - intros a c Ha Hc.
    destruct (H4 a c Ha Hc) as (tbl & ev & Ht & Hev & Hd).
    destruct (Hs _ tbl Hne Ht) as (tbl' & Ht' & Hf).
    exists tbl', ev. split; [exact Ht'|]. split; [|exact Hd].
    destruct (Hf (Client.src_fd c)) as [E | [_ Hc']]; [congruence|].
    exfalso. apply Hc', Hopen. exists a, c. auto.
  - exact H5.
  - intros tbl' fd ev Ht' Hev'.
    destruct (World.epolls k !! Worker.event_fd w) as [tbl|] eqn:Ht.
    + destruct (Hs _ tbl Hne Ht) as (tbl'' & Ht'' & Hf).
      rewrite Ht' in Ht''. injection Ht'' as <-.
      destruct (Hf fd) as [E | [E _]]; [|congruence].
      apply (Hown tbl fd ev Ht). congruence.
    + rewrite (Hn _ Hne Ht) in Ht'. discriminate.
Qed.

Lemma server_destroy_loop_closes pending n : ∀ i s k,
  length (Server.workers s) = (i + n)%nat →
  Z.of_nat (i + n) < UINT_MODULUS →
  (∀ j w, (i ≤ j)%nat → Server.workers s !! j = Some w →
          worker_inv w k ∧ states_known w) →
  (∀ j, NoDup (pending j)) →
  (∀ j1 j2 w1 w2, (i ≤ j1)%nat → (i ≤ j2)%nat →
     Server.workers s !! j1 = Some w1 → Server.workers s !! j2 = Some w2 →
     ¬ owns_fd w1 (Worker.event_fd w2)
     ∧ (j1 ≠ j2 → Worker.event_fd w1 ≠ Worker.event_fd w2
                  ∧ ∀ fd, owns_fd w1 fd → ¬ owns_fd w2 fd)) →
  ∃ s' k',
    server_destroy_loop n (Z.of_nat i) pending (s, k) = Ok tt (s', k')
    ∧ Server.workers_len s' = Server.workers_len s
    ∧ Server.workers_curr s' = Server.workers_curr s
    ∧ Server.is_alive s' = Server.is_alive s
    ∧ Server.listen_fd s' = Server.listen_fd s
    ∧ Server.signal_fd s' = Server.signal_fd s
    ∧ (∀ fd, fd ∈ World.open_fds k'
             ↔ fd ∈ World.open_fds k
               ∧ ¬ ∃ j w, (i ≤ j)%nat ∧ Server.workers s !! j = Some w
                          ∧ (fd = Worker.event_fd w ∨ owns_fd w fd))
    ∧ World.tx k' = World.tx k.
Proof.
  induction n as [|n IH]; intros i s k Hlen Hbound Hws Hnd Hdisj.
  - exists s, k. split; [reflexivity|]. repeat (split; [reflexivity|]).
    split; [|reflexivity]. intros fd. split; [|tauto].
    intros Hin. split; [exact Hin|]. intros (j & w & Hj & Hw & _).
    apply lookup_lt_Some in Hw. lia.
  - destruct (lookup_lt_is_Some_2 (Server.workers s) i ltac:(lia))
      as [w Hw].
    destruct (Hws i w ltac:(lia) Hw) as [Hinv Hst].
    destruct (_worker_destroy_closes (pending (Z.of_nat i)) w k Hinv Hst
                (Hnd _))
      as (w' & k1 & Hrun1 & _ & Hefd1 & _ & Hopen1 & _ & Htx1 & Hfr1).
    set (s1 := put_worker (Z.of_nat i) w' s).
    assert (∀ j, (S i ≤ j)%nat →
              Server.workers s1 !! j = Server.workers s !! j) as Hsame.
    { intros j Hj. unfold s1, put_worker. cbn. rewrite Nat2Z.id.
      apply list_lookup_insert_ne. lia. }
    destruct (IH (S i) s1 k1) as (s' & k' & Hrun & H1 & H2 & H3 & H4 & H5
                                   & Hopen & Htx).
    { unfold s1, put_worker. cbn. rewrite length_insert. lia. }
    { lia. }
    { intros j wj Hj Hwj. rewrite Hsame in Hwj by exact Hj.
      destruct (Hws j wj ltac:(lia) Hwj) as [Hinvj Hstj].
      split; [|exact Hstj].
      destruct (Hdisj j i wj w ltac:(lia) ltac:(lia) Hwj Hw)
        as [Hev Hne].
      destruct (Hne ltac:(lia)) as [Hefd Hown].
      apply (worker_inv_world_frame wj k k1 (Worker.event_fd w) Hinvj Hfr1
               Hefd).
      intros fd Hfd. apply Hopen1. split; [|split].
      - destruct Hfd as (a & c & Ha & Hc & <-).
        exact (wf_open _ _ (proj1 Hinvj) a c Ha Hc).
      - intros ->. exact (Hev Hfd).
      - intros Hw'. exact (Hown fd Hfd Hw'). }
    { exact Hnd. }
    { intros j1 j2 w1 w2 Hj1 Hj2 Hw1 Hw2.
      rewrite Hsame in Hw1 by exact Hj1. rewrite Hsame in Hw2 by exact Hj2.
      apply (Hdisj j1 j2); (lia || assumption). }
    exists s', k'. split.
    { cbn [server_destroy_loop].
      erewrite bind_Ok.
      2:{ apply (on_worker_Ok _ _ _ _ w); [lia | | exact Hrun1].
          unfold worker_at. by rewrite Nat2Z.id. }
      replace (wrap_unsigned (Z.of_nat i + 1)) with (Z.of_nat (S i))
        by (unfold wrap_unsigned; rewrite Z.mod_small; lia).
      exact Hrun. }
    split; [exact H1|]. split; [exact H2|]. split; [exact H3|].
    split; [exact H4|]. split; [exact H5|].
    split; [|congruence].
    intros fd. rewrite Hopen, Hopen1. split.
    + intros [(Hin & Hne & Hno) Hrest]. split; [exact Hin|].
      intros (j & wj & Hj & Hwj & Hfd).
      destruct (decide (j = i)) as [->|Hji].
      * rewrite Hw in Hwj. injection Hwj as <-.
        destruct Hfd as [-> | Hfd]; [by apply Hne | by apply Hno].
      * apply Hrest. exists j, wj. split; [lia|].
        rewrite Hsame by lia. auto.
    + intros [Hin Hno]. split; [split; [exact Hin|split]|].
      * intros ->. apply Hno. exists i, w. auto.
      * intros Hfd. apply Hno. exists i, w. auto.
      * intros (j & wj & Hj & Hwj & Hfd). rewrite Hsame in Hwj by exact Hj.
        apply Hno. exists j, wj. split; [lia | auto].
Qed.

(** X16.  Shutdown of the server.  From a server that satisfies the
    server invariants, [_server_destroy_workers] returns (given that every
    thread can be joined).  Every multiplexer and every descriptor that
    belonged to a record of some worker is closed, and no other descriptor
    is, so that the listening and the signal descriptor are left to the
    caller; nothing is written to any socket.  The array is gone
    afterwards, while [workers_len] keeps its value. *)
Theorem X16_server_destroy_closes_worker_descriptors pending s k :
  server_inv s k →
  (∀ j w, Server.workers s !! j = Some w → states_known w) →
  (∀ j, NoDup (pending j)) →
  ∃ s' k',
    _server_destroy_workers pending (s, k) = Ok tt (s', k')
    ∧ Server.workers s' = []
    ∧ Server.workers_len s' = Server.workers_len s
    ∧ Server.listen_fd s' = Server.listen_fd s
    ∧ Server.signal_fd s' = Server.signal_fd s
    ∧ (∀ fd, fd ∈ World.open_fds k'
             ↔ fd ∈ World.open_fds k
               ∧ ¬ ∃ j w, Server.workers s !! j = Some w
                          ∧ (fd = Worker.event_fd w ∨ owns_fd w fd))
    ∧ World.tx k' = World.tx k.
Proof.
  intros [[Hlen Hcurr Hlenws] Hws Hefd Heo Hown Hevo] Hst Hnd.
  destruct (server_destroy_loop_closes pending
              (Z.to_nat (Server.workers_len s)) 0%nat s k)
    as (s' & k' & Hrun & H1 & H2 & H3 & H4 & H5 & Hopen & Htx).
  { lia. }
  { lia. }
  { intros j w _ Hj. split; [exact (Hws j w Hj) | exact (Hst j w Hj)]. }
  { exact Hnd. }
  { intros j1 j2 w1 w2 _ _ Hw1 Hw2.
    split; [exact (Hevo _ _ _ _ Hw1 Hw2)|].
    intros Hne. split; [exact (Hefd _ _ _ _ Hw1 Hw2 Hne)|].
    intros fd. exact (Hown _ _ _ _ fd Hw1 Hw2 Hne). }
  eexists _, k'. split.
  { unfold _server_destroy_workers.
    erewrite bind_Ok by reflexivity.
    erewrite bind_Ok by exact Hrun.
    reflexivity. }
  split; [reflexivity|]. split; [exact H1|]. split; [exact H4|].
  split; [exact H5|]. split; [|exact Htx].
  intros fd. rewrite Hopen. split.
  - intros [Hin Hno]. split; [exact Hin|].
    intros (j & w & Hw & Hfd). apply Hno. exists j, w.
    split; [lia | auto].
  - intros [Hin Hno]. split; [exact Hin|].
    intros (j & w & _ & Hw & Hfd). apply Hno. eauto.
Qed.

Lemma ex_server_states_known j w :
  Server.workers (ex_server 8) !! j = Some w → states_known w.
Proof.
  intros Hj a c Ha.
  assert (Mempool.live (Worker.clients w) = ∅) as Hl.
  { destruct j as [|[|j]]; cbn in Hj; try discriminate;
      injection Hj as <-; reflexivity. }
  unfold is_live in Ha. rewrite Hl in Ha.
  by apply not_elem_of_empty in Ha.
Qed.

(** The example server with its two idle workers: the listening
    descriptor 4 and the signal descriptor 5 stay open, the multiplexers 6
    and 7 do not. *)
Lemma X16_witness :
  (server_inv (ex_server 8) (ex_server_world [] 16)
   ∧ (∀ j w, Server.workers (ex_server 8) !! j = Some w → states_known w)
   ∧ (∀ j : Z, NoDup (@nil Z)))
  ∧ ∃ s' k',
      _server_destroy_workers (λ _, []) (ex_server 8, ex_server_world [] 16)
      = Ok tt (s', k')
      ∧ Server.workers s' = []
      ∧ World.open_fds k' = {[4; 5]}.
Proof.
  split; [split; [apply ex_server_inv
                 | split; [apply ex_server_states_known
                          | intros _; apply NoDup_nil_2]]|].
  destruct (X16_server_destroy_closes_worker_descriptors (λ _, [])
              (ex_server 8) (ex_server_world [] 16) (ex_server_inv [] 16)
              ex_server_states_known (λ _, NoDup_nil_2))
    as (s' & k' & Hrun & Hws & _ & _ & _ & _ & _).
  exists s', k'. split; [exact Hrun|]. split; [exact Hws|].
  assert (World.open_fds
            (snd (outcome_state
                    (_server_destroy_workers (λ _, [])
                       (ex_server 8, ex_server_world [] 16))))
          = {[4; 5]}) as E by (vm_compute; reflexivity).
  rewrite Hrun in E. exact E.
Defined.

(** ** Names for the log *)

(** X17.  The names used in the log.  [_client_state_str] answers
    "unknown" exactly for the values outside HEADER to FORWARD_ALL, so also
    for STOP, which has no case of its own; [_client_type_str] answers
    "unknown" exactly for the values that are neither HTTP nor HTTPS. *)
Theorem X17_log_names_unknown state type :
  (_client_state_str state = "unknown"%string ↔ ¬ (0 ≤ state ≤ 5))
  ∧ _client_state_str _CLIENT_STATE_STOP = "unknown"%string
  ∧ (_client_type_str type = "unknown"%string ↔ ¬ (0 ≤ type ≤ 1)).
Proof.
  split; [|split; [reflexivity|]].
  - unfold _client_state_str, _CLIENT_STATE_HEADER, _CLIENT_STATE_RESOLVER,
      _CLIENT_STATE_CONNECT, _CLIENT_STATE_RESPONSE,
      _CLIENT_STATE_FORWARD_HEADER, _CLIENT_STATE_FORWARD_ALL.
    destruct (Z.eqb_spec state 0); [split; [discriminate | lia]|].
    destruct (Z.eqb_spec state 1); [split; [discriminate | lia]|].
    destruct (Z.eqb_spec state 2); [split; [discriminate | lia]|].
    destruct (Z.eqb_spec state 3); [split; [discriminate | lia]|].
    destruct (Z.eqb_spec state 4); [split; [discriminate | lia]|].
    destruct (Z.eqb_spec state 5); [split; [discriminate | lia]|].
    split; [lia | reflexivity].
  - unfold _client_type_str, _CLIENT_TYPE_HTTP, _CLIENT_TYPE_HTTPS.
    destruct (Z.eqb_spec type 0); [split; [discriminate | lia]|].
    destruct (Z.eqb_spec type 1); [split; [discriminate | lia]|].
    split; [lia | reflexivity].
Qed.

(** ** Opening the descriptors of the server *)

Lemma sys_close_fresh_open fd (o : gset Z) :
  fd ∉ o → ({[fd]} ∪ o) ∖ {[fd]} = o.
Proof.
  intros Hfd. apply set_eq. intros x.
  rewrite elem_of_difference, elem_of_union, elem_of_singleton.
  split; [intros [[->|H] Hne]; [done | exact H]|].
  intros H. split; [by right|]. intros ->. contradiction.
Qed.

Lemma sys_open_fd_neg {X} (x : X) k fd :
  fd < 0 → sys_open_fd fd (x, k) = Ok fd (x, k).
Proof.
  intros H. unfold sys_open_fd.
  destruct (Z.ltb_spec fd 0); [reflexivity | lia].
Qed.

Lemma sys_open_fd_Ok {X} (x : X) k fd :
  0 ≤ fd →
  sys_open_fd fd (x, k)
  = Ok fd (x, World.set_open_fds ({[fd]} ∪ World.open_fds k) k).
Proof.
  intros H. unfold sys_open_fd.
  destruct (Z.ltb_spec fd 0); [lia | reflexivity].
Qed.

(** X18.  Opening the listening socket.  When [socket] hands out a
    descriptor that is not open, [_server_open_listen_fd] returns 0 or -1,
    and 0 exactly when [socket], [setsockopt], [bind] and [listen] all
    succeed; the descriptor is then open and stored in the server.  On
    every failure the server is unchanged and the descriptor table is what
    it was: the socket that was created has been closed again. *)
Theorem X18_open_listen_fd_leaks_nothing env s k :
  OpenEnv.socket env ∉ World.open_fds k →
  ∃ r s' k',
    _server_open_listen_fd env (s, k) = Ok r (s', k')
    ∧ (r = 0 ∨ r = -1)
    ∧ (r = 0 ↔ 0 ≤ OpenEnv.socket env
               ∧ OpenEnv.setsockopt_ok env = true
               ∧ OpenEnv.bind_ok env = true
               ∧ OpenEnv.listen_ok env = true)
    ∧ (r = 0 → Server.listen_fd s' = OpenEnv.socket env
               ∧ World.open_fds k'
                 = {[OpenEnv.socket env]} ∪ World.open_fds k)
    ∧ (r = -1 → s' = s ∧ World.open_fds k' = World.open_fds k)
    ∧ Server.signal_fd s' = Server.signal_fd s
    ∧ Server.workers s' = Server.workers s.
Proof.
  intros Hfresh. unfold _server_open_listen_fd.
  destruct (Z.ltb_spec (OpenEnv.socket env) 0) as [Hneg|Hpos].
  { exists (-1), s, k. split.
    { erewrite bind_Ok by (by apply sys_open_fd_neg).
      destruct (Z.ltb_spec (OpenEnv.socket env) 0); [reflexivity | lia]. }
    split; [auto|]. split; [split; [discriminate | lia]|].
    split; [discriminate|]. auto. }
  destruct (OpenEnv.setsockopt_ok env) eqn:E1.
  2:{ eexists (-1), _, _. split.
      { erewrite bind_Ok by (by apply sys_open_fd_Ok).
        destruct (Z.ltb_spec (OpenEnv.socket env) 0); [lia|].
        cbn [negb]. erewrite bind_Ok by apply sys_close_Ok. reflexivity. }
      split; [auto|].
      split; [split; [discriminate | intros (_ & H & _); discriminate]|].
      split; [discriminate|]. split; [|auto]. intros _.
      split; [reflexivity|]. world_step. by apply sys_close_fresh_open. }
  destruct (OpenEnv.bind_ok env) eqn:E2.
  2:{ eexists (-1), _, _. split.
      { erewrite bind_Ok by (by apply sys_open_fd_Ok).
        destruct (Z.ltb_spec (OpenEnv.socket env) 0); [lia|].
        cbn [negb]. erewrite bind_Ok by apply sys_close_Ok. reflexivity. }
      split; [auto|].
      split; [split; [discriminate | intros (_ & _ & H & _); discriminate]|].
      split; [discriminate|]. split; [|auto]. intros _.
      split; [reflexivity|]. world_step. by apply sys_close_fresh_open. }
  destruct (OpenEnv.listen_ok env) eqn:E3.
  2:{ eexists (-1), _, _. split.
      { erewrite bind_Ok by (by apply sys_open_fd_Ok).
        destruct (Z.ltb_spec (OpenEnv.socket env) 0); [lia|].
        cbn [negb]. erewrite bind_Ok by apply sys_close_Ok. reflexivity. }
      split; [auto|].
      split; [split; [discriminate | intros (_ & _ & _ & H); discriminate]|].
      split; [discriminate|]. split; [|auto]. intros _.
      split; [reflexivity|]. world_step. by apply sys_close_fresh_open. }
  eexists 0, _, _. split.
  { erewrite bind_Ok by (by apply sys_open_fd_Ok).
    destruct (Z.ltb_spec (OpenEnv.socket env) 0); [lia|].
    cbn [negb]. erewrite bind_Ok by reflexivity. reflexivity. }
  split; [auto|]. split; [split; auto|]. split; [auto|].
  split; [discriminate|]. auto.
Qed.

(** The socket is created as descriptor 4 and cannot be bound. *)
Lemma X18_witness :
  (OpenEnv.socket (OpenEnv.mk 0 5 4 true false true)
     ∉ World.open_fds (World.mk {[0; 1; 2]} ∅ ∅ ∅ [] 16 []))
  ∧ ∃ s' k',
      _server_open_listen_fd (OpenEnv.mk 0 5 4 true false true)
        (ex_idle_server, World.mk {[0; 1; 2]} ∅ ∅ ∅ [] 16 [])
      = Ok (-1) (s', k')
      ∧ s' = ex_idle_server
      ∧ World.open_fds k' = {[0; 1; 2]}.
Proof.
  assert (OpenEnv.socket (OpenEnv.mk 0 5 4 true false true)
            ∉ World.open_fds (World.mk {[0; 1; 2]} ∅ ∅ ∅ [] 16 []))
    as Hfresh by (apply (bool_decide_unpack _); vm_compute; exact I).
  split; [exact Hfresh|].
  destruct (X18_open_listen_fd_leaks_nothing
              (OpenEnv.mk 0 5 4 true false true) ex_idle_server
              (World.mk {[0; 1; 2]} ∅ ∅ ∅ [] 16 []) Hfresh)
    as (r & s' & k' & Hrun & Hr & Hiff & _ & Hfail & _).
  assert (r = -1) as ->.
  { destruct Hr as [-> | ->]; [|reflexivity].
    destruct (proj1 Hiff eq_refl) as (_ & _ & H & _). discriminate H. }
  exists s', k'. split; [exact Hrun|]. exact (Hfail eq_refl).
Defined.

(** X19.  Opening the signal descriptor.  [_server_open_signal_fd]
    returns 0 exactly when [sigprocmask] and [signalfd] both succeed; the
    descriptor is then open and stored in the server.  On failure neither
    the server nor the descriptor table has changed. *)
Theorem X19_open_signal_fd_leaks_nothing env s k :
  ∃ r s' k',
    _server_open_signal_fd env (s, k) = Ok r (s', k')
    ∧ (r = 0 ∨ r = -1)
    ∧ (r = 0 ↔ 0 ≤ OpenEnv.sigprocmask env ∧ 0 ≤ OpenEnv.signalfd env)
    ∧ (r = 0 → Server.signal_fd s' = OpenEnv.signalfd env
               ∧ World.open_fds k'
                 = {[OpenEnv.signalfd env]} ∪ World.open_fds k)
    ∧ (r = -1 → s' = s ∧ k' = k)
    ∧ Server.listen_fd s' = Server.listen_fd s
    ∧ Server.workers s' = Server.workers s.
Proof.
  unfold _server_open_signal_fd.
  destruct (Z.ltb_spec (OpenEnv.sigprocmask env) 0) as [Hneg|Hpos].
  { exists (-1), s, k. split; [reflexivity|]. split; [auto|].
    split; [split; [discriminate | lia]|].
    split; [discriminate|]. auto. }
  destruct (Z.ltb_spec (OpenEnv.signalfd env) 0) as [Hneg'|Hpos'].
  { exists (-1), s, k. split.
    { erewrite bind_Ok by (by apply sys_open_fd_neg).
      destruct (Z.ltb_spec (OpenEnv.signalfd env) 0); [reflexivity | lia]. }
    split; [auto|]. split; [split; [discriminate | lia]|].
    split; [discriminate|]. auto. }
  eexists 0, _, _. split.
  { erewrite bind_Ok by (by apply sys_open_fd_Ok).
    destruct (Z.ltb_spec (OpenEnv.signalfd env) 0); [lia|].
    erewrite bind_Ok by reflexivity. reflexivity. }
  split; [auto|]. split; [split; auto|]. split; [auto|].
  split; [discriminate|]. auto.
Qed.
